(** * KML / KMZ parser: a shallow embedding of [lib/kml-parser.ts] and
    [lib/kmz-parser.ts], and the properties of the parser that the
    specification states.

    Layout:
    - [JsString]: the ECMAScript string primitives the parser calls;
    - [Dom]: the part of the DOM the parser reads (elements, text,
      [querySelector] with descendant combinators, [textContent]);
    - [JsNumber], [Browser], [Kmz.JSZip]: what the host provides (Number
      and Math, [uuidv4] and [DOMParser], JSZip), as type classes;
    - [Kml], [Kmz]: the functions of the two source files, under their
      own names;
    - [Reference]: one executable instance of the host, used to run the
      parser on concrete documents;
    - [Spec]: predicates that follow the wording of the specification;
    - [Examples], [Samples]: the documents the parser is run on;
    - [App]: the callers of the parser, the upload of the viewer page, the
      content summary and the guard of the map;
    - [Emitted], [Repair]: what an element takes from its placemark, and
      the declarations that namespace repair adds;
    - [Ecma]: the laws of the host's arithmetic that the distance relies
      on, and [Exact], a host that computes;
    - the properties, first for every host, then on the hosts that run. *)

From Stdlib Require Import String Ascii List ZArith QArith Qabs Lia Lqa Bool.
From stdpp Require Import base option gmap strings.
Import ListNotations.

Set Warnings "-register-all".
Open Scope string_scope.

(** ** ECMAScript strings

    A string is a sequence of code units; the model keeps the code units
    below 256, one [ascii] each. *)
Module JsString.

Definition code (c : ascii) : nat := nat_of_ascii c.

(** ECMAScript WhiteSpace and LineTerminator code points below 256:
    TAB, LF, VT, FF, CR, SP and NBSP. Both [String.prototype.trim] and
    the regular-expression class [\s] use this set. *)
Definition isWhiteSpace (c : ascii) : bool :=
  let n := code c in
  (Nat.eqb n 9 || Nat.eqb n 10 || Nat.eqb n 11 || Nat.eqb n 12
   || Nat.eqb n 13 || Nat.eqb n 32 || Nat.eqb n 160)%bool.

Definition isEmpty (s : string) : bool :=
  match s with EmptyString => true | String _ _ => false end.

(** [!s] is false exactly for a non-empty string. *)
Definition truthy (s : string) : bool := negb (isEmpty s).

Fixpoint trimStart (s : string) : string :=
  match s with
  | EmptyString => EmptyString
  | String c s' => if isWhiteSpace c then trimStart s' else s
  end.

Fixpoint trimEnd (s : string) : string :=
  match s with
  | EmptyString => EmptyString
  | String c s' =>
      let t := trimEnd s' in
      if (isWhiteSpace c && isEmpty t)%bool then EmptyString else String c t
  end.

Definition trim (s : string) : string := trimEnd (trimStart s).

(** [s.replace(/\s+/g, " ")]: every maximal run of white space becomes one
    space. [inRun] tells that the previous code unit was white space. *)
Fixpoint collapseFrom (inRun : bool) (s : string) : string :=
  match s with
  | EmptyString => EmptyString
  | String c s' =>
      if isWhiteSpace c
      then (if inRun then collapseFrom true s'
            else String " "%char (collapseFrom true s'))
      else String c (collapseFrom false s')
  end.

Definition collapseWhitespace (s : string) : string := collapseFrom false s.

(** [s.replace(/,\s+/g, ",")]: white space that follows a comma is removed.
    [skip] tells that a comma, and only white space since, came before. *)
Fixpoint afterCommaFrom (skip : bool) (s : string) : string :=
  match s with
  | EmptyString => EmptyString
  | String c s' =>
      if (skip && isWhiteSpace c)%bool then afterCommaFrom true s'
      else String c (afterCommaFrom (Ascii.eqb c ","%char) s')
  end.

Definition removeSpaceAfterComma (s : string) : string := afterCommaFrom false s.

(** [s.split(/\s+/)]: the pieces between maximal runs of white space, an
    empty piece before a leading run and after a trailing one. The head of
    the result is the piece being read. *)
Fixpoint splitWsFrom (inRun : bool) (s : string) : list string :=
  match s with
  | EmptyString => [EmptyString]
  | String c s' =>
      if isWhiteSpace c
      then (if inRun then splitWsFrom true s'
            else EmptyString :: splitWsFrom true s')
      else match splitWsFrom false s' with
           | t :: ts => String c t :: ts
           | [] => [String c EmptyString]
           end
  end.

Definition splitWhitespace (s : string) : list string := splitWsFrom false s.

(** [s.split(sep)] for a one-character separator. *)
Fixpoint splitChar (sep : ascii) (s : string) : list string :=
  match s with
  | EmptyString => [EmptyString]
  | String c s' =>
      if Ascii.eqb c sep then EmptyString :: splitChar sep s'
      else match splitChar sep s' with
           | t :: ts => String c t :: ts
           | [] => [String c EmptyString]
           end
  end.

(** [l.filter(Boolean)] on an array of strings. *)
Definition filterBoolean (l : list string) : list string :=
  List.filter truthy l.

Fixpoint startsWith (p s : string) : bool :=
  match p, s with
  | EmptyString, _ => true
  | String a p', String b s' => (Ascii.eqb a b && startsWith p' s')%bool
  | String _ _, EmptyString => false
  end.

Fixpoint drop (n : nat) (s : string) : string :=
  match n, s with
  | O, _ => s
  | S n', String _ s' => drop n' s'
  | S _, EmptyString => EmptyString
  end.

Fixpoint take (n : nat) (s : string) : string :=
  match n, s with
  | S n', String c s' => String c (take n' s')
  | _, _ => EmptyString
  end.

(** [s.substring(i, j)] for [i <= j]; indices beyond the end are clamped. *)
Definition substring (i j : nat) (s : string) : string :=
  take (j - i) (drop i s).

(** [s.substring(i)]. *)
Definition substringFrom (i : nat) (s : string) : string := drop i s.

(** The first occurrence of [p] in [s]: what is before it and what is
    after it. *)
Fixpoint cut (p s : string) : option (string * string) :=
  if startsWith p s then Some (EmptyString, drop (String.length p) s)
  else match s with
       | EmptyString => None
       | String c s' =>
           match cut p s' with
           | Some (b, a) => Some (String c b, a)
           | None => None
           end
       end.

Definition includes (p s : string) : bool :=
  match cut p s with Some _ => true | None => false end.

Definition endsWith (p s : string) : bool :=
  let n := String.length s in
  let k := String.length p in
  (Nat.leb k n && String.eqb (drop (n - k) s) p)%bool.

(** [toLowerCase] on code units below 256: A-Z, and the Latin-1 capitals
    other than the multiplication sign. *)
Definition lowerChar (c : ascii) : ascii :=
  let n := code c in
  if ((Nat.leb 65 n && Nat.leb n 90)
      || (Nat.leb 192 n && Nat.leb n 222 && negb (Nat.eqb n 215)))%bool
  then ascii_of_nat (n + 32) else c.

Fixpoint toLowerCase (s : string) : string :=
  match s with
  | EmptyString => EmptyString
  | String c s' => String (lowerChar c) (toLowerCase s')
  end.

(** GetSubstitution for a string pattern (no capture groups): in the
    replacement text [$$] is a dollar sign, [$&] the matched text, [$`]
    the text before the match and [$'] the text after it; any other
    dollar sign stands for itself. *)
Fixpoint getSubstitution (matched before after repl : string) : string :=
  match repl with
  | EmptyString => EmptyString
  | String c r =>
      if Ascii.eqb c "$"%char then
        match r with
        | String d r' =>
            if Ascii.eqb d "$"%char
            then String "$"%char (getSubstitution matched before after r')
            else if Ascii.eqb d "&"%char
            then matched ++ getSubstitution matched before after r'
            else if Ascii.eqb d "`"%char
            then before ++ getSubstitution matched before after r'
            else if Ascii.eqb d "'"%char
            then after ++ getSubstitution matched before after r'
            else String c (getSubstitution matched before after r)
        | EmptyString => String c EmptyString
        end
      else String c (getSubstitution matched before after r)
  end.

(** [s.replace(p, repl)] with a string pattern: the first occurrence only. *)
Definition replace (p repl s : string) : string :=
  match cut p s with
  | Some (before, after) =>
      before ++ getSubstitution p before after repl ++ after
  | None => s
  end.

(** Every code unit of [s] is white space. *)
Definition whitespaceOnly (s : string) : bool :=
  forallb isWhiteSpace (list_ascii_of_string s).

(** The text a double quote delimits in the source's literals. *)
Definition dquote : string := String (ascii_of_nat 34) EmptyString.

End JsString.

(** ** The DOM the parser reads

    A parsed document is a tree of elements and text. Comments and
    processing instructions carry nothing the parser reads. *)
Module Dom.

Inductive Node :=
| Elem (localName : string) (attributes : list (string * string))
       (childNodes : list Node)
| TextNode (data : string).

(** An element together with the names of its ancestors, nearest first:
    selectors are matched against the whole document, also when the query
    starts at an element. *)
Record Located := At { ancestors : list string; node : Node }.

(** The document is its root element. *)
Definition Document := Node.

Definition nameOf (n : Node) : string :=
  match n with Elem name _ _ => name | TextNode _ => EmptyString end.

(** [node.textContent]: the text of all descendants, in document order. *)
Fixpoint textContent (n : Node) : string :=
  match n with
  | TextNode d => d
  | Elem _ _ cs => String.concat EmptyString (List.map textContent cs)
  end.

(** [el.getAttribute(name)] *)
Fixpoint lookupAttr (name : string) (attrs : list (string * string))
  : option string :=
  match attrs with
  | [] => None
  | (k, v) :: rest => if String.eqb k name then Some v else lookupAttr name rest
  end.

Definition getAttribute (name : string) (n : Node) : option string :=
  match n with
  | Elem _ attrs _ => lookupAttr name attrs
  | TextNode _ => None
  end.

(** The element itself and its descendant elements, in document order. *)
Fixpoint inclusiveDescendants (anc : list string) (n : Node) : list Located :=
  match n with
  | TextNode _ => []
  | Elem name _ cs =>
      At anc n :: List.flat_map (inclusiveDescendants (name :: anc)) cs
  end.

Definition descendants (e : Located) : list Located :=
  match node e with
  | TextNode _ => []
  | Elem name _ cs =>
      List.flat_map (inclusiveDescendants (name :: ancestors e)) cs
  end.

(** A selector of the form [A B ... Z]: type selectors joined by the
    descendant combinator, outermost first. *)
Definition Selector := list string.

(** The names [names], in this order, occur among [anc] (a subsequence). *)
Fixpoint ancestorsMatch (names anc : list string) : bool :=
  match names, anc with
  | [], _ => true
  | _ :: _, [] => false
  | p :: ps, a :: rest =>
      if String.eqb p a then ancestorsMatch ps rest
      else ancestorsMatch names rest
  end.

Definition matches (sel : Selector) (e : Located) : bool :=
  match List.rev sel with
  | [] => false
  | subject :: outer =>
      match node e with
      | Elem name _ _ =>
          (String.eqb subject name && ancestorsMatch outer (ancestors e))%bool
      | TextNode _ => false
      end
  end.

(** [document.querySelectorAll(sel)] *)
Definition docQuerySelectorAll (sel : Selector) (doc : Document)
  : list Located :=
  List.filter (matches sel) (inclusiveDescendants [] doc).

(** [document.querySelector(sel)] *)
Definition docQuerySelector (sel : Selector) (doc : Document)
  : option Located :=
  List.head (docQuerySelectorAll sel doc).

(** [element.querySelectorAll(sel)] *)
Definition querySelectorAll (sel : Selector) (e : Located) : list Located :=
  List.filter (matches sel) (descendants e).

(** [element.querySelector(sel)] *)
Definition querySelector (sel : Selector) (e : Located) : option Located :=
  List.head (querySelectorAll sel e).

(** [e.querySelector(sel)?.textContent] *)
Definition queryText (sel : Selector) (e : Located) : option string :=
  option_map (fun x => textContent (node x)) (querySelector sel e).

(** [x || undefined] for an optional string [x]: the empty string is
    falsy. *)
Definition nonEmpty (x : option string) : option string :=
  match x with
  | Some s => if JsString.truthy s then Some s else None
  | None => None
  end.

End Dom.

(** ** What the host provides *)

(** ECMAScript Number values with the operations the parser uses. The
    arithmetic is the host's binary64 arithmetic and [Math] library; the
    parser's structure does not depend on how they round. *)
Class JsNumber := {
  number : Type;
  (** the value of a decimal numeric literal of the source *)
  num : Q -> number;
  parseFloat : string -> number;
  isNaN : number -> bool;
  add : number -> number -> number;
  sub : number -> number -> number;
  mul : number -> number -> number;
  div : number -> number -> number;
  Math_PI : number;
  Math_sin : number -> number;
  Math_cos : number -> number;
  Math_sqrt : number -> number;
  Math_abs : number -> number;
  Math_atan2 : number -> number -> number;
}.

(** The browser: [uuidv4 k] is the identifier the [k]-th call of [uuidv4]
    in one parse returns (counted from 0); [parseFromString] is
    [new DOMParser().parseFromString(text, "text/xml")], which reports a
    malformed text by a document that contains a [parsererror] element. *)
Class Browser := {
  uuidv4 : nat -> string;
  parseFromString : string -> Dom.Document;
}.

(** ** lib/types.ts and lib/kml-parser.ts *)
Module Kml.
Import JsString Dom.

(** What a call can end in: a value, or a thrown [Error] with its message. *)
Inductive Outcome (A : Type) :=
| Returned (value : A)
| Thrown (message : string).
Arguments Returned {A} value.
Arguments Thrown {A} message.

Inductive KmlElementType :=
| Point | LineString | Polygon | MultiGeometry | GroundOverlay | NetworkLink.

(** Common KML namespaces that might be missing in some files. *)
Definition KML_NAMESPACES : list (string * string) :=
  [ ("xmlns", "http://www.opengis.net/kml/2.2");
    ("xmlns:xsi", "http://www.w3.org/2001/XMLSchema-instance");
    ("xmlns:gx", "http://www.google.com/kml/ext/2.2");
    ("xmlns:atom", "http://www.w3.org/2005/Atom");
    ("xmlns:kml", "http://www.opengis.net/kml/2.2") ].

(** The text [kmlString.match(/<kml[^>]*>/)] finds: from the first
    [<kml] to the first [>] after it. When no [>] follows the first
    [<kml], none follows a later one either, and there is no match. *)
Definition matchKmlTag (kmlString : string) : option string :=
  match cut "<kml" kmlString with
  | Some (_, rest) =>
      match cut ">" rest with
      | Some (body, _) => Some ("<kml" ++ body ++ ">")
      | None => None
      end
  | None => None
  end.

(** The attribute text that is put in front of the tag's [>]. *)
Definition declaration (ns url : string) : string :=
  " " ++ ns ++ "=" ++ dquote ++ url ++ dquote ++ ">".

(** One round of the [forEach] over [Object.entries(KML_NAMESPACES)]. *)
Definition addNamespace (kmlTag updatedTag : string) (entry : string * string)
  : string :=
  let '(ns, url) := entry in
  if negb (includes ns kmlTag)
  then replace ">" (declaration ns url) updatedTag
  else updatedTag.

(** Preprocess KML string to fix common namespace issues. *)
Definition preprocessKml (kmlString : string) : string :=
  if negb (includes "<kml" kmlString)
  then "<kml xmlns=" ++ dquote ++ "http://www.opengis.net/kml/2.2" ++ dquote
       ++ ">" ++ kmlString ++ "</kml>"
  else
    match matchKmlTag kmlString with
    | Some kmlTag =>
        let updatedTag := fold_left (addNamespace kmlTag) KML_NAMESPACES kmlTag in
        if negb (String.eqb updatedTag kmlTag)
        then replace kmlTag updatedTag kmlString
        else kmlString
    | None => kmlString
    end.

(** Convert KML color (aabbggrr) to hex color (#rrggbb). [None] is an
    absent ([null] or [undefined]) argument. *)
Definition kmlColorToHex (kmlColor : option string) : string :=
  match kmlColor with
  | None => "#3700ff"
  | Some c =>
      if (negb (truthy c) || negb (Nat.eqb (String.length c) 8))%bool
      then "#3700ff"
      else
        let alpha := substring 0 2 c in
        let blue := substring 2 4 c in
        let green := substring 4 6 c in
        let red := substring 6 8 c in
        "#" ++ red ++ green ++ blue
  end.

(** *** lib/types.ts

    The types are given over the type of Numbers. *)
Section Types.
Variable number : Type.

(** A coordinate is the array [[lng, lat, alt]]: every array the parser
    builds has these three entries, read as [c[0]], [c[1]], [c[2]]. *)
Record Coordinate := Triple { lng : number; lat : number; alt : number }.

(** [KmlElement.coordinates]: one triple, a sequence of triples, or a
    sequence of rings. *)
Inductive Coordinates :=
| Single (c : Coordinate)
| Path (cs : list Coordinate)
| Rings (rs : list (list Coordinate)).

Record KmlStyle := {
  styleId : option string;     (* [id] *)
  color : option string;
  width : option number;
  opacity : option number;
  fillColor : option string;
  fillOpacity : option number;
  strokeColor : option string;
  strokeWidth : option number;
  strokeOpacity : option number;
  iconUrl : option string;
  iconScale : option number;
}.

Record Metadata := {
  length_km : option number;   (* [length], in km *)
  area : option number;        (* in square km *)
}.

Record KmlElement := {
  elementId : string;          (* [id] *)
  type : KmlElementType;
  name : option string;
  description : option string;
  coordinates : Coordinates;
  style : option KmlStyle;
  extendedData : option (gmap string string);
  metadata : option Metadata;
}.

Record KmlData := {
  kmlName : option string;         (* [name] *)
  kmlDescription : option string;  (* [description] *)
  elements : list KmlElement;
}.

End Types.

Arguments Triple {number} lng lat alt.
Arguments lng {number} c.
Arguments lat {number} c.
Arguments alt {number} c.
Arguments Single {number} c.
Arguments Path {number} cs.
Arguments Rings {number} rs.
Arguments Build_KmlStyle {number}.
Arguments styleId {number} k.
Arguments color {number} k.
Arguments width {number} k.
Arguments opacity {number} k.
Arguments fillColor {number} k.
Arguments fillOpacity {number} k.
Arguments strokeColor {number} k.
Arguments strokeWidth {number} k.
Arguments strokeOpacity {number} k.
Arguments iconUrl {number} k.
Arguments iconScale {number} k.
Arguments Build_Metadata {number}.
Arguments length_km {number} m.
Arguments area {number} m.
Arguments Build_KmlElement {number}.
Arguments elementId {number} k.
Arguments type {number} k.
Arguments name {number} k.
Arguments description {number} k.
Arguments coordinates {number} k.
Arguments style {number} k.
Arguments extendedData {number} k.
Arguments metadata {number} k.
Arguments Build_KmlData {number}.
Arguments kmlName {number} k.
Arguments kmlDescription {number} k.
Arguments elements {number} k.

Section WithNumbers.
Context {Num : JsNumber}.

(** [parts[i]] handed to [Number.parseFloat]: an index beyond the array
    gives [undefined], which [parseFloat] reads as the text
    "undefined". *)
Definition part (i : nat) (parts : list string) : string :=
  nth i parts "undefined".

(** The degraded triple. *)
Definition zeroTriple : Coordinate number := Triple (num 0) (num 0) (num 0).

(** The body of the [map] callback of [parseCoordinates] and of
    [parseCoordinatesText]: one token to one triple. *)
Definition parseTuple (coordStr : string) : Coordinate number :=
  let parts := splitChar ","%char coordStr in
  let lng := parseFloat (part 0 parts) in
  let lat := parseFloat (part 1 parts) in
  let alt := if Nat.ltb 2 (length parts) then parseFloat (part 2 parts)
             else num 0 in
  if (isNaN lng || isNaN lat)%bool then zeroTriple
  else Triple lng lat alt.

(** The tokens: trim, normalise white space, remove spaces after commas,
    split by white space and filter out empty strings. *)
Definition coordStrings (s : string) : list string :=
  filterBoolean
    (splitWhitespace (removeSpaceAfterComma (collapseWhitespace (trim s)))).

Definition parseCoordinates (coordinatesString : option string)
  : list (Coordinate number) :=
  match coordinatesString with
  | None => []
  | Some s => if truthy s then List.map parseTuple (coordStrings s) else []
  end.

(** Helper function for fallback parsing to parse coordinate strings. *)
Definition parseCoordinatesText (coordsText : string) (type : KmlElementType)
  : list (Coordinate number) :=
  List.map parseTuple (coordStrings coordsText).

(** Calculate distance between two points in km using Haversine formula. *)
Definition calculateDistance (lat1 lon1 lat2 lon2 : number) : number :=
  let R := num 6371 in
  let dLat := div (mul (sub lat2 lat1) Math_PI) (num 180) in
  let dLon := div (mul (sub lon2 lon1) Math_PI) (num 180) in
  let a :=
    add (mul (Math_sin (div dLat (num 2))) (Math_sin (div dLat (num 2))))
        (mul (mul (mul (Math_cos (div (mul lat1 Math_PI) (num 180)))
                       (Math_cos (div (mul lat2 Math_PI) (num 180))))
                  (Math_sin (div dLon (num 2))))
             (Math_sin (div dLon (num 2)))) in
  let c := mul (num 2) (Math_atan2 (Math_sqrt a) (Math_sqrt (sub (num 1) a))) in
  mul R c.

(** One round of the loop of [calculatePolygonArea]. An index is always
    inside the array here; [zeroTriple] only makes [nth] total. *)
Definition areaStep (coordinates : list (Coordinate number)) (area : number) (i : nat)
  : number :=
  let j := (i + 1) mod (length coordinates) in
  let ci := nth i coordinates zeroTriple in
  let cj := nth j coordinates zeroTriple in
  let lat1 := div (mul (lat ci) Math_PI) (num 180) in
  let lon1 := div (mul (lng ci) Math_PI) (num 180) in
  let lat2 := div (mul (lat cj) Math_PI) (num 180) in
  let lon2 := div (mul (lng cj) Math_PI) (num 180) in
  add area (mul (sub lon2 lon1)
                (add (add (num 2) (Math_sin lat1)) (Math_sin lat2))).

(** Calculate polygon area (approximate, in square km). *)
Definition calculatePolygonArea (coordinates : list (Coordinate number)) : number :=
  if Nat.ltb (length coordinates) 3 then num 0
  else
    let R := num 6371 in
    let area := fold_left (areaStep coordinates)
                          (seq 0 (length coordinates)) (num 0) in
    Math_abs (div (mul (mul area R) R) (num 2)).

(** The loop that sums the distances between consecutive points of a
    LineString. *)
Fixpoint pathLength (len : number) (coordinates : list (Coordinate number))
  : number :=
  match coordinates with
  | a :: ((b :: _) as rest) =>
      pathLength (add len (calculateDistance (lat a) (lng a) (lat b) (lng b)))
                 rest
  | _ => len
  end.

(** *** Styles *)

Definition StyleTable := gmap string (KmlStyle number).

(** [fill === "1" ? 0.5 : 0] and [outline === "1" ? 1 : 0] *)
Definition flag (text : string) (yes no : Q) : number :=
  if String.eqb text "1" then num yes else num no.

(** The [KmlStyle] object built for one [Style] element. Every field is
    assigned at most once, so the object is given field by field. *)
Definition styleOf (styleEl : Located) : KmlStyle number :=
  let lineStyle := querySelector ["LineStyle"] styleEl in
  let polyStyle := querySelector ["PolyStyle"] styleEl in
  let iconStyle := querySelector ["IconStyle"] styleEl in
  let text (scope : option Located) (sel : Selector) : option string :=
    nonEmpty (scope ≫= queryText sel) in
  {| styleId := None;
     color := (fun c => kmlColorToHex (Some c)) <$> text lineStyle ["color"];
     width := parseFloat <$> text lineStyle ["width"];
     opacity := None;
     fillColor := (fun c => kmlColorToHex (Some c)) <$> text polyStyle ["color"];
     fillOpacity := (fun f => flag f 0.5 0) <$> text polyStyle ["fill"];
     strokeColor := None;
     strokeWidth := None;
     strokeOpacity := (fun o => flag o 1 0) <$> text polyStyle ["outline"];
     iconUrl := text iconStyle ["Icon"; "href"];
     iconScale := parseFloat <$> text iconStyle ["scale"] |}.

(** The callback of [styleElements.forEach]. *)
Definition styleStep (styles : StyleTable) (styleEl : Located) : StyleTable :=
  match nonEmpty (getAttribute "id" (node styleEl)) with
  | None => styles
  | Some id => <[id := styleOf styleEl]> styles
  end.

(** [pair => { const key = pair.querySelector("key");
               return key && key.textContent === "normal" }] *)
Definition isNormalPair (pair : Located) : bool :=
  match querySelector ["key"] pair with
  | Some key => String.eqb (textContent (node key)) "normal"
  | None => false
  end.

(** [normalPair?.querySelector("styleUrl")?.textContent] *)
Definition normalStyleUrl (styleMap : Located) : option string :=
  List.find isNormalPair (querySelectorAll ["Pair"] styleMap)
    ≫= queryText ["styleUrl"].

(** [styleUrl && styleUrl.startsWith("#")], and then the id that
    [styleUrl.substring(1)] gives. *)
Definition referencedId (styleUrl : option string) : option string :=
  match nonEmpty styleUrl with
  | Some url => if startsWith "#" url then Some (substringFrom 1 url) else None
  | None => None
  end.

(** The callback of [styleMaps.forEach]. *)
Definition styleMapStep (styles : StyleTable) (styleMap : Located)
  : StyleTable :=
  match nonEmpty (getAttribute "id" (node styleMap)) with
  | None => styles
  | Some id =>
      match referencedId (normalStyleUrl styleMap) with
      | Some ref =>
          match styles !! ref with
          | Some referencedStyle => <[id := referencedStyle]> styles
          | None => styles
          end
      | None => styles
      end
  end.

(** Parse KML styles. *)
Definition parseStyles (xmlDoc : Document) : StyleTable :=
  let styles :=
    fold_left styleStep (docQuerySelectorAll ["Style"] xmlDoc) ∅ in
  fold_left styleMapStep (docQuerySelectorAll ["StyleMap"] xmlDoc) styles.

(** *** Placemarks *)

Context {B : Browser}.

(** [extendedData[dataName] = dataValue] on a plain object. Assigning a
    string to the key [__proto__] runs the prototype setter, which
    ignores a value that is not an object: no own property appears. *)
Definition assignKey (o : gmap string string) (k v : string)
  : gmap string string :=
  if String.eqb k "__proto__" then o else <[k := v]> o.

(** The callback of [dataElements.forEach]. *)
Definition dataStep (extendedData : gmap string string) (dataEl : Located)
  : gmap string string :=
  match nonEmpty (getAttribute "name" (node dataEl)),
        nonEmpty (queryText ["value"] dataEl) with
  | Some dataName, Some dataValue => assignKey extendedData dataName dataValue
  | _, _ => extendedData
  end.

(** [Object.keys(extendedData).length > 0 ? extendedData : undefined] *)
Definition orUndefined (extendedData : gmap string string)
  : option (gmap string string) :=
  if decide (extendedData = ∅) then None else Some extendedData.

(** [elements.push(e)], where [e] takes the next identifier: one
    identifier is drawn for each element pushed. *)
Definition push (elements : list (KmlElement number))
           (mk : string -> KmlElement number) : list (KmlElement number) :=
  (elements ++ [mk (uuidv4 (length elements))])%list.

(** [name ? `${name} (Multi)` : undefined] *)
Definition multiName (name : option string) : option string :=
  (fun n => n ++ " (Multi)") <$> name.

(** The rings of a [Polygon] placemark: the outer boundary when it has
    coordinates, then every inner boundary that has. *)
Definition polygonRings (polygon : Located) : list (list (Coordinate number)) :=
  let outerBoundary :=
    queryText ["outerBoundaryIs"; "LinearRing"; "coordinates"] polygon in
  let innerBoundaries :=
    querySelectorAll ["innerBoundaryIs"; "LinearRing"; "coordinates"] polygon in
  let rings :=
    match nonEmpty outerBoundary with
    | Some text =>
        match parseCoordinates (Some text) with
        | [] => []
        | outerCoords => [outerCoords]
        end
    | None => []
    end in
  fold_left
    (fun (rings : list (list (Coordinate number))) (innerBoundary : Located) =>
       match parseCoordinates (Some (textContent (node innerBoundary))) with
       | [] => rings
       | innerCoords => (rings ++ [innerCoords])%list
       end)
    innerBoundaries rings.

(** The callback of [placemarks.forEach]: what one placemark adds to
    [elements]. Nothing in it can throw, so the [catch] around it is
    never entered. *)
Definition placemarkStep (styles : StyleTable) (elements : list (KmlElement number))
           (placemark : Located) : list (KmlElement number) :=
  let name := nonEmpty (queryText ["name"] placemark) in
  let description := nonEmpty (queryText ["description"] placemark) in
  let style := referencedId (queryText ["styleUrl"] placemark)
                 ≫= (fun ref => styles !! ref) in
  let extendedData :=
    fold_left dataStep (querySelectorAll ["ExtendedData"; "Data"] placemark) ∅ in
  match querySelector ["Point"] placemark with
  | Some point =>
      match parseCoordinates (queryText ["coordinates"] point) with
      | c0 :: _ =>
          push elements (fun id =>
            {| elementId := id; type := Point; name := name;
               description := description; coordinates := Single c0;
               style := style; extendedData := orUndefined extendedData;
               metadata := None |})
      | [] => elements
      end
  | None =>
  match querySelector ["LineString"] placemark with
  | Some lineString =>
      match parseCoordinates (queryText ["coordinates"] lineString) with
      | [] => elements
      | coords =>
          let len := pathLength (num 0) coords in
          push elements (fun id =>
            {| elementId := id; type := LineString; name := name;
               description := description; coordinates := Path coords;
               style := style; extendedData := orUndefined extendedData;
               metadata := Some {| length_km := Some len; area := None |} |})
      end
  | None =>
  match querySelector ["Polygon"] placemark with
  | Some polygon =>
      match polygonRings polygon with
      | [] => elements
      | (ring0 :: _) as rings =>
          let area := calculatePolygonArea ring0 in
          push elements (fun id =>
            {| elementId := id; type := Polygon; name := name;
               description := description; coordinates := Rings rings;
               style := style; extendedData := orUndefined extendedData;
               metadata := Some {| length_km := None; area := Some area |} |})
      end
  | None =>
  match querySelector ["MultiGeometry"] placemark with
  | Some multiGeometry =>
      match querySelector ["Point"] multiGeometry,
            querySelector ["LineString"] multiGeometry,
            querySelector ["Polygon"] multiGeometry with
      | Some point, _, _ =>
          match parseCoordinates (queryText ["coordinates"] point) with
          | c0 :: _ =>
              push elements (fun id =>
                {| elementId := id; type := Point; name := multiName name;
                   description := description; coordinates := Single c0;
                   style := style; extendedData := orUndefined extendedData;
                   metadata := None |})
          | [] => elements
          end
      | None, Some lineString, _ =>
          match parseCoordinates (queryText ["coordinates"] lineString) with
          | [] => elements
          | coords =>
              push elements (fun id =>
                {| elementId := id; type := LineString; name := multiName name;
                   description := description; coordinates := Path coords;
                   style := style; extendedData := orUndefined extendedData;
                   metadata := None |})
          end
      | None, None, Some polygon =>
          match nonEmpty
                  (queryText ["outerBoundaryIs"; "LinearRing"; "coordinates"]
                             polygon) with
          | Some outerBoundary =>
              match parseCoordinates (Some outerBoundary) with
              | [] => elements
              | coords =>
                  push elements (fun id =>
                    {| elementId := id; type := Polygon;
                       name := multiName name;
                       description := description;
                       coordinates := Rings [coords];
                       style := style;
                       extendedData := orUndefined extendedData;
                       metadata := None |})
              end
          | None => elements
          end
      | None, None, None => elements
      end
  | None => elements
  end end end end.

(** Extract the placemarks of the document. *)
Definition parsePlacemarks (xmlDoc : Document) (styles : StyleTable)
  : list (KmlElement number) :=
  fold_left (placemarkStep styles) (docQuerySelectorAll ["Placemark"] xmlDoc) [].

(** *** The fallback parser *)

(** [re.exec(s)] for a regular expression of the shape
    [<TAG[^>]*>([\s\S]*?)<\/TAG>]: the captured text and what follows
    the match. The match starts at the first [<TAG], its opening part
    ends at the first [>] after it, and the lazy group ends at the first
    [</TAG>] after that; when one of the three is missing no later
    start can match either. *)
Definition execBlock (tag s : string) : option (string * string) :=
  match cut ("<" ++ tag) s with
  | Some (_, afterName) =>
      match cut ">" afterName with
      | Some (_, afterOpen) => cut ("</" ++ tag ++ ">") afterOpen
      | None => None
      end
  | None => None
  end.

(** [m ? m[1] : none] *)
Definition captured (m : option (string * string)) : option string :=
  fst <$> m.

(** The fixed style of an element found by the fallback parser. *)
Definition fallbackStyle : KmlStyle number :=
  {| styleId := None; color := Some "#3700ff"; width := None;
     opacity := None; fillColor := Some "#42eedc";
     fillOpacity := Some (num 0.2); strokeColor := None;
     strokeWidth := None; strokeOpacity := None; iconUrl := None;
     iconScale := None |}.

(** The geometry of a placemark block: the first of Point, LineString
    and Polygon that matches, with the text it captures. *)
Definition blockGeometry (placemarkContent : string)
  : option (KmlElementType * string) :=
  match captured (execBlock "Point" placemarkContent),
        captured (execBlock "LineString" placemarkContent),
        captured (execBlock "Polygon" placemarkContent) with
  | Some g, _, _ => Some (Point, g)
  | None, Some g, _ => Some (LineString, g)
  | None, None, Some g => Some (Polygon, g)
  | None, None, None => None
  end.

(** The body of the [while] loop of [fallbackParse], for one match. *)
Definition salvageStep (elements : list (KmlElement number)) (placemarkContent : string)
  : list (KmlElement number) :=
  let name := trim <$> captured (execBlock "name" placemarkContent) in
  let description :=
    trim <$> captured (execBlock "description" placemarkContent) in
  match blockGeometry placemarkContent with
  | Some (type, geometryContent) =>
      match captured (execBlock "coordinates" geometryContent) with
      | Some coordsMatch =>
          let coordsText := trim coordsMatch in
          match parseCoordinatesText coordsText type with
          | [] => elements
          | coords =>
              push elements (fun id =>
                {| elementId := id; type := type; name := name;
                   description := description;
                   coordinates :=
                     match type with
                     | Polygon => Rings [coords]
                     | _ => Path coords
                     end;
                   style := Some fallbackStyle;
                   extendedData := None; metadata := None |})
          end
      | None => elements
      end
  | None => elements
  end.

(** The [while ((match = placemarkRegex.exec(kmlString)) !== null)]
    loop: the global expression resumes after each match. Every match
    is at least 23 code units long, so [fuel] rounds are enough when
    [fuel] is the length of the text (see [salvageLoop_fuel]). *)
Fixpoint salvageLoop (fuel : nat) (kmlString : string)
         (elements : list (KmlElement number)) : list (KmlElement number) :=
  match fuel with
  | O => elements
  | S fuel' =>
      match execBlock "Placemark" kmlString with
      | Some (placemarkContent, rest) =>
          salvageLoop fuel' rest (salvageStep elements placemarkContent)
      | None => elements
      end
  end.

(** Fallback parsing method for problematic KML files. *)
Definition fallbackParse (kmlString : string) : KmlData number :=
  {| kmlName := None; kmlDescription := None;
     elements := salvageLoop (String.length kmlString) kmlString [] |}.

(** *** The entry point *)

(** Parse KML string to KmlData object. *)
Definition parseKml (kmlString : string) : Outcome (KmlData number) :=
  if negb (truthy kmlString)
  then Thrown "Invalid KML content: Empty or not a string"
  else
    let processedKmlString := preprocessKml kmlString in
    let xmlDoc := parseFromString processedKmlString in
    match docQuerySelector ["parsererror"] xmlDoc with
    | Some _ => Returned (fallbackParse kmlString)
    | None =>
        let kmlDoc :=
          match docQuerySelector ["kml"; "Document"] xmlDoc with
          | Some d => Some d
          | None => docQuerySelector ["Document"] xmlDoc
          end in
        let name := nonEmpty (kmlDoc ≫= queryText ["name"]) in
        let description := nonEmpty (kmlDoc ≫= queryText ["description"]) in
        let styles := parseStyles xmlDoc in
        let elements := parsePlacemarks xmlDoc styles in
        Returned {| kmlName := name; kmlDescription := description;
                    elements := elements |}
    end.

End WithNumbers.
End Kml.

(** ** lib/kmz-parser.ts *)
Module Kmz.
Import JsString Kml.

(** A [File]: its name and its bytes. *)
Record File := { fileName : string; fileBytes : string }.

(** An entry of a loaded archive. [asyncString] is what
    [entry.async("string")] resolves to, [None] when it rejects. *)
Record ZipObject := {
  entryName : string;
  dir : bool;
  asyncString : option string;
}.

(** [zipContents.files], as [Object.entries] lists it: the names are the
    keys, in the order the archive was read. *)
Definition ZipFiles := list (string * ZipObject).

(** [new JSZip().loadAsync(file)]; [None] when the promise rejects. *)
Class JSZip := { loadAsync : File -> option ZipFiles }.

(** [zipContents.files[filename]] *)
Fixpoint filesAt (files : ZipFiles) (filename : string) : option ZipObject :=
  match files with
  | [] => None
  | (k, o) :: rest => if String.eqb k filename then Some o else filesAt rest filename
  end.

(** [zipContents.file(name)] of JSZip: the entry of that name unless it is
    a directory. *)
Definition file (files : ZipFiles) (name : string) : option ZipObject :=
  match filesAt files name with
  | Some o => if dir o then None else Some o
  | None => None
  end.

(** [Object.keys(zipContents.files)] *)
Definition keys (files : ZipFiles) : list string := List.map fst files.

(** [!zipContents.files[filename].dir] *)
Definition notDir (files : ZipFiles) (filename : string) : bool :=
  match filesAt files filename with
  | Some o => negb (dir o)
  | None => false
  end.

(** [filename.toLowerCase().endsWith(".kml") && !zipContents.files[filename].dir] *)
Definition isKmlEntry (files : ZipFiles) (filename : string) : bool :=
  (endsWith ".kml" (toLowerCase filename) && notDir files filename)%bool.

(** [/\.(png|jpg|jpeg|gif|svg)$/i.test(filename) && !zipContents.files[filename].dir] *)
Definition isImageEntry (files : ZipFiles) (filename : string) : bool :=
  let lower := toLowerCase filename in
  ((endsWith ".png" lower || endsWith ".jpg" lower || endsWith ".jpeg" lower
    || endsWith ".gif" lower || endsWith ".svg" lower)
   && notDir files filename)%bool.

(** The images whose object URLs go into [resources]; the map is built
    and then dropped, it is no part of what [parseKmz] returns. *)
Definition imageFiles (files : ZipFiles) : list string :=
  List.filter (isImageEntry files) (keys files).

Section WithHost.
Context {Num : JsNumber} {B : Browser} {J : JSZip}.

(** From the entry that was found to the result: extract the text,
    refuse an empty one, parse it. *)
Definition extractAndParse (kmlFile : ZipObject) : Outcome (KmlData number) :=
  match asyncString kmlFile with
  | None => Thrown "Failed to extract KML content from KMZ file"
  | Some kmlContent =>
      if (negb (truthy kmlContent) || isEmpty (trim kmlContent))%bool
      then Thrown "Extracted KML file is empty"
      else parseKml kmlContent
  end.

(** Parse a KMZ file and extract the KML content. [None] is an absent
    file. Every error thrown inside is an [Error], which the outer
    [catch] throws again as it is. *)
Definition parseKmz (f : option File) : Outcome (KmlData number) :=
  match f with
  | None => Thrown "No file provided"
  | Some f =>
      if negb (endsWith ".kmz" (toLowerCase (fileName f)))
      then Thrown "Not a KMZ file"
      else
        match loadAsync f with
        | None => Thrown "Invalid KMZ file: Not a valid ZIP archive"
        | Some files =>
            match file files "doc.kml" with
            | Some kmlFile => extractAndParse kmlFile
            | None =>
                match List.filter (isKmlEntry files) (keys files) with
                | [] => Thrown "No KML file found in the KMZ archive"
                | first :: _ =>
                    match file files first with
                    | Some kmlFile => extractAndParse kmlFile
                    | None => Thrown "No KML file found in the KMZ archive"
                    end
                end
            end
        end
  end.

End WithHost.
End Kmz.

(** ** A reference host

    An executable instance of the host classes, to run the parser on
    concrete documents. Numbers are kept exact and arithmetic is recorded
    rather than rounded; the XML reader covers elements, attributes, text,
    the five predefined entities, comments, CDATA sections and processing
    instructions, without checking namespaces. *)
Module Reference.
Import JsString Dom.

(** A Number: NaN, an infinity, the exact value of a decimal literal, or
    an operation of the host applied to Numbers. *)
Inductive RefNumber :=
| RNaN
| RInfinity (negative : bool)
| Val (q : Q)
| Op (name : string) (args : list RefNumber).

Definition isDigit (c : ascii) : bool :=
  (Nat.leb 48 (code c) && Nat.leb (code c) 57)%bool.

(** The leading decimal digits of [s], read as a number, how many there
    are, and the rest of [s]. *)
Fixpoint spanDigits (acc : Z) (count : nat) (s : string) : Z * nat * string :=
  match s with
  | String c r =>
      if isDigit c
      then spanDigits (10 * acc + Z.of_nat (code c - 48)) (S count) r
      else (acc, count, s)
  | EmptyString => (acc, count, s)
  end.

Definition readSign (s : string) : bool * string :=
  match s with
  | String c r =>
      if Ascii.eqb c "-"%char then (true, r)
      else if Ascii.eqb c "+"%char then (false, r)
      else (false, s)
  | EmptyString => (false, s)
  end.

(** [m * 10^e] as a reduced fraction. *)
Definition scale10 (m e : Z) : Q :=
  if (0 <=? e)%Z then inject_Z (m * 10 ^ e)
  else Qred (Qmake m (Z.to_pos (10 ^ (- e)))).

(** The exponent part [e[+-]digits] when it is complete, else 0. *)
Definition readExponent (s : string) : Z :=
  match s with
  | String c r =>
      if (Ascii.eqb c "e"%char || Ascii.eqb c "E"%char)%bool then
        let '(negative, r') := readSign r in
        let '(v, count, _) := spanDigits 0 0 r' in
        match count with
        | O => 0
        | S _ => if negative then (- v)%Z else v
        end
      else 0%Z
  | EmptyString => 0%Z
  end.

(** [Number.parseFloat]: leading white space is skipped and the longest
    prefix that is a decimal literal is read; NaN when there is none. *)
Definition parseFloatRef (input : string) : RefNumber :=
  let '(negative, s) := readSign (trimStart input) in
  if startsWith "Infinity" s then RInfinity negative
  else
    let '(ip, icount, r1) := spanDigits 0 0 s in
    let '(m, fcount, r2) :=
      match r1 with
      | String c r =>
          if Ascii.eqb c "."%char then
            let '(m, fcount, r2) := spanDigits ip 0 r in (m, fcount, r2)
          else (ip, O, r1)
      | EmptyString => (ip, O, r1)
      end in
    match (icount + fcount)%nat with
    | O => RNaN
    | S _ =>
        let e := (readExponent r2 - Z.of_nat fcount)%Z in
        Val (scale10 (if negative then - m else m)%Z e)
    end.

#[export] Instance refNumber : JsNumber := {|
  number := RefNumber;
  num := fun q => Val (Qred q);
  parseFloat := parseFloatRef;
  isNaN := fun x => match x with RNaN => true | _ => false end;
  add := fun x y => Op "+" [x; y];
  sub := fun x y => Op "-" [x; y];
  mul := fun x y => Op "*" [x; y];
  div := fun x y => Op "/" [x; y];
  Math_PI := Op "Math.PI" [];
  Math_sin := fun x => Op "Math.sin" [x];
  Math_cos := fun x => Op "Math.cos" [x];
  Math_sqrt := fun x => Op "Math.sqrt" [x];
  Math_abs := fun x => Op "Math.abs" [x];
  Math_atan2 := fun y x => Op "Math.atan2" [y; x];
|}.


(** *** Reading XML *)

(** The text up to the [>] that ends a tag, and what follows it; a [>]
    between quotes belongs to an attribute value. *)
Fixpoint scanTag (quote : option ascii) (s : string) : option (string * string) :=
  match s with
  | EmptyString => None
  | String c r =>
      match quote with
      | Some q =>
          prod_map (String c) id
            <$> scanTag (if Ascii.eqb c q then None else Some q) r
      | None =>
          if Ascii.eqb c ">"%char then Some (EmptyString, r)
          else if (Ascii.eqb c (ascii_of_nat 34) || Ascii.eqb c "'"%char)%bool
          then prod_map (String c) id <$> scanTag (Some c) r
          else prod_map (String c) id <$> scanTag None r
      end
  end.

(** The text up to the first code unit that satisfies [stop]. *)
Fixpoint spanUntil (stop : ascii -> bool) (s : string) : string * string :=
  match s with
  | EmptyString => (EmptyString, EmptyString)
  | String c r =>
      if stop c then (EmptyString, s)
      else let '(a, b) := spanUntil stop r in (String c a, b)
  end.

(** The predefined entities; [skip] code units of a reference that was
    just read are passed over. *)
Fixpoint decode (skip : nat) (s : string) : option string :=
  match s with
  | EmptyString => Some EmptyString
  | String c r =>
      match skip with
      | S k => decode k r
      | O =>
          if Ascii.eqb c "&"%char then
            if startsWith "lt;" r then String "<"%char <$> decode 3 r
            else if startsWith "gt;" r then String ">"%char <$> decode 3 r
            else if startsWith "amp;" r then String "&"%char <$> decode 4 r
            else if startsWith "quot;" r
                 then String (ascii_of_nat 34) <$> decode 5 r
            else if startsWith "apos;" r then String "'"%char <$> decode 5 r
            else None
          else String c <$> decode 0 r
      end
  end.

(** The attributes written after the element's name. *)
Fixpoint readAttributes (fuel : nat) (s : string)
  : option (list (string * string)) :=
  match fuel with
  | O => None
  | S fuel' =>
      match trimStart s with
      | EmptyString => Some []
      | String _ _ as s1 =>
          match cut "=" s1 with
          | Some (rawName, afterEq) =>
              let name := trimEnd rawName in
              match trimStart afterEq with
              | String q afterQuote =>
                  if ((Ascii.eqb q (ascii_of_nat 34) || Ascii.eqb q "'"%char)
                      && truthy name
                      && negb (existsb isWhiteSpace (list_ascii_of_string name)))%bool
                  then
                    match cut (String q EmptyString) afterQuote with
                    | Some (raw, rest) =>
                        match decode 0 raw, readAttributes fuel' rest with
                        | Some v, Some more => Some ((name, v) :: more)
                        | _, _ => None
                        end
                    | None => None
                    end
                  else None
              | EmptyString => None
              end
          | None => None
          end
      end
  end.

(** The local part of a qualified name. *)
Definition localPart (qname : string) : string :=
  match cut ":" qname with
  | Some (_, l) => l
  | None => qname
  end.

(** An element that is still open: its name, its attributes and the
    children read so far, last first. The bottom frame is the document. *)
Record Frame := {
  frameName : string;
  frameAttributes : list (string * string);
  frameChildren : list Node;
}.

Definition addChild (n : Node) (stack : list Frame) : list Frame :=
  match stack with
  | f :: rest =>
      {| frameName := frameName f; frameAttributes := frameAttributes f;
         frameChildren := n :: frameChildren f |} :: rest
  | [] => []
  end.

Definition close (f : Frame) : Node :=
  Elem (localPart (frameName f)) (frameAttributes f) (List.rev (frameChildren f)).

Definition isBlank (s : string) : bool := isEmpty (trimStart s).

(** At the end of the text: one root element, and nothing else but white
    space at the top. *)
Definition finish (stack : list Frame) : option Node :=
  match stack with
  | [doc] =>
      match List.filter
              (fun n => match n with
                        | TextNode t => negb (isBlank t)
                        | Elem _ _ _ => true
                        end) (frameChildren doc) with
      | [Elem name attrs cs] => Some (Elem name attrs cs)
      | _ => None
      end
  | _ => None
  end.

(** One opening or empty-element tag, given the text between [<] and
    [>]. *)
Definition openTag (tagText : string) (stack : list Frame)
  : option (list Frame) :=
  let selfClosing := endsWith "/" tagText in
  let body := if selfClosing then take (String.length tagText - 1) tagText
              else tagText in
  let '(qname, attrText) := spanUntil isWhiteSpace body in
  match truthy qname, readAttributes (S (String.length attrText)) attrText with
  | true, Some attrs =>
      let f := {| frameName := qname; frameAttributes := attrs;
                  frameChildren := [] |} in
      Some (if selfClosing then addChild (close f) stack else f :: stack)
  | _, _ => None
  end.

Fixpoint readNodes (fuel : nat) (s : string) (stack : list Frame)
  : option Node :=
  match fuel with
  | O => None
  | S fuel' =>
      match s with
      | EmptyString => finish stack
      | String _ _ =>
          if startsWith "<!--" s then
            '(_, rest) ← cut "-->" (drop 4 s); readNodes fuel' rest stack
          else if startsWith "<![CDATA[" s then
            '(t, rest) ← cut "]]>" (drop 9 s);
            readNodes fuel' rest (addChild (TextNode t) stack)
          else if startsWith "<?" s then
            '(_, rest) ← cut "?>" (drop 2 s); readNodes fuel' rest stack
          else if startsWith "<!" s then
            '(_, rest) ← cut ">" (drop 2 s); readNodes fuel' rest stack
          else if startsWith "</" s then
            '(qname, rest) ← cut ">" (drop 2 s);
            match stack with
            | f :: ((_ :: _) as outer) =>
                if String.eqb (frameName f) (trimEnd qname)
                then readNodes fuel' rest (addChild (close f) outer)
                else None
            | _ => None
            end
          else if startsWith "<" s then
            '(tagText, rest) ← scanTag None (drop 1 s);
            stack' ← openTag tagText stack;
            readNodes fuel' rest stack'
          else
            let '(raw, rest) := spanUntil (Ascii.eqb "<"%char) s in
            t ← decode 0 raw;
            readNodes fuel' rest (addChild (TextNode t) stack)
      end
  end.

Definition document : Frame :=
  {| frameName := EmptyString; frameAttributes := []; frameChildren := [] |}.

(** [parseFromString(text, "text/xml")]; a text that is not well formed
    gives a document whose root is a [parsererror] element. *)
Definition parseXml (text : string) : Document :=
  match readNodes (S (String.length text)) text [document] with
  | Some root => root
  | None => Elem "parsererror" [] [TextNode "XML Parsing Error"]
  end.

(** The decimal numeral of [n], at most [fuel] digits. *)
Fixpoint decimal (fuel n : nat) (acc : string) : string :=
  match fuel with
  | O => acc
  | S fuel' =>
      let acc' := String (ascii_of_nat (48 + n mod 10)) acc in
      if Nat.ltb n 10 then acc' else decimal fuel' (n / 10) acc'
  end.

#[export] Instance refBrowser : Browser := {|
  uuidv4 := fun k => "uuid-" ++ decimal (S k) k EmptyString;
  parseFromString := parseXml;
|}.

End Reference.

(** ** The specification's words

    Predicates and functions that follow the wording of the specification,
    to be compared with the functions of the source. *)
Module Spec.
Import JsString Dom Kml Kmz.

Section WithHost.
Context {Num : JsNumber} {B : Browser}.

(** The area of an element, when it has one, is the area of its ring 0:
    the other rings have no part in it. *)
Definition areaFromRing0 (e : KmlElement number) : Prop :=
  forall a : number,
    metadata e ≫= area = Some a ->
    type e = Polygon
    /\ exists ring0 rest,
        coordinates e = Rings (ring0 :: rest)
        /\ a = calculatePolygonArea ring0.


End WithHost.

(** The KML entry as the lookup is described: [doc.kml] when the archive
    has it, else the first entry that is not a directory and whose name
    ends, whatever the case, in [.kml]. *)
Definition kmlEntry (files : ZipFiles) : option ZipObject :=
  match file files "doc.kml" with
  | Some o => Some o
  | None =>
      snd <$> List.find
                (fun entry => (endsWith ".kml" (toLowerCase (fst entry))
                               && negb (dir (snd entry)))%bool)
                files
  end.

End Spec.

(** ** Documents the parser is run on *)
Module Examples.
Import JsString Dom Kml Kmz Reference.

(** A well-formed document without a placemark. *)
Definition emptyDocument : string :=
  "<kml><Document><name>Empty</name></Document></kml>".

(** The root element is never closed. *)
Definition unclosedDocument : string :=
  "<kml><Placemark><name> A </name><Point><coordinates>1,2</coordinates></Point></Placemark>".

(** A placemark that only a text scan can see. *)
Definition commentedPlacemark : string :=
  "<kml><!-- <Placemark><Point><coordinates>1,2</coordinates></Point></Placemark> --></kml>".

(** A polygon whose outer boundary has no coordinates and whose inner
    boundary has three. *)
Definition holeOnlyPolygon : string :=
  "<kml><Placemark><Polygon>"
  ++ "<outerBoundaryIs><LinearRing><coordinates> </coordinates></LinearRing></outerBoundaryIs>"
  ++ "<innerBoundaryIs><LinearRing><coordinates>1,2 3,4 5,6</coordinates></LinearRing></innerBoundaryIs>"
  ++ "</Polygon></Placemark></kml>".

(** A polygon with an outer boundary of four points and one hole. *)
Definition polygonWithHole : string :=
  "<kml><Placemark><Polygon>"
  ++ "<outerBoundaryIs><LinearRing><coordinates>0,0 4,0 4,4 0,4</coordinates></LinearRing></outerBoundaryIs>"
  ++ "<innerBoundaryIs><LinearRing><coordinates>1,1 2,1 2,2</coordinates></LinearRing></innerBoundaryIs>"
  ++ "</Polygon></Placemark></kml>".

(** A root tag that declares the [gx] prefix and nothing else. *)
Definition gxOnlyDocument : string :=
  "<kml xmlns:gx=" ++ dquote ++ "http://www.google.com/kml/ext/2.2" ++ dquote
  ++ "><Document/></kml>".

(** A root tag with a dollar sign in an attribute. *)
Definition dollarDocument : string := "<kml id='$&'><Document/></kml>".

(** A StyleMap whose normal pair names a style that is not defined, and a
    placemark that refers to the StyleMap. *)
Definition danglingStyleMap : Node :=
  Elem "StyleMap" [("id", "m")]
    [Elem "Pair" []
       [Elem "key" [] [TextNode "normal"];
        Elem "styleUrl" [] [TextNode "#missing"]]].

Definition styledPlacemark : Node :=
  Elem "Placemark" []
    [Elem "styleUrl" [] [TextNode "#m"];
     Elem "Point" [] [Elem "coordinates" [] [TextNode "x,1"]]].

Definition danglingDocument : Document :=
  Elem "kml" [] [Elem "Document" [] [danglingStyleMap; styledPlacemark]].

(** An archive without [doc.kml]: a directory, an image and a track. *)
Definition trackEntry : ZipObject :=
  {| entryName := "Layers/Track.KML"; dir := false;
     asyncString := Some emptyDocument |}.

Definition archive : ZipFiles :=
  [ ("Layers/", {| entryName := "Layers/"; dir := true; asyncString := None |});
    ("image.png", {| entryName := "image.png"; dir := false;
                     asyncString := Some "PNG" |});
    ("Layers/Track.KML", trackEntry) ].

(** A reader that finds [archive] in every file. *)
#[export] Instance archiveReader : JSZip := {| loadAsync := fun _ => Some archive |}.

End Examples.

(** ** The callers: the viewer page and its components *)
Module App.
Import JsString Dom Kml Kmz.

(** [FileReader.readAsText(file)]: the text that [onload] receives, [None]
    when [onerror] is called instead. *)
Class FileReader := { readAsText : File -> option string }.

(** The tag ["kml" | "kmz"] of the page's [fileType] state. *)
Inductive FileKind := kml | kmz.

Definition typeEqb (a b : KmlElementType) : bool :=
  match a, b with
  | Point, Point | LineString, LineString | Polygon, Polygon
  | MultiGeometry, MultiGeometry | GroundOverlay, GroundOverlay
  | NetworkLink, NetworkLink => true
  | _, _ => false
  end.

Section WithHost.
Context {Num : JsNumber} {B : Browser} {J : JSZip} {R : FileReader}.

(** *** components/file-info-panel.tsx: the content summary *)

(** [kmlData.elements.filter((el) => el.type === t).length] *)
Definition countOfType (t : KmlElementType) (kmlData : KmlData number) : nat :=
  length (List.filter (fun el => typeEqb (type el) t) (elements kmlData)).

(** [kmlData.elements.filter((el) =>
      !["Point", "LineString", "Polygon"].includes(el.type)).length] *)
Definition countOfOthers (kmlData : KmlData number) : nat :=
  length (List.filter
            (fun el => negb (existsb (typeEqb (type el))
                                     [Point; LineString; Polygon]))
            (elements kmlData)).

(** *** components/kml-viewer.tsx: what is drawn *)

(** [element.coordinates.length] on the array that the element holds: a
    triple has three entries, a path one entry for each point, a polygon
    one entry for each ring. *)
Definition coordinatesLength (c : Coordinates number) : nat :=
  match c with
  | Single _ => 3
  | Path cs => length cs
  | Rings rs => length rs
  end.

(** The condition under which the [switch] over [element.type] builds a
    layer for the element; without it [layer] stays undefined and
    nothing is added to the map. *)
Definition layerGuard (element : KmlElement number) : bool :=
  match type element with
  | Point => Nat.leb 2 (coordinatesLength (coordinates element))
  | LineString => Nat.leb 2 (coordinatesLength (coordinates element))
  | Polygon => Nat.ltb 0 (coordinatesLength (coordinates element))
  | _ => false
  end.

(** *** app/viewer/page.tsx: the upload *)

(** The state of [ViewerPage] that an upload writes. *)
Record PageState := {
  kmlData : option (KmlData number);
  isLoading : bool;
  error : option string;
  selectedElement : option (KmlElement number);
  shownName : option string;       (* [fileName] *)
  shownSize : option nat;          (* [fileSize] *)
  shownType : option FileKind;     (* [fileType] *)
}.

(** What both branches do with the result of the parser: on a value
    [setKmlData(parsedData); setSelectedElement(null)], on an error
    [setError(err.message)]. *)
Definition settle (s : PageState) (r : Outcome (KmlData number)) : PageState :=
  match r with
  | Returned parsedData =>
      {| kmlData := Some parsedData; isLoading := isLoading s;
         error := error s; selectedElement := None;
         shownName := shownName s; shownSize := shownSize s;
         shownType := shownType s |}
  | Thrown message =>
      {| kmlData := kmlData s; isLoading := isLoading s;
         error := Some message; selectedElement := selectedElement s;
         shownName := shownName s; shownSize := shownSize s;
         shownType := shownType s |}
  end.

(** [handleFileUpload]: the state once the handler and the callbacks of
    the reader have run. [file] is [event.target.files?.[0]]. *)
Definition handleFileUpload (s : PageState) (file : option File) : PageState :=
  match file with
  | None => s
  | Some file =>
      let isKmz := endsWith ".kmz" (toLowerCase (fileName file)) in
      let started :=
        {| kmlData := kmlData s; isLoading := false; error := None;
           selectedElement := selectedElement s;
           shownName := Some (fileName file);
           shownSize := Some (String.length (fileBytes file));
           shownType := Some (if isKmz then kmz else kml) |} in
      if isKmz then settle started (parseKmz (Some file))
      else
        match readAsText file with
        | Some kmlString => settle started (parseKml kmlString)
        | None =>
            {| kmlData := kmlData started; isLoading := false;
               error := Some "Failed to read the file.";
               selectedElement := selectedElement started;
               shownName := shownName started;
               shownSize := shownSize started;
               shownType := shownType started |}
        end
  end.

End WithHost.
End App.

(** ** What an emitted element is made of *)
Module Emitted.
Import JsString Dom Kml.

Section WithHost.
Context {Num : JsNumber} {B : Browser}.

(** The shape of the coordinates goes with the type: a triple for a
    Point, a path with at least one point for a LineString, at least
    one ring and no empty ring for a Polygon. *)
Definition wellShaped (e : KmlElement number) : Prop :=
  match type e, coordinates e with
  | Point, Single _ => True
  | LineString, Path cs => cs <> []
  | Polygon, Rings rs => rs <> [] /\ List.Forall (fun ring => ring <> []) rs
  | _, _ => False
  end.

(** The fields that an element takes from its placemark whatever its
    geometry: name and description as they are, the style under the id
    of the placemark's styleUrl, the extended data of the placemark. *)
Definition ownFields (styles : StyleTable) (placemark : Located)
           (e : KmlElement number) : Prop :=
  name e = nonEmpty (queryText ["name"] placemark)
  /\ description e = nonEmpty (queryText ["description"] placemark)
  /\ style e = referencedId (queryText ["styleUrl"] placemark)
                 ≫= (fun ref => styles !! ref)
  /\ extendedData e
     = orUndefined
         (fold_left dataStep
                    (querySelectorAll ["ExtendedData"; "Data"] placemark) ∅).

(** The geometry of an element of [placemark]: the first Point beneath
    the placemark; when there is none, the first LineString; when there
    is none either, the first Polygon. *)
Definition geometryOf (placemark : Located) (e : KmlElement number) : Prop :=
  (exists point c0 rest,
      querySelector ["Point"] placemark = Some point
      /\ parseCoordinates (queryText ["coordinates"] point) = c0 :: rest
      /\ type e = Point /\ coordinates e = Single c0
      /\ metadata e = None)
  \/ (exists lineString c0 rest,
         querySelector ["Point"] placemark = None
         /\ querySelector ["LineString"] placemark = Some lineString
         /\ parseCoordinates (queryText ["coordinates"] lineString) = c0 :: rest
         /\ type e = LineString /\ coordinates e = Path (c0 :: rest)
         /\ metadata e
            = Some {| length_km := Some (pathLength (num 0) (c0 :: rest));
                      area := None |})
  \/ (exists polygon ring0 rings,
         querySelector ["Point"] placemark = None
         /\ querySelector ["LineString"] placemark = None
         /\ querySelector ["Polygon"] placemark = Some polygon
         /\ polygonRings polygon = ring0 :: rings
         /\ type e = Polygon /\ coordinates e = Rings (ring0 :: rings)
         /\ metadata e
            = Some {| length_km := None;
                      area := Some (calculatePolygonArea ring0) |}).

(** An element that the fallback parser makes of the text of one
    placemark block: trimmed name and description, the fixed style, no
    extended data and no metadata; all the triples of the first
    coordinates of the first geometry, as a path, or as the one ring of
    a Polygon. *)
Definition salvaged (placemarkContent : string) (e : KmlElement number)
  : Prop :=
  name e = trim <$> captured (execBlock "name" placemarkContent)
  /\ description e
     = trim <$> captured (execBlock "description" placemarkContent)
  /\ style e = Some fallbackStyle
  /\ extendedData e = None
  /\ metadata e = None
  /\ exists geometryContent coordsMatch c0 rest,
      blockGeometry placemarkContent = Some (type e, geometryContent)
      /\ captured (execBlock "coordinates" geometryContent)
         = Some coordsMatch
      /\ parseCoordinatesText (trim coordsMatch) (type e) = c0 :: rest
      /\ coordinates e
         = match type e with
           | Polygon => Rings [c0 :: rest]
           | _ => Path (c0 :: rest)
           end.

(** The texts that the successive matches of [placemarkRegex] capture
    in [kmlString], in the order of the loop of [fallbackParse]. *)
Fixpoint placemarkBlocks (fuel : nat) (kmlString : string) : list string :=
  match fuel with
  | O => []
  | S fuel' =>
      match execBlock "Placemark" kmlString with
      | Some (placemarkContent, rest) =>
          placemarkContent :: placemarkBlocks fuel' rest
      | None => []
      end
  end.


End WithHost.
End Emitted.

(** ** What namespace repair adds *)
Module Repair.
Import JsString Kml.

(** The attribute that declares [ns]. *)
Definition attribute (ns url : string) : string :=
  " " ++ ns ++ "=" ++ dquote ++ url ++ dquote.

(** The declarations, in the order of [KML_NAMESPACES], of the names that
    do not occur in the text of the root tag. *)
Definition missingDeclarations (kmlTag : string) : string :=
  String.concat EmptyString
    (List.map (fun entry => attribute (fst entry) (snd entry))
       (List.filter (fun entry => negb (includes (fst entry) kmlTag))
                    KML_NAMESPACES)).

(** The declarations of all the names of [KML_NAMESPACES]. *)
Definition allDeclarations : string :=
  String.concat EmptyString
    (List.map (fun entry => attribute (fst entry) (snd entry)) KML_NAMESPACES).

End Repair.

(** ** More documents, files and a page *)
Module Samples.
Import JsString Dom Kml Kmz Reference Examples.

(** A document with a name, a Point that carries extended data and a
    LineString of two points. *)
Definition tripDocument : string :=
  "<kml><Document><name>Trip</name>"
  ++ "<Placemark><name>A</name>"
  ++ "<ExtendedData><Data name='k'><value>v</value></Data></ExtendedData>"
  ++ "<Point><coordinates>1,2</coordinates></Point></Placemark>"
  ++ "<Placemark><LineString><coordinates>0,0 3,4</coordinates></LineString></Placemark>"
  ++ "</Document></kml>".

(** A LineString of one point. *)
Definition lonelyLine : string :=
  "<kml><Placemark><LineString><coordinates>1,2</coordinates></LineString></Placemark></kml>".

(** A placemark whose MultiGeometry holds no geometry. *)
Definition emptyMultiGeometry : Located :=
  At ["Document"; "kml"]
     (Elem "Placemark" []
        [Elem "name" [] [TextNode "M"]; Elem "MultiGeometry" [] []]).

(** A Style and a StyleMap whose normal pair names it. *)
Definition redLine : Node :=
  Elem "Style" [("id", "s")]
    [Elem "LineStyle" [] [Elem "color" [] [TextNode "ff0000ff"]]].

Definition redLineMap : Node :=
  Elem "StyleMap" [("id", "m")]
    [Elem "Pair" []
       [Elem "key" [] [TextNode "normal"];
        Elem "styleUrl" [] [TextNode "#s"]]].

Definition styledDocument : Document :=
  Elem "kml" [] [Elem "Document" [] [redLine; redLineMap]].

(** A browser whose [k]-th identifier is a tally of [k] strokes: no
    identifier is returned twice. *)
Definition tally (k : nat) : string := Nat.iter k (String "i"%char) EmptyString.

Definition tallyBrowser : Browser :=
  {| uuidv4 := tally; parseFromString := parseXml |}.

(** An entry of an archive that holds white space only. *)
Definition blankEntry : ZipObject :=
  {| entryName := "doc.kml"; dir := false; asyncString := Some "  " |}.

(** A reader that hands over the bytes of the file as its text. *)
#[export] Instance textReader : App.FileReader :=
  {| App.readAsText := fun f => Some (fileBytes f) |}.

(** A file that [archiveReader] reads as [archive]. *)
Definition trip : File := {| fileName := "Trip.KMZ"; fileBytes := "PK" |}.

(** A text file, and a page on which nothing was uploaded yet. *)
Definition notes : File := {| fileName := "notes.txt"; fileBytes := "hello" |}.

Definition freshPage : App.PageState :=
  {| App.kmlData := None; App.isLoading := false; App.error := None;
     App.selectedElement := None; App.shownName := None;
     App.shownSize := None; App.shownType := None |}.

End Samples.


(** ** The arithmetic the distance relies on *)
Module Ecma.
Import Kml.

Section Laws.
Context {Num : JsNumber}.

(** [-x], written as the product with the literal [-1], which changes
    the sign and nothing else. *)
Definition neg (x : number) : number := mul (num (-1)%Q) x.

(** [x] is a finite Number: [x - x] is NaN for NaN and for the
    infinities, and for them only. *)
Definition finite (x : number) : Prop := isNaN (sub x x) = false.

(** Degrees to radians, as the source writes it. *)
Definition radians (x : number) : number := div (mul x Math_PI) (num 180).

(** IEEE 754 arithmetic: changing the sign of an operand changes the
    sign of the result and nothing else, the product commutes, and the
    operations on the zeros and ones of the formula are exact. *)
Record Ieee754 : Prop := {
  sub_swap : forall a b, sub b a = neg (sub a b) \/ sub b a = sub a b;
  mul_comm : forall x y, mul x y = mul y x;
  mul_neg_l : forall x y, mul (neg x) y = neg (mul x y);
  mul_neg_neg : forall x y, mul (neg x) (neg y) = mul x y;
  div_neg_l : forall x y, div (neg x) y = neg (div x y);
  sub_self : forall x, finite x -> sub x x = num 0;
  zero_times_pi : mul (num 0) Math_PI = num 0;
  zero_over_180 : div (num 0) (num 180) = num 0;
  zero_over_2 : div (num 0) (num 2) = num 0;
  zero_times_zero : mul (num 0) (num 0) = num 0;
  zero_plus_zero : add (num 0) (num 0) = num 0;
  one_minus_zero : sub (num 1) (num 0) = num 1;
  two_times_zero : mul (num 2) (num 0) = num 0;
  radius_times_zero : mul (num 6371) (num 0) = num 0;
  zero_is_a_number : isNaN (num 0) = false;
}.

(** The [Math] library. ECMAScript fixes the first three values, and
    an exact square root gives the last. That the sine is odd, and
    that the cosine of a finite Number is a finite Number whose square
    is finite (so that its square times [+0] is [+0]), are properties
    of the implementation, which ECMAScript only asks to approximate
    the two functions. *)
Record MathLibrary : Prop := {
  sin_zero : Math_sin (num 0) = num 0;
  sqrt_zero : Math_sqrt (num 0) = num 0;
  atan2_zero_one : Math_atan2 (num 0) (num 1) = num 0;
  sin_odd : forall x, Math_sin (neg x) = neg (Math_sin x);
  cos_finite :
    forall x, finite x ->
              mul (mul (Math_cos x) (Math_cos x)) (num 0) = num 0;
  sqrt_one : Math_sqrt (num 1) = num 1;
}.

(** NaN is contagious. *)
Record NaNPropagation : Prop := {
  add_NaN_l : forall x y, isNaN x = true -> isNaN (add x y) = true;
  add_NaN_r : forall x y, isNaN y = true -> isNaN (add x y) = true;
  mul_NaN_l : forall x y, isNaN x = true -> isNaN (mul x y) = true;
  mul_NaN_r : forall x y, isNaN y = true -> isNaN (mul x y) = true;
  div_NaN_l : forall x y, isNaN x = true -> isNaN (div x y) = true;
  sin_NaN : forall x, isNaN x = true -> isNaN (Math_sin x) = true;
  sqrt_NaN : forall x, isNaN x = true -> isNaN (Math_sqrt x) = true;
  atan2_NaN_l : forall y x, isNaN y = true -> isNaN (Math_atan2 y x) = true;
}.

End Laws.
End Ecma.

(** ** A host that computes

    Numbers are NaN, the two infinities and the rationals; the arithmetic
    is exact on the rationals and follows ECMAScript on NaN and the
    infinities; the functions of [Math] are rational approximations, cut
    after 18 decimal places. The two zeros are not told apart. *)
Module Exact.
Import JsString.
#[local] Open Scope Q_scope.

Inductive ExactNumber :=
| XNaN
| XInfinity (negative : bool)
| XVal (q : Q).

Definition fin (q : Q) : ExactNumber := XVal (Qred q).

Definition isZero (q : Q) : bool := Qeq_bool q 0.

Definition isNegative (q : Q) : bool := negb (Qle_bool 0 q).

Definition addX (x y : ExactNumber) : ExactNumber :=
  match x, y with
  | XNaN, _ | _, XNaN => XNaN
  | XInfinity s, XInfinity t => if Bool.eqb s t then XInfinity s else XNaN
  | XInfinity s, XVal _ => XInfinity s
  | XVal _, XInfinity t => XInfinity t
  | XVal a, XVal b => fin (a + b)
  end.

Definition subX (x y : ExactNumber) : ExactNumber :=
  match x, y with
  | XNaN, _ | _, XNaN => XNaN
  | XInfinity s, XInfinity t => if Bool.eqb s t then XNaN else XInfinity s
  | XInfinity s, XVal _ => XInfinity s
  | XVal _, XInfinity t => XInfinity (negb t)
  | XVal a, XVal b => fin (a - b)
  end.

Definition mulX (x y : ExactNumber) : ExactNumber :=
  match x, y with
  | XNaN, _ | _, XNaN => XNaN
  | XInfinity s, XInfinity t => XInfinity (xorb s t)
  | XInfinity s, XVal a | XVal a, XInfinity s =>
      if isZero a then XNaN else XInfinity (xorb s (isNegative a))
  | XVal a, XVal b => fin (a * b)
  end.

Definition divX (x y : ExactNumber) : ExactNumber :=
  match x, y with
  | XNaN, _ | _, XNaN => XNaN
  | XInfinity _, XInfinity _ => XNaN
  | XInfinity s, XVal b => XInfinity (xorb s (isNegative b))
  | XVal _, XInfinity _ => fin 0
  | XVal a, XVal b =>
      if isZero b
      then if isZero a then XNaN else XInfinity (isNegative a)
      else fin (a / b)
  end.

Definition pi : Q := 3141592653589793 # 1000000000000000.

(** [q] cut after 18 decimal places, towards zero: what the functions
    of [Math] keep of their results. *)
Definition truncate (q : Q) : Q :=
  let r := Qred q in
  Z.quot (Qnum r * 10 ^ 18) (Zpos (Qden r)) # 10 ^ 18.

(** The first terms of the series of the sine and of the cosine. *)
Definition sinQ (a : Q) : Q :=
  a - a * a * a / 6 + a * a * a * a * a / 120
  - a * a * a * a * a * a * a / 5040.

Definition cosQ (a : Q) : Q :=
  1 - a * a / 2 + a * a * a * a / 24 - a * a * a * a * a * a / 720
  + a * a * a * a * a * a * a * a / 40320.

(** Twelve rounds of Newton's iteration from [(a + 1) / 2], for [0 < a]. *)
Definition newton (a x : Q) : Q := truncate ((x + a / x) / 2).

Definition sqrtQ (a : Q) : Q :=
  Nat.iter 12 (newton a) (truncate ((a + 1) / 2)).

(** The arc tangent, by a rational function on [-1, 1] and by the
    complement outside. *)
Definition atanQ (t : Q) : Q :=
  let pade (u : Q) := u * (15 + 4 * u * u) / (15 + 9 * u * u) in
  if Qle_bool (Qabs t) 1 then pade t
  else (if isNegative t then - (pi / 2) else pi / 2) - pade (1 / t).

Definition atan2X (y x : ExactNumber) : ExactNumber :=
  match y, x with
  | XNaN, _ | _, XNaN => XNaN
  | XInfinity s, XInfinity t =>
      let q := if t then 3 * pi / 4 else pi / 4 in
      fin (if s then - q else q)
  | XInfinity s, XVal _ => fin (if s then - (pi / 2) else pi / 2)
  | XVal b, XInfinity t =>
      if t then fin (if isNegative b then - pi else pi) else fin 0
  | XVal b, XVal a =>
      if isZero a
      then if isZero b then fin 0
           else fin (if isNegative b then - (pi / 2) else pi / 2)
      else if isNegative a
      then fin (truncate (if isNegative b then atanQ (b / a) - pi
                          else atanQ (b / a) + pi))
      else fin (truncate (atanQ (b / a)))
  end.

Definition ofReference (r : Reference.RefNumber) : ExactNumber :=
  match r with
  | Reference.RNaN => XNaN
  | Reference.RInfinity negative => XInfinity negative
  | Reference.Val q => XVal q
  | Reference.Op _ _ => XNaN
  end.

Definition exactNumber : JsNumber := {|
  number := ExactNumber;
  num := fin;
  parseFloat := fun input => ofReference (Reference.parseFloatRef input);
  isNaN := fun x => match x with XNaN => true | _ => false end;
  add := addX;
  sub := subX;
  mul := mulX;
  div := divX;
  Math_PI := fin pi;
  Math_sin := fun x =>
    match x with XVal a => fin (truncate (sinQ a)) | _ => XNaN end;
  Math_cos := fun x =>
    match x with XVal a => fin (truncate (cosQ a)) | _ => XNaN end;
  Math_sqrt := fun x =>
    match x with
    | XNaN => XNaN
    | XInfinity negative => if negative then XNaN else XInfinity false
    | XVal a =>
        if isNegative a then XNaN
        else if isZero a then fin 0 else fin (sqrtQ a)
    end;
  Math_abs := fun x =>
    match x with
    | XNaN => XNaN
    | XInfinity _ => XInfinity false
    | XVal a => fin (Qabs a)
    end;
  Math_atan2 := atan2X;
|}.

End Exact.

(** * Properties *)

Import JsString Dom Kml Kmz Spec.

(** ** Strings *)

Lemma length2_inv (s : string) :
  String.length s = 2 -> exists a b, s = String a (String b EmptyString).
Proof.
  destruct s as [|a [|b [|c s]]]; simpl; try discriminate.
  intros _. now exists a, b.
Qed.

Lemma trimStart_whitespaceOnly (s : string) :
  whitespaceOnly s = true -> trimStart s = EmptyString.
Proof.
  unfold whitespaceOnly.
  induction s as [|c s IH]; simpl; [reflexivity|].
  intros H. apply andb_true_iff in H as [Hc Hs]. rewrite Hc. auto.
Qed.

Lemma startsWith_length (p s : string) :
  startsWith p s = true -> String.length p <= String.length s.
Proof.
  revert s. induction p as [|a p IH]; intros [|b s]; simpl; try lia; try easy.
  intros H. apply andb_true_iff in H as [_ H]. apply IH in H. lia.
Qed.

Lemma drop_length (n : nat) (s : string) :
  String.length (drop n s) = String.length s - n.
Proof.
  revert s. induction n as [|n IH]; intros [|c s]; simpl; auto.
Qed.

(** What [cut] finds is a piece of the text. *)
Lemma cut_length (p s b a : string) :
  cut p s = Some (b, a) ->
  String.length s = String.length b + String.length p + String.length a.
Proof.
  revert b. induction s as [|c s IH]; intros b.
  - simpl. destruct (startsWith p EmptyString) eqn:E; [|discriminate].
    intros [= <- <-]. apply startsWith_length in E. rewrite drop_length.
    simpl in *. lia.
  - simpl. destruct (startsWith p (String c s)) eqn:E.
    + intros [= <- <-]. apply startsWith_length in E. rewrite drop_length.
      simpl in *. lia.
    + destruct (cut p s) as [[b' a']|] eqn:Ec; [|discriminate].
      intros [= <- <-]. simpl. rewrite (IH b' eq_refl). lia.
Qed.

(** ** The color codec *)

(** C6: the color codec maps an 8-character string "aabbggrr" to "#rrggbb"
    (the alpha pair is dropped, the channels are reordered), so "ff0000ff"
    gives "#ff0000" and "801400aa" gives "#aa0014"; an absent input and an
    input whose length is not 8 give the default color "#3700ff". *)
Theorem kmlColorToHex_spec :
  (forall alpha blue green red : string,
      String.length alpha = 2 -> String.length blue = 2 ->
      String.length green = 2 -> String.length red = 2 ->
      kmlColorToHex (Some (alpha ++ blue ++ green ++ red))
      = "#" ++ red ++ green ++ blue)
  /\ kmlColorToHex (Some "ff0000ff") = "#ff0000"
  /\ kmlColorToHex (Some "801400aa") = "#aa0014"
  /\ kmlColorToHex None = "#3700ff"
  /\ (forall s : string,
         String.length s <> 8 -> kmlColorToHex (Some s) = "#3700ff").
Proof.
  repeat split.
  - intros alpha blue green red Ha Hb Hg Hr.
    destruct (length2_inv _ Ha) as (a1 & a2 & ->).
    destruct (length2_inv _ Hb) as (b1 & b2 & ->).
    destruct (length2_inv _ Hg) as (g1 & g2 & ->).
    destruct (length2_inv _ Hr) as (r1 & r2 & ->).
    reflexivity.
  - intros s Hs. unfold kmlColorToHex.
    destruct (Nat.eqb_spec (String.length s) 8) as [E|E]; [contradiction|].
    now rewrite orb_true_r.
Qed.

(** The codec on the pairs 80, 14, 00, aa and on a string of three
    characters. *)
Lemma kmlColorToHex_spec_witness :
  kmlColorToHex (Some ("80" ++ "14" ++ "00" ++ "aa")) = "#" ++ "aa" ++ "00" ++ "14"
  /\ kmlColorToHex (Some "fff") = "#3700ff".
Proof.
  destruct kmlColorToHex_spec as (Hswap & _ & _ & _ & Hdefault).
  split.
  - apply Hswap; reflexivity.
  - apply Hdefault. simpl. lia.
Defined.

(** ** The coordinate tokenizer *)

Section Tokenizer.
Context {Num : JsNumber} {B : Browser}.

Lemma coordStrings_blank (s : string) :
  whitespaceOnly s = true -> coordStrings s = [].
Proof.
  intros H. unfold coordStrings, trim.
  now rewrite (trimStart_whitespaceOnly s H).
Qed.

(** A triple is the degraded one, or its longitude and latitude are
    numbers. *)
Lemma parseTuple_cases (token : string) :
  parseTuple token = zeroTriple
  \/ (isNaN (lng (parseTuple token)) = false
      /\ isNaN (lat (parseTuple token)) = false).
Proof.
  unfold parseTuple.
  destruct (isNaN (parseFloat (part 0 (splitChar "," token)))) eqn:E0;
    destruct (isNaN (parseFloat (part 1 (splitChar "," token)))) eqn:E1;
    simpl; auto.
Qed.

(** One triple for each token. *)
Lemma parseCoordinates_length (text : string) :
  length (parseCoordinates (Some text)) = length (coordStrings text).
Proof.
  unfold parseCoordinates. destruct text as [|c text]; [reflexivity|].
  simpl truthy. cbv iota. apply length_map.
Qed.

Lemma parseCoordinates_nonempty (text : string) :
  coordStrings text <> [] -> parseCoordinates (Some text) <> [].
Proof.
  intros H E. apply H. apply length_zero_iff_nil.
  rewrite <- parseCoordinates_length, E. reflexivity.
Qed.

Lemma push_length (elements : list (KmlElement number)) mk :
  length (push elements mk) = S (length elements).
Proof. unfold push. rewrite length_app. simpl. lia. Qed.

(** C5: coordinate tokenization is total. [parseCoordinates] is a function
    on every input, absent or present, with no outcome other than a
    sequence of triples: an absent, an empty and a white-space-only input
    give the empty sequence, and on any other input every token gives a
    triple that is either the degraded (0,0,0) or has a longitude and a
    latitude that are numbers. *)
Theorem parseCoordinates_total :
  parseCoordinates None = []
  /\ parseCoordinates (Some EmptyString) = []
  /\ (forall s : string,
         whitespaceOnly s = true -> parseCoordinates (Some s) = [])
  /\ (forall s : option string,
         List.Forall
           (fun c => c = zeroTriple
                     \/ (isNaN (lng c) = false /\ isNaN (lat c) = false))
           (parseCoordinates s)).
Proof.
  split; [reflexivity|]. split; [reflexivity|]. split.
  - intros s H. unfold parseCoordinates.
    rewrite (coordStrings_blank s H). now destruct (truthy s).
  - intros [s|]; [|constructor]. unfold parseCoordinates.
    destruct (truthy s); [|constructor].
    apply List.Forall_forall. intros c Hc.
    apply List.in_map_iff in Hc as (token & <- & _).
    apply parseTuple_cases.
Qed.

Lemma coordStrings_truthy (text : string) :
  coordStrings text <> [] -> truthy text = true.
Proof. destruct text; [intros H; now elim H | reflexivity]. Qed.

(** Inner rings are appended: they never displace ring 0. *)
Lemma innerRings_keep_head (inner : list Located)
      (ring0 : list (Coordinate number)) :
  forall rings,
  exists rest,
    fold_left
      (fun (rings : list (list (Coordinate number))) (innerBoundary : Located) =>
         match parseCoordinates (Some (textContent (node innerBoundary))) with
         | [] => rings
         | innerCoords => (rings ++ [innerCoords])%list
         end)
      inner (ring0 :: rings)
    = ring0 :: rest.
Proof.
  induction inner as [|x inner IH]; intros rings; cbn [fold_left]; [eauto|].
  destruct (parseCoordinates (Some (textContent (node x)))) as [|c cs];
    [apply IH | apply (IH (rings ++ [c :: cs])%list)].
Qed.

(** When the outer boundary has coordinates, they are ring 0. *)
Lemma polygonRings_outer (polygon : Located) (text : string) :
  queryText ["outerBoundaryIs"; "LinearRing"; "coordinates"] polygon
  = Some text ->
  coordStrings text <> [] ->
  exists rest, polygonRings polygon = parseCoordinates (Some text) :: rest.
Proof.
  intros Htext Hne. unfold polygonRings. rewrite Htext.
  unfold nonEmpty. rewrite (coordStrings_truthy text Hne).
  destruct (parseCoordinates (Some text)) as [|c cs] eqn:E.
  - now apply parseCoordinates_nonempty in Hne.
  - apply innerRings_keep_head.
Qed.

(** An inner ring with coordinates is kept, whatever came before it. *)
Lemma innerRings_nonempty (inner : list Located) :
  forall rings : list (list (Coordinate number)),
    rings <> []
    \/ (exists hole, In hole inner
                     /\ coordStrings (textContent (node hole)) <> []) ->
    fold_left
      (fun (rings : list (list (Coordinate number))) (innerBoundary : Located) =>
         match parseCoordinates (Some (textContent (node innerBoundary))) with
         | [] => rings
         | innerCoords => (rings ++ [innerCoords])%list
         end)
      inner rings
    <> [].
Proof.
  induction inner as [|x inner IH]; intros rings H; cbn [fold_left].
  - destruct H as [H | (hole & [] & _)]. exact H.
  - apply IH.
    destruct (parseCoordinates (Some (textContent (node x)))) as [|c cs] eqn:E.
    + destruct H as [H | (hole & [-> | Hin] & Hne)]; [now left | | right; eauto].
      now apply parseCoordinates_nonempty in Hne.
    + left. now destruct rings.
Qed.

(** A Polygon placemark with an inner boundary that has coordinates is
    emitted, whether or not its outer boundary has any. *)
Lemma polygon_with_hole_is_emitted styles elements placemark polygon hole :
  querySelector ["Point"] placemark = None ->
  querySelector ["LineString"] placemark = None ->
  querySelector ["Polygon"] placemark = Some polygon ->
  In hole (querySelectorAll ["innerBoundaryIs"; "LinearRing"; "coordinates"]
                            polygon) ->
  coordStrings (textContent (node hole)) <> [] ->
  length (placemarkStep styles elements placemark) = S (length elements).
Proof.
  intros Hp Hl Hpoly Hin Hne. unfold placemarkStep. rewrite Hp, Hl, Hpoly.
  destruct (polygonRings polygon) as [|ring0 rings] eqn:E.
  - exfalso. revert E. unfold polygonRings. apply innerRings_nonempty.
    right. eauto.
  - apply push_length.
Qed.


End Tokenizer.

(** ** Polygon area *)

Ltac split_matches :=
  repeat match goal with
    | |- context [match ?x with _ => _ end] => destruct x eqn:?
    end.

Section Area.
Context {Num : JsNumber} {B : Browser}.

Lemma push_Forall (P : KmlElement number -> Prop) elements mk :
  List.Forall P elements -> (forall id, P (mk id)) ->
  List.Forall P (push elements mk).
Proof.
  intros He Hmk. unfold push. apply List.Forall_app. split; [assumption|].
  constructor; [apply Hmk | constructor].
Qed.

Lemma fold_left_Forall {A} (P : KmlElement number -> Prop)
      (f : list (KmlElement number) -> A -> list (KmlElement number)) :
  (forall acc x, List.Forall P acc -> List.Forall P (f acc x)) ->
  forall l acc, List.Forall P acc -> List.Forall P (fold_left f l acc).
Proof.
  intros Hf l. induction l as [|x l IH]; simpl; intros acc Hacc; auto.
Qed.

Lemma placemarkStep_area styles elements placemark :
  List.Forall areaFromRing0 elements ->
  List.Forall areaFromRing0 (placemarkStep styles elements placemark).
Proof.
  intros He. unfold placemarkStep. split_matches; try assumption;
    apply push_Forall; try assumption; intros id a Ha; simpl in Ha;
    try discriminate.
  injection Ha as <-. split; [reflexivity|]. simpl. eauto.
Qed.

Lemma parsePlacemarks_area xmlDoc styles :
  List.Forall areaFromRing0 (parsePlacemarks xmlDoc styles).
Proof.
  unfold parsePlacemarks. apply fold_left_Forall; [|constructor].
  intros acc x. apply placemarkStep_area.
Qed.

Lemma salvageStep_area elements placemarkContent :
  List.Forall areaFromRing0 elements ->
  List.Forall areaFromRing0 (salvageStep elements placemarkContent).
Proof.
  intros He. unfold salvageStep. split_matches; try assumption;
    apply push_Forall; try assumption; intros id a Ha; simpl in Ha;
    discriminate.
Qed.

Lemma salvageLoop_area fuel :
  forall kmlString elements,
    List.Forall areaFromRing0 elements ->
    List.Forall areaFromRing0 (salvageLoop fuel kmlString elements).
Proof.
  induction fuel as [|fuel IH]; simpl; intros s elements He; [assumption|].
  destruct (execBlock "Placemark" s) as [[c rest]|]; [|assumption].
  apply IH. now apply salvageStep_area.
Qed.

End Area.


(** ** Style resolution *)

Section Styles.
Context {Num : JsNumber} {B : Browser}.





End Styles.

(** ** The archive *)

Lemma filesAt_In (files : ZipFiles) :
  List.NoDup (keys files) ->
  forall k o, In (k, o) files -> filesAt files k = Some o.
Proof.
  induction files as [|[k0 o0] files IH]; simpl; intros Hnd k o Hin; [easy|].
  apply List.NoDup_cons_iff in Hnd as [Hnotin Hnd].
  destruct Hin as [[= -> ->] | Hin].
  - now rewrite String.eqb_refl.
  - destruct (String.eqb_spec k0 k) as [-> | _]; [|now apply IH].
    exfalso. apply Hnotin. unfold keys.
    apply List.in_map_iff. now exists (k, o).
Qed.

(** The first name that the source's filter keeps is the name of the first
    entry that is a KML file, when every entry of [l] is found under its
    name. *)
Lemma firstKml_find (files l : ZipFiles) :
  (forall k o, In (k, o) l -> filesAt files k = Some o) ->
  match List.filter (isKmlEntry files) (keys l) with
  | [] =>
      List.find (fun entry => (endsWith ".kml" (toLowerCase (fst entry))
                               && negb (dir (snd entry)))%bool) l = None
  | first :: _ =>
      exists o,
        List.find (fun entry => (endsWith ".kml" (toLowerCase (fst entry))
                                 && negb (dir (snd entry)))%bool) l
        = Some (first, o)
        /\ file files first = Some o
  end.
Proof.
  induction l as [|[k o] l IH]; simpl; intros H; [reflexivity|].
  assert (Hk : filesAt files k = Some o) by (apply H; now left).
  unfold isKmlEntry at 1, notDir. rewrite Hk.
  destruct (endsWith ".kml" (toLowerCase k) && negb (dir o))%bool eqn:E.
  - exists o. split; [reflexivity|]. unfold file. rewrite Hk.
    apply andb_true_iff in E as [_ E]. now destruct (dir o).
  - apply IH. intros k' o' Hin. apply H. now right.
Qed.

Section Archive.
Context {Num : JsNumber} {B : Browser} {J : JSZip}.

(** C10: [parseKmz] throws "Not a KMZ file" for every file whose name does
    not end, whatever the case, in ".kmz", whatever the archive reader
    would make of its content; for a name that does, and an archive that
    loads (its entry names are the keys of an object, so distinct), the
    entry that is extracted and parsed is [doc.kml], else the first entry
    that is not a directory and ends, whatever the case, in ".kml", and
    "No KML file found in the KMZ archive" is thrown when there is none. *)
Theorem parseKmz_lookup :
  (forall f : File,
      endsWith ".kmz" (toLowerCase (fileName f)) = false ->
      parseKmz (Some f) = Thrown "Not a KMZ file")
  /\ (forall (f : File) (files : ZipFiles),
         endsWith ".kmz" (toLowerCase (fileName f)) = true ->
         loadAsync f = Some files ->
         List.NoDup (keys files) ->
         parseKmz (Some f)
         = match kmlEntry files with
           | Some kmlFile => extractAndParse kmlFile
           | None => Thrown "No KML file found in the KMZ archive"
           end).
Proof.
  split.
  - intros f H. unfold parseKmz. now rewrite H.
  - intros f files Hname Hload Hnd. unfold parseKmz, kmlEntry.
    rewrite Hname, Hload. simpl negb. cbv iota.
    destruct (file files "doc.kml"); [reflexivity|].
    pose proof (firstKml_find files files (filesAt_In files Hnd)) as H.
    destruct (List.filter (isKmlEntry files) (keys files)) as [|first rest].
    + now rewrite H.
    + destruct H as (o & -> & ->). reflexivity.
Qed.

End Archive.

(** ** The entry point and the fallback parser *)

Section Salvage.
Context {Num : JsNumber} {B : Browser}.

Lemma execBlock_shorter (tag s c rest : string) :
  execBlock tag s = Some (c, rest) -> String.length rest < String.length s.
Proof.
  unfold execBlock.
  destruct (cut ("<" ++ tag) s) as [[b1 a1]|] eqn:E1; [|discriminate].
  destruct (cut ">" a1) as [[b2 a2]|] eqn:E2; [|discriminate].
  intros E3. apply cut_length in E1, E2, E3. simpl in *. lia.
Qed.

Lemma salvageLoop_fuel_irrelevant (fuel1 : nat) :
  forall fuel2 kmlString elements,
    String.length kmlString <= fuel1 -> String.length kmlString <= fuel2 ->
    salvageLoop fuel1 kmlString elements = salvageLoop fuel2 kmlString elements.
Proof.
  induction fuel1 as [|fuel1 IH]; intros fuel2 s elements H1 H2.
  - destruct s; [|simpl in H1; lia]. now destruct fuel2.
  - destruct fuel2 as [|fuel2].
    + destruct s; [|simpl in H2; lia]. reflexivity.
    + simpl. destruct (execBlock "Placemark" s) as [[c rest]|] eqn:E;
        [|reflexivity].
      apply execBlock_shorter in E. apply IH; lia.
Qed.

(** The loop of the fallback parser has run to its end: more rounds
    change nothing. *)
Lemma salvageLoop_fuel (fuel : nat) (kmlString : string) elements :
  String.length kmlString <= fuel ->
  salvageLoop fuel kmlString elements
  = salvageLoop (String.length kmlString) kmlString elements.
Proof. intros H. now apply salvageLoop_fuel_irrelevant. Qed.

(** The fallback parser reads no document name. *)
Lemma fallbackParse_name (kmlString : string) :
  kmlName (fallbackParse kmlString) = None.
Proof. reflexivity. Qed.

(** C1, amended: for every non-empty text on which the XML parse reports
    a structural error (the parsed document holds a [parsererror]
    element), [parseKml] returns what the fallback parser makes of the
    text; when the parse reports none, [parseKml] returns the document
    with the elements that [parsePlacemarks] extracts, also when there
    are none. *)
Theorem parseKml_fallback_on_parsererror (kmlString : string) :
  truthy kmlString = true ->
  let xmlDoc := parseFromString (preprocessKml kmlString) in
  (docQuerySelector ["parsererror"] xmlDoc <> None ->
   parseKml kmlString = Returned (fallbackParse kmlString))
  /\ (docQuerySelector ["parsererror"] xmlDoc = None ->
      exists name description,
        parseKml kmlString
        = Returned {| kmlName := name; kmlDescription := description;
                      elements := parsePlacemarks xmlDoc (parseStyles xmlDoc) |}).
Proof.
  intros Hs xmlDoc. unfold parseKml. rewrite Hs. simpl negb. cbv iota.
  fold xmlDoc. split; intros H.
  - destruct (docQuerySelector ["parsererror"] xmlDoc); [reflexivity | easy].
  - rewrite H. eauto.
Qed.

End Salvage.

(** * The distance *)

Section Haversine.
Context {Num : JsNumber}.
Import Ecma.

Lemma haversine_neg (d : number) :
  Ieee754 -> MathLibrary ->
  Math_sin (div (div (mul (neg d) Math_PI) (num 180)) (num 2))
  = neg (Math_sin (div (div (mul d Math_PI) (num 180)) (num 2))).
Proof.
  intros I M.
  now rewrite (mul_neg_l I), !(div_neg_l I), (sin_odd M).
Qed.

Lemma mul_neg_r (x y : number) :
  Ieee754 -> mul x (neg y) = neg (mul x y).
Proof.
  intros I. now rewrite (mul_comm I), (mul_neg_l I), (mul_comm I).
Qed.

(** C7: on a host whose arithmetic is IEEE 754 and whose [Math] library
    has an odd sine and a cosine that is finite on finite Numbers,
    [calculateDistance] gives the same Number for (a, b) and for (b, a),
    whatever the coordinates; the distance from a point to itself is 0
    when its latitude, its longitude and its latitude in radians are
    finite; and it is NaN, so not 0, when its latitude or its longitude
    is an infinity or NaN. *)
Theorem calculateDistance_symmetric_zero_when_finite :
  Ieee754 -> MathLibrary -> NaNPropagation ->
  (forall lat1 lon1 lat2 lon2 : number,
      calculateDistance lat1 lon1 lat2 lon2
      = calculateDistance lat2 lon2 lat1 lon1)
  /\ (forall lat lon : number,
         finite lat -> finite lon -> finite (radians lat) ->
         calculateDistance lat lon lat lon = num 0)
  /\ (forall lat lon : number,
         isNaN (sub lat lat) = true \/ isNaN (sub lon lon) = true ->
         isNaN (calculateDistance lat lon lat lon) = true
         /\ calculateDistance lat lon lat lon <> num 0).
Proof.
  intros I M N. split; [|split].
  - intros lat1 lon1 lat2 lon2. unfold calculateDistance. cbv zeta.
    assert (Hsq : forall a b : number,
               mul (Math_sin (div (div (mul (sub a b) Math_PI) (num 180)) (num 2)))
                   (Math_sin (div (div (mul (sub a b) Math_PI) (num 180)) (num 2)))
               = mul (Math_sin (div (div (mul (sub b a) Math_PI) (num 180)) (num 2)))
                     (Math_sin (div (div (mul (sub b a) Math_PI) (num 180)) (num 2)))).
    { intros a b. destruct (sub_swap I b a) as [-> | ->]; [|reflexivity].
      now rewrite (haversine_neg _ I M), (mul_neg_neg I). }
    assert (Hk : forall (k : number) a b,
               mul (mul k (Math_sin (div (div (mul (sub a b) Math_PI) (num 180)) (num 2))))
                   (Math_sin (div (div (mul (sub a b) Math_PI) (num 180)) (num 2)))
               = mul (mul k (Math_sin (div (div (mul (sub b a) Math_PI) (num 180)) (num 2))))
                     (Math_sin (div (div (mul (sub b a) Math_PI) (num 180)) (num 2)))).
    { intros k a b. destruct (sub_swap I b a) as [-> | ->]; [|reflexivity].
      now rewrite (haversine_neg _ I M), (mul_neg_r k _ I), (mul_neg_neg I). }
    rewrite (Hsq lat2 lat1), (Hk _ lon2 lon1).
    now rewrite (mul_comm I (Math_cos (div (mul lat1 Math_PI) (num 180)))).
  - intros lat lon Hlat Hlon Hrad. unfold calculateDistance. cbv zeta.
    rewrite (sub_self I lat Hlat), (sub_self I lon Hlon).
    rewrite (zero_times_pi I), (zero_over_180 I), (zero_over_2 I), (sin_zero M).
    rewrite (zero_times_zero I).
    assert (Hcos : mul (mul (mul (Math_cos (div (mul lat Math_PI) (num 180)))
                                 (Math_cos (div (mul lat Math_PI) (num 180))))
                            (num 0)) (num 0) = num 0).
    { pose proof (cos_finite M _ Hrad) as Hc. unfold radians in Hc.
      rewrite Hc. apply (zero_times_zero I). }
    rewrite Hcos, (zero_plus_zero I), (sqrt_zero M), (one_minus_zero I),
      (sqrt_one M), (atan2_zero_one M), (two_times_zero I).
    apply (radius_times_zero I).
  - intros lat lon H.
    assert (HNaN : isNaN (calculateDistance lat lon lat lon) = true).
    { unfold calculateDistance. cbv zeta.
      apply (mul_NaN_r N), (mul_NaN_r N), (atan2_NaN_l N), (sqrt_NaN N).
      destruct H as [H | H].
      - apply (add_NaN_l N), (mul_NaN_l N), (sin_NaN N), (div_NaN_l N),
          (div_NaN_l N), (mul_NaN_l N), H.
      - apply (add_NaN_r N), (mul_NaN_r N), (sin_NaN N), (div_NaN_l N),
          (div_NaN_l N), (mul_NaN_l N), H. }
    split; [exact HNaN|]. intros Heq. rewrite Heq in HNaN.
    now rewrite (zero_is_a_number I) in HNaN.
Qed.

End Haversine.

(** ** The laws on the host that computes *)
Section ExactLaws.
Import Ecma Exact.
#[local] Existing Instance exactNumber.
#[local] Open Scope Q_scope.

Lemma fin_eq (a b : Q) : a == b -> fin a = fin b.
Proof. intros H. unfold fin. f_equal. now apply Qred_complete. Qed.

Lemma isZero_comp (a b : Q) : a == b -> isZero a = isZero b.
Proof.
  intros H. unfold isZero.
  destruct (Qeq_bool a 0) eqn:Ea, (Qeq_bool b 0) eqn:Eb; try reflexivity.
  - apply Qeq_bool_iff in Ea. apply Qeq_bool_neq in Eb.
    elim Eb. now rewrite <- H.
  - apply Qeq_bool_iff in Eb. apply Qeq_bool_neq in Ea.
    elim Ea. now rewrite H.
Qed.

Lemma isNegative_comp (a b : Q) : a == b -> isNegative a = isNegative b.
Proof.
  intros H. unfold isNegative. f_equal.
  destruct (Qle_bool 0 a) eqn:Ea, (Qle_bool 0 b) eqn:Eb; try reflexivity.
  - apply Qle_bool_iff in Ea. rewrite H in Ea. apply Qle_bool_iff in Ea.
    congruence.
  - apply Qle_bool_iff in Eb. rewrite <- H in Eb. apply Qle_bool_iff in Eb.
    congruence.
Qed.

Lemma isZero_opp (a : Q) : isZero (- a) = isZero a.
Proof.
  unfold isZero.
  destruct (Qeq_bool (- a) 0) eqn:Ea, (Qeq_bool a 0) eqn:Eb; try reflexivity.
  - apply Qeq_bool_iff in Ea. apply Qeq_bool_neq in Eb. elim Eb. lra.
  - apply Qeq_bool_iff in Eb. apply Qeq_bool_neq in Ea. elim Ea. lra.
Qed.

Lemma isNegative_opp (a : Q) :
  isZero a = false -> isNegative (- a) = negb (isNegative a).
Proof.
  unfold isZero, isNegative. intros Hz. apply Qeq_bool_neq in Hz.
  destruct (Qle_bool 0 (- a)) eqn:Ea, (Qle_bool 0 a) eqn:Eb; try reflexivity.
  - apply Qle_bool_iff in Ea. apply Qle_bool_iff in Eb. elim Hz. lra.
  - assert (~ 0 <= - a) by (intros H; apply Qle_bool_iff in H; congruence).
    assert (~ 0 <= a) by (intros H'; apply Qle_bool_iff in H'; congruence).
    lra.
Qed.

Lemma neg_XVal (a : Q) : neg (XVal a) = fin (- a).
Proof.
  unfold neg. cbn. apply fin_eq. rewrite Qred_correct. lra.
Qed.

Lemma neg_XInfinity (s : bool) : neg (XInfinity s) = XInfinity (negb s).
Proof. unfold neg. cbn. now destruct s. Qed.

Lemma neg_XNaN : neg XNaN = XNaN.
Proof. reflexivity. Qed.


Lemma isZero_Qred (q : Q) : isZero (Qred q) = isZero q.
Proof. apply isZero_comp, Qred_correct. Qed.

Lemma isNegative_Qred (q : Q) : isNegative (Qred q) = isNegative q.
Proof. apply isNegative_comp, Qred_correct. Qed.

Lemma neg_fin (q : Q) : neg (fin q) = fin (- q).
Proof.
  unfold fin at 1. rewrite neg_XVal. apply fin_eq.
  now rewrite Qred_correct.
Qed.

Lemma truncate_comp (a b : Q) : a == b -> truncate a = truncate b.
Proof. intros H. unfold truncate. now rewrite (Qred_complete a b H). Qed.

Lemma truncate_opp (a : Q) : truncate (- a) = - truncate a.
Proof.
  unfold truncate. rewrite Qred_opp. cbv zeta.
  destruct (Qred a) as [n d]. cbn [Qnum Qden Qopp].
  now rewrite Z.mul_opp_l, Z.quot_opp_l by discriminate.
Qed.

Lemma xorb_negb_r (s t : bool) : xorb s (negb t) = negb (xorb s t).
Proof. now destruct s, t. Qed.

Lemma xorb_negb_l (s t : bool) : xorb (negb s) t = negb (xorb s t).
Proof. now destruct s, t. Qed.

#[local] Arguments neg : simpl never.
#[local] Arguments fin : simpl never.

Ltac signs :=
  repeat first
    [ rewrite neg_fin | rewrite neg_XVal | rewrite neg_XInfinity
    | rewrite neg_XNaN | rewrite isZero_Qred | rewrite isNegative_Qred
    | rewrite isZero_opp ].

Ltac same_value :=
  apply fin_eq; rewrite ?Qred_correct; try reflexivity; try ring.

Lemma exact_Ieee754 : Ieee754.
Proof.
  constructor.
  - intros [|s|a] [|t|b]; cbn; signs; try (now right).
    + destruct s, t; cbn; signs; auto.
    + now left.
    + left. now rewrite negb_involutive.
    + left. same_value.
  - intros [|s|a] [|t|b]; cbn; try reflexivity.
    + now rewrite xorb_comm.
    + same_value.
  - intros [|s|a] [|t|b]; signs; cbn; signs; try reflexivity.
    + now rewrite xorb_negb_l.
    + destruct (isZero b); signs; [reflexivity | now rewrite xorb_negb_l].
    + unfold fin at 1. cbn. signs.
      destruct (isZero a) eqn:Ha; signs; [reflexivity|].
      now rewrite (isNegative_opp a Ha), xorb_negb_r.
    + unfold fin at 1. cbn. signs. same_value.
  - intros [|s|a] [|t|b]; signs; cbn; signs; try reflexivity.
    + now destruct s, t.
    + unfold fin at 1. cbn. signs.
      destruct (isZero b) eqn:Hb; [reflexivity|].
      now rewrite (isNegative_opp b Hb), xorb_negb_l, xorb_negb_r,
        negb_involutive.
    + unfold fin at 1. cbn. signs.
      destruct (isZero a) eqn:Ha; [reflexivity|].
      now rewrite (isNegative_opp a Ha), xorb_negb_l, xorb_negb_r,
        negb_involutive.
    + unfold fin at 1 2. cbn. same_value.
  - intros [|s|a] [|t|b]; signs; cbn; signs; try reflexivity.
    + now rewrite xorb_negb_l.
    + unfold fin at 1. cbn. signs.
      destruct (isZero b) eqn:Hb.
      * destruct (isZero a) eqn:Ha; signs; [reflexivity|].
        now rewrite (isNegative_opp a Ha).
      * signs. same_value. field. intros H.
        unfold isZero in Hb. apply Qeq_bool_neq in Hb. now apply Hb.
  - intros [|s|a]; unfold finite; cbn.
    + discriminate.
    + rewrite eqb_reflx. discriminate.
    + intros _. same_value.
  - reflexivity.
  - reflexivity.
  - reflexivity.
  - reflexivity.
  - reflexivity.
  - reflexivity.
  - reflexivity.
  - reflexivity.
  - reflexivity.
Qed.

Lemma exact_MathLibrary : MathLibrary.
Proof.
  constructor.
  - reflexivity.
  - reflexivity.
  - reflexivity.
  - intros [|s|a]; signs; try reflexivity.
    unfold fin at 1. cbn. signs.
    rewrite <- truncate_opp. f_equal. apply truncate_comp. unfold sinQ.
    rewrite Qred_correct. field.
  - intros [|s|a]; unfold finite; cbn.
    + discriminate.
    + rewrite eqb_reflx. discriminate.
    + intros _. unfold fin at 1 2 3. cbn. unfold fin at 1. cbn.
      apply fin_eq. rewrite !Qred_correct. ring.
  - reflexivity.
Qed.

Lemma exact_NaNPropagation : NaNPropagation.
Proof.
  constructor.
  - intros [| |] [| |]; cbn; try discriminate; reflexivity.
  - intros [| |] [| |]; cbn; try discriminate; reflexivity.
  - intros [| |] [| |]; cbn; try discriminate; reflexivity.
  - intros [| |] [| |]; cbn; try discriminate; reflexivity.
  - intros [| |] [| |]; cbn; try discriminate; reflexivity.
  - intros [| |]; cbn; try discriminate; reflexivity.
  - intros [| |]; cbn; try discriminate; reflexivity.
  - intros [| |] [| |]; cbn; try discriminate; reflexivity.
Qed.

End ExactLaws.

(** * Further properties of the parser *)

Import Emitted.

(** ** The document tree *)

(** Induction on a tree, with the property for every child. *)
Lemma Node_ind_nested (P : Node -> Prop) :
  (forall d, P (TextNode d)) ->
  (forall name attrs cs, List.Forall P cs -> P (Elem name attrs cs)) ->
  forall n, P n.
Proof.
  intros Htext Helem. fix IH 1. intros [name attrs cs | d].
  - apply Helem. induction cs as [|c cs IHcs]; constructor.
    + apply IH.
    + exact IHcs.
  - apply Htext.
Qed.

(** The descendants of an element of a subtree are in the subtree. *)
Lemma inclusiveDescendants_closed (n : Node) :
  forall anc d,
    In d (inclusiveDescendants anc n) ->
    forall x, In x (descendants d) -> In x (inclusiveDescendants anc n).
Proof.
  induction n as [text | name attrs cs IH] using Node_ind_nested;
    intros anc d Hd x Hx; [destruct Hd|].
  cbn [inclusiveDescendants] in *. destruct Hd as [<- | Hd].
  - right. exact Hx.
  - right. apply List.in_flat_map in Hd as (c & Hc & Hd).
    apply List.in_flat_map. exists c. split; [exact Hc|].
    rewrite List.Forall_forall in IH. exact (IH c Hc _ d Hd x Hx).
Qed.

Lemma descendants_closed (e d x : Located) :
  In d (descendants e) -> In x (descendants d) -> In x (descendants e).
Proof.
  unfold descendants at 1 3. destruct (node e) as [name attrs cs | text];
    [|intros []].
  intros Hd Hx. apply List.in_flat_map in Hd as (c & Hc & Hd).
  apply List.in_flat_map. exists c. split; [exact Hc|].
  exact (inclusiveDescendants_closed c _ d Hd x Hx).
Qed.

Lemma head_filter_None {A} (f : A -> bool) (l : list A) :
  List.head (List.filter f l) = None <-> forall x, In x l -> f x = false.
Proof.
  induction l as [|a l IH]; simpl; [easy|].
  destruct (f a) eqn:E; simpl.
  - split; [discriminate|]. intros H. specialize (H a (or_introl eq_refl)).
    congruence.
  - rewrite IH. split.
    + intros H x [<- | Hx]; auto.
    + intros H x Hx. apply H. now right.
Qed.

Lemma head_filter_Some {A} (f : A -> bool) (l : list A) (x : A) :
  List.head (List.filter f l) = Some x -> In x l /\ f x = true.
Proof.
  intros H. assert (Hin : In x (List.filter f l)).
  { destruct (List.filter f l); [discriminate|]. injection H as ->. now left. }
  now apply List.filter_In in Hin.
Qed.

(** What a selector finds beneath an element is beneath the element. *)
Lemma querySelector_In (sel : Selector) (e d : Located) :
  querySelector sel e = Some d -> In d (descendants e).
Proof. intros H. now apply head_filter_Some in H. Qed.

(** What a selector does not find beneath an element, it does not find
    beneath a descendant of the element. *)
Lemma querySelector_None_below (sel : Selector) (e d : Located) :
  querySelector sel e = None -> In d (descendants e) ->
  querySelector sel d = None.
Proof.
  unfold querySelector, querySelectorAll. rewrite !head_filter_None.
  intros H Hd x Hx. apply H. exact (descendants_closed e d x Hd Hx).
Qed.

(** ** One placemark, one element at most *)

Section Placemarks.
Context {Num : JsNumber} {B : Browser}.

(** What the callback of [placemarks.forEach] does to [elements]: nothing,
    or one element more, with the next identifier, the placemark's own
    fields and the geometry that comes first. The MultiGeometry branch is
    only reached when no Point, LineString or Polygon is beneath the
    placemark, and then none is beneath the MultiGeometry. *)
Lemma placemarkStep_emits styles elements placemark :
  placemarkStep styles elements placemark = elements
  \/ exists e,
      placemarkStep styles elements placemark = (elements ++ [e])%list
      /\ elementId e = uuidv4 (length elements)
      /\ ownFields styles placemark e
      /\ geometryOf placemark e.
Proof.
  unfold placemarkStep.
  destruct (querySelector ["Point"] placemark) as [point|] eqn:Hpoint.
  { destruct (parseCoordinates (queryText ["coordinates"] point))
      as [|c0 rest] eqn:Hc; [now left | right].
    eexists. split; [reflexivity|]. split; [reflexivity|].
    split; [now repeat split|]. left. exists point, c0, rest. now repeat split. }
  destruct (querySelector ["LineString"] placemark) as [lineString|] eqn:Hline.
  { destruct (parseCoordinates (queryText ["coordinates"] lineString))
      as [|c0 rest] eqn:Hc; [now left | right].
    eexists. split; [reflexivity|]. split; [reflexivity|].
    split; [now repeat split|]. right. left.
    exists lineString, c0, rest. now repeat split. }
  destruct (querySelector ["Polygon"] placemark) as [polygon|] eqn:Hpoly.
  { destruct (polygonRings polygon) as [|ring0 rings] eqn:Hr; [now left | right].
    eexists. split; [reflexivity|]. split; [reflexivity|].
    split; [now repeat split|]. right. right.
    exists polygon, ring0, rings. now repeat split. }
  left.
  destruct (querySelector ["MultiGeometry"] placemark) as [multi|] eqn:Hmulti;
    [|reflexivity].
  apply querySelector_In in Hmulti.
  rewrite (querySelector_None_below _ _ _ Hpoint Hmulti).
  rewrite (querySelector_None_below _ _ _ Hline Hmulti).
  rewrite (querySelector_None_below _ _ _ Hpoly Hmulti).
  reflexivity.
Qed.

(** A loop whose rounds add at most one element, with the next
    identifier: what it adds to [acc]. *)
Lemma fold_emits {A} (step : list (KmlElement number) -> A -> list (KmlElement number))
      (P : A -> KmlElement number -> Prop) :
  (forall acc x,
      step acc x = acc
      \/ exists e, step acc x = (acc ++ [e])%list
                   /\ elementId e = uuidv4 (length acc) /\ P x e) ->
  forall l acc,
  exists new,
    fold_left step l acc = (acc ++ new)%list
    /\ length new <= length l
    /\ List.Forall (fun e => exists x, In x l /\ P x e) new
    /\ (forall i e, nth_error new i = Some e ->
                    elementId e = uuidv4 (length acc + i)).
Proof.
  intros Hstep l. induction l as [|x l IH]; intros acc; cbn [fold_left].
  - exists []. rewrite app_nil_r. repeat split; auto.
    intros [|i] e; discriminate.
  - destruct (Hstep acc x) as [-> | (e0 & -> & Hid & HP)].
    + destruct (IH acc) as (new & -> & Hlen & Hall & Hids).
      exists new. repeat split; auto.
      * simpl. lia.
      * eapply List.Forall_impl; [|exact Hall].
        intros e (y & Hy & HPy). exists y. split; [now right | exact HPy].
    + destruct (IH (acc ++ [e0])%list) as (new & -> & Hlen & Hall & Hids).
      exists (e0 :: new). repeat split.
      * now rewrite <- app_assoc.
      * simpl. lia.
      * constructor.
        -- exists x. split; [now left | exact HP].
        -- eapply List.Forall_impl; [|exact Hall].
           intros e (y & Hy & HPy). exists y. split; [now right | exact HPy].
      * intros [|i] e He; simpl in He.
        -- injection He as <-. now rewrite Nat.add_0_r.
        -- rewrite (Hids i e He), length_app. simpl. f_equal. lia.
Qed.

(** Every element of [parsePlacemarks] comes from a placemark of the
    document. *)
Lemma parsePlacemarks_emits xmlDoc styles :
  length (parsePlacemarks xmlDoc styles)
  <= length (docQuerySelectorAll ["Placemark"] xmlDoc)
  /\ List.Forall
       (fun e => exists placemark,
            In placemark (docQuerySelectorAll ["Placemark"] xmlDoc)
            /\ ownFields styles placemark e /\ geometryOf placemark e)
       (parsePlacemarks xmlDoc styles)
  /\ (forall i e, nth_error (parsePlacemarks xmlDoc styles) i = Some e ->
                  elementId e = uuidv4 i).
Proof.
  unfold parsePlacemarks.
  destruct (fold_emits (placemarkStep styles)
              (fun placemark e => ownFields styles placemark e
                                  /\ geometryOf placemark e)
              (placemarkStep_emits styles)
              (docQuerySelectorAll ["Placemark"] xmlDoc) [])
    as (new & -> & Hlen & Hall & Hids).
  simpl. repeat split; auto.
Qed.

End Placemarks.

(** ** The fallback parser, block by block *)

Section Blocks.
Context {Num : JsNumber} {B : Browser}.

Lemma blockGeometry_type (placemarkContent g : string) (t : KmlElementType) :
  blockGeometry placemarkContent = Some (t, g) ->
  t = Point \/ t = LineString \/ t = Polygon.
Proof.
  unfold blockGeometry.
  destruct (captured (execBlock "Point" placemarkContent));
    [intros [= <- _]; auto|].
  destruct (captured (execBlock "LineString" placemarkContent));
    [intros [= <- _]; auto|].
  destruct (captured (execBlock "Polygon" placemarkContent));
    [intros [= <- _]; auto | discriminate].
Qed.

Lemma salvageStep_emits elements placemarkContent :
  salvageStep elements placemarkContent = elements
  \/ exists e,
      salvageStep elements placemarkContent = (elements ++ [e])%list
      /\ elementId e = uuidv4 (length elements)
      /\ salvaged placemarkContent e.
Proof.
  unfold salvageStep.
  destruct (blockGeometry placemarkContent) as [[t g]|] eqn:Hg; [|now left].
  destruct (captured (execBlock "coordinates" g)) as [coordsMatch|] eqn:Hc;
    [|now left].
  destruct (parseCoordinatesText (trim coordsMatch) t) as [|c0 rest] eqn:Ht;
    [now left | right].
  eexists. split; [reflexivity|]. split; [reflexivity|].
  unfold salvaged. cbn [name description style extendedData metadata type
                        coordinates].
  repeat split. exists g, coordsMatch, c0, rest. now repeat split.
Qed.

(** What the loop of the fallback parser adds to [elements]. *)
Lemma salvageLoop_emits (fuel : nat) :
  forall kmlString elements,
  exists new,
    salvageLoop fuel kmlString elements = (elements ++ new)%list
    /\ List.Forall (fun e => exists content, salvaged content e) new
    /\ (forall i e, nth_error new i = Some e ->
                    elementId e = uuidv4 (length elements + i)).
Proof.
  induction fuel as [|fuel IH]; intros s elements; cbn [salvageLoop].
  - exists []. rewrite app_nil_r. repeat split; auto.
    intros [|i] e; discriminate.
  - destruct (execBlock "Placemark" s) as [[content rest]|].
    2:{ exists []. rewrite app_nil_r. repeat split; auto.
        intros [|i] e; discriminate. }
    destruct (salvageStep_emits elements content) as [-> | (e0 & -> & Hid & He0)].
    + apply IH.
    + destruct (IH rest (elements ++ [e0])%list) as (new & -> & Hall & Hids).
      exists (e0 :: new). repeat split.
      * now rewrite <- app_assoc.
      * constructor; [now exists content | exact Hall].
      * intros [|i] e He; simpl in He.
        -- injection He as <-. now rewrite Nat.add_0_r.
        -- rewrite (Hids i e He), length_app. simpl. f_equal. lia.
Qed.

Lemma fallbackParse_emits (kmlString : string) :
  List.Forall (fun e => exists content, salvaged content e)
              (elements (fallbackParse kmlString))
  /\ (forall i e, nth_error (elements (fallbackParse kmlString)) i = Some e ->
                  elementId e = uuidv4 i).
Proof.
  unfold fallbackParse. cbn [elements].
  destruct (salvageLoop_emits (String.length kmlString) kmlString [])
    as (new & -> & Hall & Hids).
  simpl. split; auto.
Qed.

(** The two ways [parseKml] returns a document. *)
Lemma parseKml_Returned (kmlString : string) (data : KmlData number) :
  parseKml kmlString = Returned data ->
  data = fallbackParse kmlString
  \/ elements data
     = parsePlacemarks (parseFromString (preprocessKml kmlString))
         (parseStyles (parseFromString (preprocessKml kmlString))).
Proof.
  unfold parseKml. destruct (negb (truthy kmlString)); [discriminate|].
  destruct (docQuerySelector ["parsererror"] _); intros [= <-]; auto.
Qed.

End Blocks.

(** ** What every returned document satisfies *)

Section Documents.
Context {Num : JsNumber} {B : Browser}.

Lemma map_by_index {A C} (f : A -> C) (g : nat -> C) (l : list A) :
  forall start,
    (forall i e, nth_error l i = Some e -> f e = g (start + i)) ->
    List.map f l = List.map g (seq start (length l)).
Proof.
  induction l as [|a l IH]; intros start H; [reflexivity|].
  simpl. f_equal.
  - rewrite (H 0 a eq_refl). now rewrite Nat.add_0_r.
  - apply IH. intros i e He. rewrite (H (S i) e He). f_equal. lia.
Qed.

Lemma NoDup_by_index {A C} (f : A -> C) (g : nat -> C) (l : list A) :
  (forall i e, nth_error l i = Some e -> f e = g i) ->
  (forall i j, g i = g j -> i = j) ->
  List.NoDup (List.map f l).
Proof.
  intros H Hinj. rewrite (map_by_index f g l 0 H).
  generalize (length l) as n. generalize 0 as start.
  intros start n. revert start.
  induction n as [|n IH]; intros start; simpl; constructor; [|apply IH].
  intros Hin. apply List.in_map_iff in Hin as (j & Hj & Hin).
  apply Hinj in Hj. apply List.in_seq in Hin. lia.
Qed.

(** X1: in every document that [parseKml] returns, by the structured
    parser or by the fallback parser, the element at position [i] carries
    the identifier of the [i]-th call of [uuidv4]: one identifier is drawn
    for each element, in order. When [uuidv4] never returns the same
    identifier twice, no two elements of the document share their id. *)
Theorem parseKml_identifiers (kmlString : string) (data : KmlData number) :
  parseKml kmlString = Returned data ->
  (forall i e, nth_error (elements data) i = Some e -> elementId e = uuidv4 i)
  /\ ((forall i j, uuidv4 i = uuidv4 j -> i = j) ->
      List.NoDup (List.map elementId (elements data))).
Proof.
  intros H.
  assert (Hids : forall i e, nth_error (elements data) i = Some e ->
                             elementId e = uuidv4 i).
  { destruct (parseKml_Returned kmlString data H) as [-> | ->].
    - apply fallbackParse_emits.
    - apply parsePlacemarks_emits. }
  split; [exact Hids|]. intros Hinj.
  exact (NoDup_by_index elementId uuidv4 (elements data) Hids Hinj).
Qed.

(** A loop whose rounds add at most one element: the elements it adds
    pair off, in order, with some of the items it ran over. *)
Lemma fold_pairs {A} (step : list (KmlElement number) -> A -> list (KmlElement number))
      (P : A -> KmlElement number -> Prop) :
  (forall acc x,
      step acc x = acc \/ exists e, step acc x = (acc ++ [e])%list /\ P x e) ->
  forall l acc,
  exists xs new,
    fold_left step l acc = (acc ++ new)%list
    /\ sublist xs l
    /\ List.Forall2 P xs new.
Proof.
  intros Hstep l. induction l as [|x l IH]; intros acc; cbn [fold_left].
  - exists [], []. rewrite app_nil_r. repeat split; constructor.
  - destruct (Hstep acc x) as [-> | (e0 & -> & HP)].
    + destruct (IH acc) as (xs & new & -> & Hsub & Hall).
      exists xs, new. repeat split; [now constructor | exact Hall].
    + destruct (IH (acc ++ [e0])%list) as (xs & new & -> & Hsub & Hall).
      exists (x :: xs), (e0 :: new). repeat split.
      * now rewrite <- app_assoc.
      * now constructor.
      * now constructor.
Qed.

(** X2: each Placemark element of the document gives at most one element,
    however many geometries it holds: a round of the loop adds nothing
    or one element, and the elements that [parsePlacemarks] returns pair
    off, in document order, with some of the placemarks, each element
    having the fields and the first geometry of its own placemark. *)
Theorem parsePlacemarks_one_per_placemark xmlDoc styles :
  (forall elements placemark,
      exists new,
        placemarkStep styles elements placemark = (elements ++ new)%list
        /\ length new <= 1)
  /\ exists placemarks,
      sublist placemarks (docQuerySelectorAll ["Placemark"] xmlDoc)
      /\ List.Forall2
           (fun placemark e =>
              ownFields styles placemark e /\ geometryOf placemark e)
           placemarks (parsePlacemarks xmlDoc styles).
Proof.
  split.
  - intros elements placemark.
    destruct (placemarkStep_emits styles elements placemark)
      as [-> | (e & -> & _)].
    + exists []. split; [now rewrite app_nil_r | simpl; lia].
    + exists [e]. split; [reflexivity | simpl; lia].
  - unfold parsePlacemarks.
    destruct (fold_pairs (placemarkStep styles)
                (fun placemark e => ownFields styles placemark e
                                    /\ geometryOf placemark e))
      with (l := docQuerySelectorAll ["Placemark"] xmlDoc)
           (acc := @nil (KmlElement number))
      as (placemarks & new & -> & Hsub & Hall).
    + intros acc placemark.
      destruct (placemarkStep_emits styles acc placemark)
        as [-> | (e & -> & _ & Hown & Hgeo)]; [now left | right].
      exists e. split; [reflexivity | split; assumption].
    + exists placemarks. split; assumption.
Qed.

Lemma innerRings_rings (inner : list Located) :
  forall rings : list (list (Coordinate number)),
    List.Forall (fun ring => ring <> []) rings ->
    List.Forall (fun ring => ring <> [])
      (fold_left
         (fun (rings : list (list (Coordinate number)))
              (innerBoundary : Located) =>
            match parseCoordinates (Some (textContent (node innerBoundary))) with
            | [] => rings
            | innerCoords => (rings ++ [innerCoords])%list
            end)
         inner rings).
Proof.
  induction inner as [|x inner IH]; intros rings H; cbn [fold_left];
    [exact H|].
  apply IH.
  destruct (parseCoordinates (Some (textContent (node x)))) eqn:E;
    [exact H|].
  apply List.Forall_app. split; [exact H|].
  constructor; [discriminate | constructor].
Qed.

(** Every ring of a polygon has coordinates. *)
Lemma polygonRings_rings (polygon : Located) :
  List.Forall (fun ring => ring <> []) (polygonRings polygon).
Proof.
  unfold polygonRings. apply innerRings_rings.
  destruct (nonEmpty _) as [text|]; [|constructor].
  destruct (parseCoordinates (Some text)) eqn:E; constructor;
    [discriminate | constructor].
Qed.

Lemma geometryOf_wellShaped placemark (e : KmlElement number) :
  geometryOf placemark e -> wellShaped e.
Proof.
  unfold wellShaped.
  intros [(point & c0 & rest & _ & _ & -> & -> & _)
         |[(lineString & c0 & rest & _ & _ & _ & -> & -> & _)
          |(polygon & ring0 & rings & _ & _ & _ & Hr & -> & -> & _)]].
  - exact I.
  - discriminate.
  - split; [discriminate|]. rewrite <- Hr. apply polygonRings_rings.
Qed.

(** X3: the coordinates of every element that [parsePlacemarks] emits have
    the shape of its type: one triple for a Point, a path with at least
    one point for a LineString, and for a Polygon at least one ring and no
    empty ring. No element has another type. *)
Theorem parsePlacemarks_wellShaped xmlDoc styles :
  List.Forall wellShaped (parsePlacemarks xmlDoc styles).
Proof.
  destruct (parsePlacemarks_emits xmlDoc styles) as (_ & Hall & _).
  eapply List.Forall_impl; [|exact Hall].
  intros e (placemark & _ & _ & Hg). exact (geometryOf_wellShaped placemark e Hg).
Qed.

(** X4: a placemark beneath which there is no Point, no LineString and no
    Polygon adds no element, with or without a MultiGeometry: the
    geometries of a MultiGeometry are found by the searches for Point,
    LineString and Polygon beneath the placemark, before the MultiGeometry
    branch is reached. So every element that [parsePlacemarks] emits has
    the name, the description, the style and the extended data of its
    own placemark (the name is never changed) and the first geometry, in
    the order Point, LineString, Polygon, found beneath it. *)
Theorem multiGeometry_branch_never_emits :
  (forall styles elements placemark,
      querySelector ["Point"] placemark = None ->
      querySelector ["LineString"] placemark = None ->
      querySelector ["Polygon"] placemark = None ->
      placemarkStep styles elements placemark = elements)
  /\ (forall xmlDoc styles,
         List.Forall
           (fun e => exists placemark,
                In placemark (docQuerySelectorAll ["Placemark"] xmlDoc)
                /\ ownFields styles placemark e /\ geometryOf placemark e)
           (parsePlacemarks xmlDoc styles)).
Proof.
  split.
  - intros styles elements placemark Hpoint Hline Hpoly.
    destruct (placemarkStep_emits styles elements placemark)
      as [H | (e & _ & _ & _ & Hg)]; [exact H|].
    destruct Hg as [(p & c0 & rest & Hp & _)
                   |[(l & c0 & rest & _ & Hl & _)
                    |(p & r0 & rs & _ & _ & Hp & _)]]; congruence.
  - intros xmlDoc styles. apply parsePlacemarks_emits.
Qed.



(** X24: the area of a ring with fewer than 3 points is exactly 0. Every
    Polygon that [parsePlacemarks] emits carries an area, which is
    [calculatePolygonArea] of ring 0 of the rings it holds: no other
    ring, so no hole, enters it. The rings are those of the first Polygon
    beneath its placemark, and ring 0 is the outer boundary whenever the
    outer boundary has coordinates. In every document that [parseKml]
    returns, an element that carries an area is a Polygon, and the area
    is that of its ring 0. *)
Theorem polygon_area_from_outer_boundary :
  (forall ring : list (Coordinate number),
      length ring < 3 -> calculatePolygonArea ring = num 0)
  /\ (forall xmlDoc styles,
         List.Forall
           (fun e =>
              type e = Polygon ->
              exists placemark polygon ring0 rest,
                In placemark (docQuerySelectorAll ["Placemark"] xmlDoc)
                /\ querySelector ["Polygon"] placemark = Some polygon
                /\ polygonRings polygon = ring0 :: rest
                /\ coordinates e = Rings (ring0 :: rest)
                /\ metadata e
                   = Some {| length_km := None;
                             area := Some (calculatePolygonArea ring0) |}
                /\ (forall text,
                       queryText ["outerBoundaryIs"; "LinearRing"; "coordinates"]
                                 polygon = Some text ->
                       coordStrings text <> [] ->
                       ring0 = parseCoordinates (Some text)))
           (parsePlacemarks xmlDoc styles))
  /\ (forall kmlString data,
         parseKml kmlString = Returned data ->
         List.Forall
           (fun e =>
              forall a : number,
                metadata e ≫= area = Some a ->
                type e = Polygon
                /\ exists ring0 rest,
                    coordinates e = Rings (ring0 :: rest)
                    /\ a = calculatePolygonArea ring0)
           (elements data)).
Proof.
  split; [|split].
  - intros ring H. unfold calculatePolygonArea.
    destruct (Nat.ltb_spec (length ring) 3); [reflexivity | lia].
  - intros xmlDoc styles.
    destruct (parsePlacemarks_emits xmlDoc styles) as (_ & Hall & _).
    eapply List.Forall_impl; [|exact Hall].
    intros e (placemark & Hin & _ & Hg) Htype.
    destruct Hg as [(point & c0 & rest & _ & _ & Ht & _)
                   |[(lineString & c0 & rest & _ & _ & _ & Ht & _)
                    |(polygon & ring0 & rings & _ & _ & Hp & Hr & _ & Hc & Hm)]];
      [rewrite Ht in Htype; discriminate
      |rewrite Ht in Htype; discriminate|].
    exists placemark, polygon, ring0, rings. repeat split; try assumption.
    intros text Htext Hne.
    destruct (polygonRings_outer polygon text Htext Hne) as (rest' & Hrings).
    rewrite Hrings in Hr. now injection Hr.
  - intros kmlString data H.
    destruct (parseKml_Returned kmlString data H) as [-> | ->].
    + apply (salvageLoop_area (String.length kmlString) kmlString []).
      constructor.
    + apply parsePlacemarks_area.
Qed.

End Documents.

(** ** Extended data *)

Section ExtendedData.
Context {Num : JsNumber} {B : Browser}.

Lemma dataStep_entries (m : gmap string string) (dataEl : Located) :
  (forall k v, m !! k = Some v ->
               truthy k = true /\ k <> "__proto__" /\ truthy v = true) ->
  forall k v, dataStep m dataEl !! k = Some v ->
              truthy k = true /\ k <> "__proto__" /\ truthy v = true.
Proof.
  intros Hm k v. unfold dataStep, nonEmpty.
  destruct (getAttribute "name" (node dataEl)) as [dataName|]; [|apply Hm].
  destruct (truthy dataName) eqn:Hname; [|apply Hm].
  destruct (queryText ["value"] dataEl) as [dataValue|]; [|apply Hm].
  destruct (truthy dataValue) eqn:Hvalue; [|apply Hm].
  unfold assignKey.
  destruct (String.eqb_spec dataName "__proto__") as [_ | Hproto]; [apply Hm|].
  intros H. apply lookup_insert_Some in H as [[<- <-] | [_ H]]; auto.
Qed.

Lemma dataLoop_entries (l : list Located) :
  forall m : gmap string string,
    (forall k v, m !! k = Some v ->
                 truthy k = true /\ k <> "__proto__" /\ truthy v = true) ->
    forall k v, fold_left dataStep l m !! k = Some v ->
                truthy k = true /\ k <> "__proto__" /\ truthy v = true.
Proof.
  induction l as [|d l IH]; intros m Hm; cbn [fold_left]; [exact Hm|].
  apply IH. now apply dataStep_entries.
Qed.

(** X6: in every document that [parseKml] returns, the extended data of an
    element is absent rather than empty, and when present it has no entry
    under the empty key or under [__proto__] and no empty value. *)
Theorem extendedData_entries (kmlString : string) (data : KmlData number) :
  parseKml kmlString = Returned data ->
  List.Forall
    (fun e => forall m : gmap string string,
         extendedData e = Some m ->
         m <> ∅
         /\ forall k v, m !! k = Some v ->
                        k <> EmptyString /\ k <> "__proto__"
                        /\ v <> EmptyString)
    (elements data).
Proof.
  intros H. destruct (parseKml_Returned kmlString data H) as [-> | ->].
  - destruct (fallbackParse_emits kmlString) as (Hall & _).
    eapply List.Forall_impl; [|exact Hall].
    intros e (content & _ & _ & _ & Hx & _) m. rewrite Hx. discriminate.
  - destruct (parsePlacemarks_emits
                (parseFromString (preprocessKml kmlString))
                (parseStyles (parseFromString (preprocessKml kmlString))))
      as (_ & Hall & _).
    eapply List.Forall_impl; [|exact Hall].
    intros e (placemark & _ & (_ & _ & _ & Hx) & _) m. rewrite Hx.
    unfold orUndefined. destruct (decide (_ = ∅)) as [_ | Hne]; [discriminate|].
    intros [= <-]. split; [exact Hne|]. intros k v Hk.
    destruct (dataLoop_entries _ ∅ (fun k v H => ltac:(now rewrite lookup_empty in H))
                               k v Hk) as (Hk1 & Hk2 & Hv).
    repeat split; [now destruct k | exact Hk2 | now destruct v].
Qed.

Lemma fallbackParse_shape (kmlString : string) :
  kmlName (fallbackParse kmlString) = None
  /\ kmlDescription (fallbackParse kmlString) = None
  /\ List.Forall
       (fun e =>
          style e = Some fallbackStyle
          /\ extendedData e = None
          /\ metadata e = None
          /\ (((type e = Point \/ type e = LineString)
               /\ exists c0 rest, coordinates e = Path (c0 :: rest))
              \/ (type e = Polygon
                  /\ exists c0 rest, coordinates e = Rings [c0 :: rest])))
       (elements (fallbackParse kmlString)).
Proof.
  split; [reflexivity|]. split; [reflexivity|].
  destruct (fallbackParse_emits kmlString) as (Hall & _).
  eapply List.Forall_impl; [|exact Hall].
  intros e (content & _ & _ & Hs & Hx & Hm & g & cm & c0 & rest & Hg & _ & _ & Hc).
  repeat split; auto.
  destruct (blockGeometry_type _ _ _ Hg) as [Ht | [Ht | Ht]];
    rewrite Ht in Hc |- *; eauto 8.
Qed.

(** What the loop of the fallback parser adds to [elements]: the new
    elements pair off, in order, with some of the blocks that the loop
    runs over. *)
Lemma salvageLoop_pairs (fuel : nat) :
  forall kmlString elements,
  exists blocks new,
    salvageLoop fuel kmlString elements = (elements ++ new)%list
    /\ sublist blocks (placemarkBlocks fuel kmlString)
    /\ List.Forall2 salvaged blocks new.
Proof.
  induction fuel as [|fuel IH]; intros s elements;
    cbn [salvageLoop placemarkBlocks].
  - exists [], []. rewrite app_nil_r. repeat split; constructor.
  - destruct (execBlock "Placemark" s) as [[content rest]|].
    2:{ exists [], []. rewrite app_nil_r. repeat split; constructor. }
    destruct (salvageStep_emits elements content) as [-> | (e0 & -> & _ & He0)].
    + destruct (IH rest elements) as (blocks & new & -> & Hsub & Hall).
      exists blocks, new. repeat split; [now constructor | exact Hall].
    + destruct (IH rest (elements ++ [e0])%list)
        as (blocks & new & -> & Hsub & Hall).
      exists (content :: blocks), (e0 :: new). repeat split.
      * now rewrite <- app_assoc.
      * now constructor.
      * now constructor.
Qed.

(** The blocks are all the matches there are: more rounds find no more. *)
Lemma placemarkBlocks_fuel (fuel1 : nat) :
  forall fuel2 kmlString,
    String.length kmlString <= fuel1 -> String.length kmlString <= fuel2 ->
    placemarkBlocks fuel1 kmlString = placemarkBlocks fuel2 kmlString.
Proof.
  induction fuel1 as [|fuel1 IH]; intros fuel2 s H1 H2.
  - destruct s; [|simpl in H1; lia]. now destruct fuel2.
  - destruct fuel2 as [|fuel2].
    + destruct s; [|simpl in H2; lia]. reflexivity.
    + simpl. destruct (execBlock "Placemark" s) as [[c rest]|] eqn:E;
        [|reflexivity].
      apply execBlock_shorter in E. f_equal. apply IH; lia.
Qed.

(** X7: the document of the fallback parser has no name and no
    description, and its elements pair off, in order, with some of the
    Placemark blocks of the text. The element of a block has the trimmed
    name and description of the block, the fixed style, no extended data
    and no metadata; its type is that of the first of Point, LineString
    and Polygon that the block holds; its coordinates are all the
    triples, at least one, that [parseCoordinatesText] makes of the
    trimmed first coordinates text of that geometry, as a path for a
    Point and for a LineString, as the one ring of a Polygon. *)
Theorem fallbackParse_elements (kmlString : string) :
  kmlName (fallbackParse kmlString) = None
  /\ kmlDescription (fallbackParse kmlString) = None
  /\ exists blocks,
      sublist blocks (placemarkBlocks (String.length kmlString) kmlString)
      /\ List.Forall2
           (fun placemarkContent e =>
              name e = trim <$> captured (execBlock "name" placemarkContent)
              /\ description e
                 = trim <$> captured (execBlock "description" placemarkContent)
              /\ style e = Some fallbackStyle
              /\ extendedData e = None
              /\ metadata e = None
              /\ (type e = Point \/ type e = LineString \/ type e = Polygon)
              /\ exists geometryContent coordsMatch,
                  blockGeometry placemarkContent
                  = Some (type e, geometryContent)
                  /\ captured (execBlock "coordinates" geometryContent)
                     = Some coordsMatch
                  /\ parseCoordinatesText (trim coordsMatch) (type e) <> []
                  /\ coordinates e
                     = match type e with
                       | Polygon =>
                           Rings [parseCoordinatesText (trim coordsMatch)
                                                       (type e)]
                       | _ =>
                           Path (parseCoordinatesText (trim coordsMatch)
                                                      (type e))
                       end)
           blocks (elements (fallbackParse kmlString)).
Proof.
  split; [reflexivity|]. split; [reflexivity|].
  unfold fallbackParse. cbn [elements].
  destruct (salvageLoop_pairs (String.length kmlString) kmlString [])
    as (blocks & new & -> & Hsub & Hall).
  exists blocks. split; [exact Hsub|]. cbn [app].
  eapply List.Forall2_impl; [|exact Hall].
  intros content e
         (Hn & Hd & Hs & Hx & Hm & g & cm & c0 & rest & Hg & Hc & Ht & Hcoords).
  repeat split; try assumption.
  - exact (blockGeometry_type _ _ _ Hg).
  - exists g, cm. rewrite Ht. repeat split; try assumption. discriminate.
Qed.

End ExtendedData.

(** ** Tokens and colors *)

Lemma splitWsFrom_pieces (s : string) :
  forall inRun piece,
    In piece (splitWsFrom inRun s) ->
    existsb isWhiteSpace (list_ascii_of_string piece) = false.
Proof.
  induction s as [|c s IH]; intros inRun piece; cbn [splitWsFrom].
  - intros [<- | []]. reflexivity.
  - destruct (isWhiteSpace c) eqn:Hc.
    + destruct inRun; [apply IH|]. intros [<- | H]; [reflexivity | now apply IH in H].
    + pose proof (IH false) as IHs.
      destruct (splitWsFrom false s) as [|t ts].
      * intros [<- | []]. simpl. now rewrite Hc.
      * intros [<- | H].
        -- simpl. rewrite Hc. apply IHs. now left.
        -- apply IHs. now right.
Qed.

Section Tokens.
Context {Num : JsNumber}.

(** X8: every token that the tokenizer hands to the numeric parse is
    non-empty and holds no white space, whatever white space (spaces,
    tabs, line breaks) separates the tuples in the text. *)
Theorem coordStrings_tokens (s token : string) :
  In token (coordStrings s) ->
  token <> EmptyString
  /\ existsb isWhiteSpace (list_ascii_of_string token) = false.
Proof.
  unfold coordStrings, filterBoolean, splitWhitespace. intros H.
  apply List.filter_In in H as [H Ht]. split.
  - now destruct token.
  - exact (splitWsFrom_pieces _ _ _ H).
Qed.

(** The tokenizer of the fallback parser and the tokenizer of the
    structured parser give the same triples on every text, whatever the
    type that is passed to the first. *)
Lemma parseCoordinatesText_agrees (coordsText : string) (t : KmlElementType) :
  parseCoordinatesText coordsText t = parseCoordinates (Some coordsText).
Proof. now destruct coordsText. Qed.

End Tokens.

(** X9: the color codec returns, for every input, a text of seven code
    units that starts with [#]. *)
Theorem kmlColorToHex_shape (kmlColor : option string) :
  String.length (kmlColorToHex kmlColor) = 7
  /\ startsWith "#" (kmlColorToHex kmlColor) = true.
Proof.
  destruct kmlColor as [c|]; [|now split]. unfold kmlColorToHex.
  destruct (Nat.eqb_spec (String.length c) 8) as [E | E].
  - destruct c as [|c1 [|c2 [|c3 [|c4 [|c5 [|c6 [|c7 [|c8 [|c9 c]]]]]]]]];
      try discriminate E. now split.
  - rewrite orb_true_r. now split.
Qed.

(** ** The style table *)

Section StyleTable.
Context {Num : JsNumber} {B : Browser}.

Lemma fold_left_invariant {A S} (R : S -> Prop) (f : S -> A -> S) (l : list A) :
  (forall acc x, In x l -> R acc -> R (f acc x)) ->
  forall init, R init -> R (fold_left f l init).
Proof.
  induction l as [|x l IH]; intros Hf init Hinit; cbn [fold_left];
    [exact Hinit|].
  apply IH.
  - intros acc y Hy. apply Hf. now right.
  - apply Hf; [now left | exact Hinit].
Qed.

(** X10: every style of the table that [parseStyles] returns is the style
    read from a Style element of the document: a StyleMap adds no style
    of its own, it only records a style of the table under one more id. *)
Theorem parseStyles_values xmlDoc (id : string) (st : KmlStyle number) :
  parseStyles xmlDoc !! id = Some st ->
  exists styleEl,
    In styleEl (docQuerySelectorAll ["Style"] xmlDoc) /\ st = styleOf styleEl.
Proof.
  revert id st. unfold parseStyles.
  apply (fold_left_invariant
           (fun m : gmap string (KmlStyle number) =>
              forall id st, m !! id = Some st ->
              exists styleEl,
                In styleEl (docQuerySelectorAll ["Style"] xmlDoc)
                /\ st = styleOf styleEl)).
  - intros acc styleMap _ Hacc id st. unfold styleMapStep, StyleTable in *.
    destruct (nonEmpty (getAttribute "id" (node styleMap))) as [mapId|];
      [|apply Hacc].
    destruct (referencedId (normalStyleUrl styleMap)) as [ref|]; [|apply Hacc].
    destruct (acc !! ref) as [referencedStyle|] eqn:Href; [|apply Hacc].
    intros H. apply lookup_insert_Some in H as [[_ <-] | [_ H]];
      [exact (Hacc ref referencedStyle Href) | exact (Hacc id st H)].
  - apply (fold_left_invariant
             (fun m : gmap string (KmlStyle number) =>
                forall id st, m !! id = Some st ->
                exists styleEl,
                  In styleEl (docQuerySelectorAll ["Style"] xmlDoc)
                  /\ st = styleOf styleEl)).
    + intros acc styleEl Hin Hacc id st. unfold styleStep, StyleTable in *.
      destruct (nonEmpty (getAttribute "id" (node styleEl))) as [styleId|];
        [|apply Hacc].
      intros H. apply lookup_insert_Some in H as [[_ <-] | [_ H]];
        [now exists styleEl | exact (Hacc id st H)].
    + intros id st H. unfold StyleTable in H. now rewrite lookup_empty in H.
Qed.

Lemma styleStep_keeps (m : gmap string (KmlStyle number)) (styleEl : Located) (id : string) :
  is_Some (m !! id) -> is_Some (styleStep m styleEl !! id).
Proof.
  intros H. unfold styleStep, StyleTable in *.
  destruct (nonEmpty (getAttribute "id" (node styleEl))) as [k|]; [|exact H].
  destruct (decide (k = id)) as [-> | Hne].
  - rewrite lookup_insert_eq. eauto.
  - now rewrite lookup_insert_ne.
Qed.

Lemma styleMapStep_keeps (m : gmap string (KmlStyle number)) (styleMap : Located) (id : string) :
  is_Some (m !! id) -> is_Some (styleMapStep m styleMap !! id).
Proof.
  intros H. unfold styleMapStep, StyleTable in *.
  destruct (nonEmpty (getAttribute "id" (node styleMap))) as [k|]; [|exact H].
  destruct (referencedId (normalStyleUrl styleMap)) as [ref|]; [|exact H].
  destruct (m !! ref) as [referencedStyle|]; [|exact H].
  destruct (decide (k = id)) as [-> | Hne].
  - rewrite lookup_insert_eq. eauto.
  - now rewrite lookup_insert_ne.
Qed.

Lemma fold_keeps {A} (f : gmap string (KmlStyle number) -> A -> gmap string (KmlStyle number)) (id : string) :
  (forall m x, is_Some (m !! id) -> is_Some (f m x !! id)) ->
  forall l m, is_Some (m !! id) -> is_Some (fold_left f l m !! id).
Proof.
  intros Hf l. induction l as [|x l IH]; intros m Hm; cbn [fold_left]; auto.
Qed.

Lemma styleLoop_covers (l : list Located) (styleEl : Located) (id : string) :
  In styleEl l ->
  nonEmpty (getAttribute "id" (node styleEl)) = Some id ->
  forall m : gmap string (KmlStyle number),
    is_Some (fold_left styleStep l m !! id).
Proof.
  intros Hin Hid. induction l as [|y l IH]; [destruct Hin|].
  intros m. cbn [fold_left]. destruct Hin as [-> | Hin]; [|now apply IH].
  apply fold_keeps; [intros; now apply styleStep_keeps|].
  unfold styleStep, StyleTable. rewrite Hid, lookup_insert_eq. eauto.
Qed.

Lemma styleMapLoop_covers (l : list Located) (styleMap : Located)
      (mapId ref : string) :
  In styleMap l ->
  nonEmpty (getAttribute "id" (node styleMap)) = Some mapId ->
  referencedId (normalStyleUrl styleMap) = Some ref ->
  forall m : gmap string (KmlStyle number),
    is_Some (m !! ref) ->
    is_Some (fold_left styleMapStep l m !! mapId).
Proof.
  intros Hin Hid Href. induction l as [|y l IH]; [destruct Hin|].
  intros m Hm. cbn [fold_left]. destruct Hin as [-> | Hin].
  - apply fold_keeps; [intros; now apply styleMapStep_keeps|].
    unfold styleMapStep, StyleTable in *. rewrite Hid, Href.
    destruct Hm as [referencedStyle ->]. rewrite lookup_insert_eq. eauto.
  - apply IH; [exact Hin|]. now apply styleMapStep_keeps.
Qed.

(** X11: the table that [parseStyles] returns has an entry under the id
    of every Style element that has one, and under the id of every
    StyleMap whose "normal" pair names, after [#], the id of a Style
    element of the document. *)
Theorem parseStyles_covers :
  (forall xmlDoc styleEl (id : string),
      In styleEl (docQuerySelectorAll ["Style"] xmlDoc) ->
      nonEmpty (getAttribute "id" (node styleEl)) = Some id ->
      is_Some (parseStyles xmlDoc !! id))
  /\ (forall xmlDoc styleMap styleEl (mapId ref : string),
         In styleMap (docQuerySelectorAll ["StyleMap"] xmlDoc) ->
         nonEmpty (getAttribute "id" (node styleMap)) = Some mapId ->
         referencedId (normalStyleUrl styleMap) = Some ref ->
         In styleEl (docQuerySelectorAll ["Style"] xmlDoc) ->
         nonEmpty (getAttribute "id" (node styleEl)) = Some ref ->
         is_Some (parseStyles xmlDoc !! mapId)).
Proof.
  split.
  - intros xmlDoc styleEl id Hin Hid. unfold parseStyles.
    apply fold_keeps; [intros; now apply styleMapStep_keeps|].
    now apply (styleLoop_covers _ styleEl).
  - intros xmlDoc styleMap styleEl mapId ref Hmap HmapId Href Hin Hid.
    unfold parseStyles.
    apply (styleMapLoop_covers _ styleMap mapId ref Hmap HmapId Href).
    now apply (styleLoop_covers _ styleEl).
Qed.

End StyleTable.

(** ** Errors *)

Section Errors.
Context {Num : JsNumber} {B : Browser} {J : JSZip} {R : App.FileReader}.

Lemma parseKml_Thrown (kmlString message : string) :
  parseKml kmlString = Thrown message ->
  kmlString = EmptyString
  /\ message = "Invalid KML content: Empty or not a string".
Proof.
  unfold parseKml. destruct kmlString as [|c s].
  - simpl. intros [= <-]. now split.
  - simpl negb. cbv iota.
    destruct (docQuerySelector ["parsererror"] _); discriminate.
Qed.

(** X12: [parseKml] throws on the empty text and on no other: the error is
    "Invalid KML content: Empty or not a string", and every non-empty
    text, well formed or not, gives a document. *)
Theorem parseKml_throws_only_on_empty (kmlString : string) :
  (forall message,
      parseKml kmlString = Thrown message <->
      kmlString = EmptyString
      /\ message = "Invalid KML content: Empty or not a string")
  /\ (kmlString <> EmptyString ->
      exists data, parseKml kmlString = Returned data).
Proof.
  unfold parseKml. destruct kmlString as [|c s].
  - split; [|intros H; now elim H]. intros message. simpl.
    split; [intros [= <-]; now split | intros [_ ->]; reflexivity].
  - simpl negb. cbv iota.
    destruct (docQuerySelector ["parsererror"] _); split;
      try (intros message; split; [discriminate | intros [[=] _]]);
      intros _; eauto.
Qed.

Lemma extractAndParse_Thrown (kmlFile : ZipObject) (message : string) :
  extractAndParse kmlFile = Thrown message ->
  message = "Failed to extract KML content from KMZ file"
  \/ message = "Extracted KML file is empty".
Proof.
  unfold extractAndParse. destruct (asyncString kmlFile) as [content|];
    [|intros [= <-]; now left].
  destruct content as [|c s]; [intros [= <-]; now right|].
  simpl truthy. simpl negb. rewrite orb_false_l.
  destruct (isEmpty (trim (String c s))); [intros [= <-]; now right|].
  intros H.
  apply parseKml_Thrown in H as [[=] _].
Qed.

(** X13: every error that [parseKmz] throws carries one of six messages;
    the error of [parseKml] for an empty text is not among them, because
    the extracted text is checked before it is parsed. A text of white
    space only, which [parseKml] alone would accept, is refused. *)
Theorem parseKmz_errors :
  (forall (f : option File) (message : string),
      parseKmz f = Thrown message ->
      In message
         [ "No file provided";
           "Not a KMZ file";
           "Invalid KMZ file: Not a valid ZIP archive";
           "No KML file found in the KMZ archive";
           "Failed to extract KML content from KMZ file";
           "Extracted KML file is empty" ])
  /\ (forall kmlFile content,
         asyncString kmlFile = Some content ->
         whitespaceOnly content = true ->
         extractAndParse kmlFile = Thrown "Extracted KML file is empty").
Proof.
  split.
  - intros f message. unfold parseKmz.
    destruct f as [f|]; [|intros [= <-]; simpl; auto].
    destruct (negb (endsWith ".kmz" (toLowerCase (fileName f))));
      [intros [= <-]; simpl; auto|].
    destruct (loadAsync f) as [files|]; [|intros [= <-]; simpl; auto].
    assert (Hextract : forall kmlFile,
               extractAndParse kmlFile = Thrown message ->
               In message
                  [ "No file provided";
                    "Not a KMZ file";
                    "Invalid KMZ file: Not a valid ZIP archive";
                    "No KML file found in the KMZ archive";
                    "Failed to extract KML content from KMZ file";
                    "Extracted KML file is empty" ]).
    { intros kmlFile H. apply extractAndParse_Thrown in H as [-> | ->];
        simpl; auto 10. }
    destruct (file files "doc.kml") as [kmlFile|]; [apply Hextract|].
    destruct (List.filter (isKmlEntry files) (keys files)) as [|first rest];
      [intros [= <-]; simpl; auto|].
    destruct (file files first) as [kmlFile|]; [apply Hextract|].
    intros [= <-]; simpl; auto.
  - intros kmlFile content Hcontent Hblank. unfold extractAndParse.
    rewrite Hcontent. unfold trim.
    rewrite (trimStart_whitespaceOnly content Hblank). simpl.
    now rewrite orb_true_r.
Qed.

(** X14: every document that [parseKmz] returns is the document that
    [parseKml] returns on the text of an entry of the archive loaded from
    a file whose name ends, whatever the case, in ".kmz"; the text is not
    blank. Nothing else of the archive, its images included, has a part
    in the result. *)
Theorem parseKmz_returns_parsed_entry (f : option File)
        (data : KmlData number) :
  parseKmz f = Returned data ->
  exists kmz files entry kmlFile kmlContent,
    f = Some kmz
    /\ endsWith ".kmz" (toLowerCase (fileName kmz)) = true
    /\ loadAsync kmz = Some files
    /\ file files entry = Some kmlFile
    /\ asyncString kmlFile = Some kmlContent
    /\ trim kmlContent <> EmptyString
    /\ parseKml kmlContent = Returned data.
Proof.
  unfold parseKmz. destruct f as [kmz|]; [|discriminate].
  destruct (endsWith ".kmz" (toLowerCase (fileName kmz))) eqn:Hname;
    [|discriminate].
  simpl negb. cbv iota.
  destruct (loadAsync kmz) as [files|] eqn:Hload; [|discriminate].
  assert (Hextract : forall entry kmlFile,
             file files entry = Some kmlFile ->
             extractAndParse kmlFile = Returned data ->
             exists kmz0 files0 entry0 kmlFile0 kmlContent,
               Some kmz = Some kmz0
               /\ endsWith ".kmz" (toLowerCase (fileName kmz0)) = true
               /\ loadAsync kmz0 = Some files0
               /\ file files0 entry0 = Some kmlFile0
               /\ asyncString kmlFile0 = Some kmlContent
               /\ trim kmlContent <> EmptyString
               /\ parseKml kmlContent = Returned data).
  { intros entry kmlFile Hentry. unfold extractAndParse.
    destruct (asyncString kmlFile) as [kmlContent|] eqn:Hcontent;
      [|discriminate].
    destruct (negb (truthy kmlContent) || isEmpty (trim kmlContent))%bool
      eqn:Hblank; [discriminate|].
    intros Hparse. exists kmz, files, entry, kmlFile, kmlContent.
    repeat split; try assumption.
    intros Hempty. rewrite Hempty in Hblank.
    now rewrite orb_true_r in Hblank. }
  destruct (file files "doc.kml") as [kmlFile|] eqn:Hdoc;
    [exact (Hextract "doc.kml" kmlFile Hdoc)|].
  destruct (List.filter (isKmlEntry files) (keys files)) as [|first rest];
    [discriminate|].
  destruct (file files first) as [kmlFile|] eqn:Hfirst;
    [exact (Hextract first kmlFile Hfirst) | discriminate].
Qed.

End Errors.

(** ** The viewer page *)

Section Page.
Context {Num : JsNumber} {B : Browser} {J : JSZip} {R : App.FileReader}.

Lemma salvaged_type content (e : KmlElement number) :
  salvaged content e ->
  type e = Point \/ type e = LineString \/ type e = Polygon.
Proof.
  intros (_ & _ & _ & _ & _ & g & cm & c0 & rest & Hg & _).
  exact (blockGeometry_type _ _ _ Hg).
Qed.

Lemma geometryOf_type placemark (e : KmlElement number) :
  geometryOf placemark e ->
  type e = Point \/ type e = LineString \/ type e = Polygon.
Proof.
  intros [(point & c0 & rest & _ & _ & -> & _)
         |[(lineString & c0 & rest & _ & _ & _ & -> & _)
          |(polygon & ring0 & rings & _ & _ & _ & _ & -> & _)]]; auto.
Qed.

Lemma parseKml_types (kmlString : string) (data : KmlData number) :
  parseKml kmlString = Returned data ->
  List.Forall
    (fun e => type e = Point \/ type e = LineString \/ type e = Polygon)
    (elements data).
Proof.
  intros H. destruct (parseKml_Returned kmlString data H) as [-> | ->].
  - destruct (fallbackParse_emits kmlString) as (Hall & _).
    eapply List.Forall_impl; [|exact Hall].
    intros e (content & He). exact (salvaged_type content e He).
  - destruct (parsePlacemarks_emits
                (parseFromString (preprocessKml kmlString))
                (parseStyles (parseFromString (preprocessKml kmlString))))
      as (_ & Hall & _).
    eapply List.Forall_impl; [|exact Hall].
    intros e (placemark & _ & _ & Hg). exact (geometryOf_type placemark e Hg).
Qed.

Lemma counts_of_three (l : list (KmlElement number)) :
  List.Forall
    (fun e => type e = Point \/ type e = LineString \/ type e = Polygon) l ->
  length (List.filter
            (fun el => negb (existsb (App.typeEqb (type el))
                                     [Point; LineString; Polygon])) l) = 0
  /\ length (List.filter (fun el => App.typeEqb (type el) Point) l)
     + length (List.filter (fun el => App.typeEqb (type el) LineString) l)
     + length (List.filter (fun el => App.typeEqb (type el) Polygon) l)
     = length l.
Proof.
  induction 1 as [|e l He _ [IH0 IH]]; [now split|].
  cbn [List.filter existsb].
  destruct He as [-> | [-> | ->]]; simpl; split; auto; lia.
Qed.

(** X15: in the content summary of the file panel, for every document
    that [parseKml] returns, the count of other elements is 0 and the
    counts of points, lines and polygons add up to the total. *)
Theorem summary_counts (kmlString : string) (data : KmlData number) :
  parseKml kmlString = Returned data ->
  App.countOfOthers data = 0
  /\ App.countOfType Point data + App.countOfType LineString data
     + App.countOfType Polygon data
     = length (elements data).
Proof.
  intros H. exact (counts_of_three _ (parseKml_types kmlString data H)).
Qed.

(** X16: the map draws every Point and every Polygon that
    [parsePlacemarks] emits, and a LineString when its path has at least
    two points: a LineString of one point is emitted by the parser and
    gets no layer. *)
Theorem layerGuard_structured xmlDoc styles :
  List.Forall
    (fun e => App.layerGuard e = false <->
              type e = LineString /\ exists c, coordinates e = Path [c])
    (parsePlacemarks xmlDoc styles).
Proof.
  destruct (parsePlacemarks_emits xmlDoc styles) as (_ & Hall & _).
  eapply List.Forall_impl; [|exact Hall].
  intros e (placemark & _ & _ & Hg). unfold App.layerGuard.
  destruct Hg as [(point & c0 & rest & _ & _ & -> & -> & _)
                 |[(lineString & c0 & rest & _ & _ & _ & -> & -> & _)
                  |(polygon & ring0 & rings & _ & _ & _ & _ & -> & -> & _)]];
    simpl.
  - split; [discriminate | intros [[=] _]].
  - destruct rest as [|c1 rest]; simpl.
    + split; [intros _; split; eauto | reflexivity].
    + split; [discriminate | intros [_ (c & [=])]].
  - split; [discriminate | intros [[=] _]].
Qed.

(** X17: a Point of the fallback parser holds its triples as a path, so
    the guard of the map, which counts the entries of the coordinates,
    refuses a Point (and a LineString) recovered from a single tuple: the
    element is in the document and gets no layer. A Polygon of the
    fallback parser always passes the guard. *)
Theorem layerGuard_fallback (kmlString : string) :
  List.Forall
    (fun e => App.layerGuard e = false <->
              (type e = Point \/ type e = LineString)
              /\ exists c, coordinates e = Path [c])
    (elements (fallbackParse kmlString)).
Proof.
  destruct (fallbackParse_shape kmlString) as (_ & _ & Hall).
  eapply List.Forall_impl; [|exact Hall].
  intros e (_ & _ & _ & [[Ht (c0 & rest & Hc)] | [Ht (c0 & rest & Hc)]]);
    unfold App.layerGuard; rewrite Hc.
  - assert (Hlen : Nat.leb 2 (App.coordinatesLength (Path (c0 :: rest))) = false
                   <-> exists c, Path (c0 :: rest) = Path [c]).
    { destruct rest as [|c1 rest]; simpl.
      - split; eauto.
      - split; [discriminate | intros (c & [=])]. }
    destruct Ht as [Ht | Ht]; rewrite Ht; rewrite Hlen;
      split; [intros H; split; auto | intros [_ H]; exact H
             | intros H; split; auto | intros [_ H]; exact H].
  - rewrite Ht. simpl.
    split; [discriminate | intros [[[=] | [=]] _]].
Qed.

(** The error of [parseKmz] on a file whose name passed the test of the
    page. *)
Lemma parseKmz_named (f : File) (message : string) :
  endsWith ".kmz" (toLowerCase (fileName f)) = true ->
  parseKmz (Some f) = Thrown message ->
  message <> "Not a KMZ file" /\ message <> "No file provided".
Proof.
  intros Hname. unfold parseKmz. rewrite Hname. simpl negb. cbv iota.
  assert (Hextract : forall kmlFile,
             extractAndParse kmlFile = Thrown message ->
             message <> "Not a KMZ file" /\ message <> "No file provided").
  { intros kmlFile H. apply extractAndParse_Thrown in H as [-> | ->];
      split; discriminate. }
  destruct (loadAsync f) as [files|]; [|intros [= <-]; split; discriminate].
  destruct (file files "doc.kml") as [kmlFile|]; [apply Hextract|].
  destruct (List.filter (isKmlEntry files) (keys files)) as [|first rest];
    [intros [= <-]; split; discriminate|].
  destruct (file files first) as [kmlFile|]; [apply Hextract|].
  intros [= <-]; split; discriminate.
Qed.

(** X18: whatever file is uploaded, the page never shows the errors "Not
    a KMZ file" and "No file provided": it hands to [parseKmz] only files
    whose name ends in ".kmz", and every other file, a ZIP archive under
    another name too, is read as text and handed to [parseKml]. *)
Theorem handleFileUpload_errors (s : App.PageState) (f : File) :
  App.error (App.handleFileUpload s (Some f)) <> Some "Not a KMZ file"
  /\ App.error (App.handleFileUpload s (Some f)) <> Some "No file provided"
  /\ (endsWith ".kmz" (toLowerCase (fileName f)) = false ->
      forall kmlString, App.readAsText f = Some kmlString ->
      App.handleFileUpload s (Some f)
      = App.settle
          {| App.kmlData := App.kmlData s; App.isLoading := false;
             App.error := None;
             App.selectedElement := App.selectedElement s;
             App.shownName := Some (fileName f);
             App.shownSize := Some (String.length (fileBytes f));
             App.shownType := Some App.kml |}
          (parseKml kmlString)).
Proof.
  unfold App.handleFileUpload.
  destruct (endsWith ".kmz" (toLowerCase (fileName f))) eqn:Hname.
  - destruct (parseKmz (Some f)) as [data | message] eqn:Hparse; simpl.
    + repeat split; discriminate.
    + destruct (parseKmz_named f message Hname Hparse) as [H1 H2].
      repeat split; try discriminate; intros [= ->]; auto.
  - destruct (App.readAsText f) as [kmlString|].
    + destruct (parseKml kmlString) as [data | message] eqn:Hparse; simpl.
      * repeat split; try discriminate. intros _ k [= <-]. now rewrite Hparse.
      * apply parseKml_Thrown in Hparse as [-> ->].
        repeat split; try discriminate. intros _ k [= <-]. reflexivity.
    + simpl. repeat split; discriminate.
Qed.

(** X19: after an upload the page shows the name, the size and the type
    of the new file and is not loading; the rest follows the outcome of
    the parser that the file was handed to, [parseKmz] for a name that
    ends in ".kmz" and else [parseKml] on the text that was read. When
    the parser returns a document, the page holds that document, no
    selection and no error. When it throws, the page holds the message
    as its error, with the document and the selection it had before;
    and so it does, with "Failed to read the file.", when the file
    cannot be read. *)
Theorem handleFileUpload_state (s : App.PageState) (f : File) :
  let s' := App.handleFileUpload s (Some f) in
  let isKmz := endsWith ".kmz" (toLowerCase (fileName f)) in
  let outcome :=
    if isKmz then Some (parseKmz (Some f))
    else parseKml <$> App.readAsText f in
  App.shownName s' = Some (fileName f)
  /\ App.shownSize s' = Some (String.length (fileBytes f))
  /\ App.shownType s' = Some (if isKmz then App.kmz else App.kml)
  /\ App.isLoading s' = false
  /\ match outcome with
     | Some (Returned data) =>
         App.kmlData s' = Some data
         /\ App.selectedElement s' = None
         /\ App.error s' = None
     | Some (Thrown message) =>
         App.error s' = Some message
         /\ App.kmlData s' = App.kmlData s
         /\ App.selectedElement s' = App.selectedElement s
     | None =>
         App.error s' = Some "Failed to read the file."
         /\ App.kmlData s' = App.kmlData s
         /\ App.selectedElement s' = App.selectedElement s
     end.
Proof.
  cbv zeta. unfold App.handleFileUpload.
  destruct (endsWith ".kmz" (toLowerCase (fileName f))).
  - destruct (parseKmz (Some f)); simpl; repeat split.
  - destruct (App.readAsText f) as [kmlString|]; simpl;
      [destruct (parseKml kmlString); simpl|]; repeat split.
Qed.

End Page.

(** ** Namespace repair *)

Section Repair.
#[local] Arguments String.append !s1 s2 : simpl nomatch.

Lemma append_assoc (a b c : string) : (a ++ b) ++ c = a ++ (b ++ c).
Proof. induction a as [|x a IH]; simpl; [reflexivity | now rewrite IH]. Qed.

Lemma append_nil_r (a : string) : a ++ EmptyString = a.
Proof. induction a as [|x a IH]; simpl; [reflexivity | now rewrite IH]. Qed.

Lemma append_length (a b : string) :
  String.length (a ++ b) = String.length a + String.length b.
Proof. induction a as [|x a IH]; simpl; [reflexivity | now rewrite IH]. Qed.

Lemma startsWith_app_same (p x : string) : startsWith p (p ++ x) = true.
Proof.
  induction p as [|a p IH]; simpl; [reflexivity|].
  now rewrite Ascii.eqb_refl, IH.
Qed.

Lemma drop_app_same (p x : string) : drop (String.length p) (p ++ x) = x.
Proof. induction p as [|a p IH]; simpl; [now destruct x | exact IH]. Qed.

Lemma drop_app_same' (p x a : string) :
  drop (String.length p + String.length x) ((p ++ x) ++ a) = a.
Proof. rewrite <- append_length. apply drop_app_same. Qed.

Lemma startsWith_eq (p s : string) :
  startsWith p s = true -> s = p ++ drop (String.length p) s.
Proof.
  revert s. induction p as [|a p IH]; intros [|b s]; simpl; try easy.
  intros H. apply andb_true_iff in H as [Hab H].
  apply Ascii.eqb_eq in Hab as ->. f_equal. now apply IH.
Qed.

Lemma startsWith_false_app (p x s : string) :
  startsWith p s = false -> startsWith (p ++ x) s = false.
Proof.
  revert s. induction p as [|a p IH]; intros [|b s]; simpl; try easy.
  intros H. apply andb_false_iff in H as [-> | H]; [reflexivity|].
  rewrite (IH _ H). apply andb_false_r.
Qed.

(** A prefix test only reads as many code units as the prefix has. *)
Lemma startsWith_common (p x y y' : string) :
  String.length p <= String.length x ->
  startsWith p (x ++ y) = startsWith p (x ++ y').
Proof.
  revert x. induction p as [|a p IH]; intros [|b x]; simpl; try easy; try lia.
  intros H. f_equal. apply IH. lia.
Qed.

(** [cut] splits the text at the occurrence it finds. *)
Lemma cut_sound (p s b a : string) :
  cut p s = Some (b, a) -> s = b ++ p ++ a.
Proof.
  revert b. induction s as [|c s IH]; intros b; simpl.
  - destruct (startsWith p EmptyString) eqn:E; [|discriminate].
    intros [= <- <-]. exact (startsWith_eq _ _ E).
  - destruct (startsWith p (String c s)) eqn:E.
    + intros [= <- <-]. exact (startsWith_eq _ _ E).
    + destruct (cut p s) as [[b' a']|] eqn:Ec; [|discriminate].
      intros [= <- <-]. simpl. f_equal. now apply IH.
Qed.

Lemma cut_unfold (p s : string) :
  cut p s
  = if startsWith p s then Some (EmptyString, drop (String.length p) s)
    else match s with
         | EmptyString => None
         | String c s' =>
             match cut p s' with
             | Some (b, a) => Some (String c b, a)
             | None => None
             end
         end.
Proof. now destruct s. Qed.

Lemma cut_here (p x : string) : cut p (p ++ x) = Some (EmptyString, x).
Proof. now rewrite cut_unfold, startsWith_app_same, drop_app_same. Qed.

(** The first occurrence stays the first when the text after it changes. *)
Lemma cut_first (p s b a a' : string) :
  cut p s = Some (b, a) -> cut p (b ++ p ++ a') = Some (b, a').
Proof.
  revert b. induction s as [|c s IH]; intros b; rewrite cut_unfold.
  - destruct (startsWith p EmptyString); [|discriminate].
    intros [= <- <-]. exact (cut_here p a').
  - destruct (startsWith p (String c s)) eqn:E.
    + intros [= <- <-]. exact (cut_here p a').
    + destruct (cut p s) as [[b' a0]|] eqn:Ec; [|discriminate].
      intros [= <- <-]. specialize (IH b' eq_refl).
      pose proof (cut_sound _ _ _ _ Ec) as Hs. subst s.
      change (String c b' ++ p ++ a') with (String c (b' ++ p ++ a')).
      rewrite (cut_unfold p (String c (b' ++ p ++ a'))).
      assert (Hfalse : startsWith p (String c (b' ++ p ++ a')) = false).
      { rewrite <- E.
        change (String c (b' ++ p ++ a')) with (String c b' ++ (p ++ a')).
        change (String c (b' ++ p ++ a0)) with (String c b' ++ (p ++ a0)).
        rewrite <- !append_assoc.
        apply startsWith_common. rewrite append_length. lia. }
      rewrite Hfalse, IH. reflexivity.
Qed.

Lemma includes_app_l (p x y : string) :
  includes p x = true -> includes p (x ++ y) = true.
Proof.
  unfold includes. destruct (cut p x) as [[b a]|] eqn:E; [|discriminate].
  intros _. rewrite (cut_sound _ _ _ _ E), !append_assoc.
  now rewrite (cut_first _ _ _ _ (a ++ y) E).
Qed.

Lemma includes_app_r (p x y : string) :
  includes p y = true -> includes p (x ++ y) = true.
Proof.
  unfold includes. intros H. induction x as [|c x IH]; [exact H|].
  change (String c x ++ y) with (String c (x ++ y)).
  rewrite (cut_unfold p (String c (x ++ y))).
  destruct (startsWith p (String c (x ++ y))); [reflexivity|].
  destruct (cut p (x ++ y)) as [[b a]|]; [reflexivity | discriminate].
Qed.

Lemma includes_startsWith (p s : string) :
  startsWith p s = true -> includes p s = true.
Proof. intros H. unfold includes. now rewrite cut_unfold, H. Qed.

(** A round of the loop over the namespaces keeps the start of the tag. *)
Lemma addNamespace_start (kmlTag t : string) (entry : string * string) :
  startsWith "<kml" t = true ->
  startsWith "<kml" (addNamespace kmlTag t entry) = true.
Proof.
  intros H. destruct entry as [ns url]. unfold addNamespace.
  destruct (negb (includes ns kmlTag)); [|exact H].
  rewrite (startsWith_eq _ _ H). set (t' := drop _ t). clearbody t'.
  unfold replace. simpl.
  destruct (cut ">" t') as [[b a]|]; reflexivity.
Qed.

Lemma updatedTag_start (kmlTag : string) (l : list (string * string)) :
  forall t,
    startsWith "<kml" t = true ->
    startsWith "<kml" (fold_left (addNamespace kmlTag) l t) = true.
Proof.
  induction l as [|e l IH]; intros t H; cbn [fold_left]; [exact H|].
  apply IH. now apply addNamespace_start.
Qed.

(** X20: whatever the text, the text that namespace repair returns
    contains [<kml]: a text without it is wrapped, and a text with it
    keeps it, also when its root tag is rewritten. *)
Theorem preprocessKml_has_root (kmlString : string) :
  includes "<kml" (preprocessKml kmlString) = true.
Proof.
  unfold preprocessKml.
  destruct (includes "<kml" kmlString) eqn:Hin; simpl negb; cbv iota;
    [|reflexivity].
  unfold matchKmlTag.
  destruct (cut "<kml" kmlString) as [[pre rest]|]; [|exact Hin].
  destruct (cut ">" rest) as [[body post]|]; [|exact Hin].
  destruct (negb (String.eqb _ _)); [|exact Hin].
  unfold replace.
  destruct (cut ("<kml" ++ body ++ ">") kmlString) as [[b a]|]; [|exact Hin].
  apply includes_app_r, includes_app_l, includes_startsWith.
  pose proof (updatedTag_start ("<kml" ++ body ++ ">") KML_NAMESPACES
                ("<kml" ++ body ++ ">") eq_refl) as H.
  rewrite (startsWith_eq _ _ H). reflexivity.
Qed.

(** *** A root tag without a dollar sign *)

Lemma includes_char_cons (c d : ascii) (s : string) :
  includes (String c EmptyString) (String d s)
  = (Ascii.eqb c d || includes (String c EmptyString) s)%bool.
Proof.
  unfold includes. rewrite (cut_unfold _ (String d s)). simpl startsWith.
  destruct (Ascii.eqb c d); simpl; [reflexivity|].
  now destruct (cut (String c EmptyString) s) as [[b a]|].
Qed.

Lemma includes_char_app (c : ascii) (x y : string) :
  includes (String c EmptyString) (x ++ y)
  = (includes (String c EmptyString) x
     || includes (String c EmptyString) y)%bool.
Proof.
  induction x as [|d x IH]; [reflexivity|].
  change (String d x ++ y) with (String d (x ++ y)).
  now rewrite !includes_char_cons, IH, orb_assoc.
Qed.

Lemma cut_char_app (c : ascii) (x y : string) :
  includes (String c EmptyString) x = false ->
  cut (String c EmptyString) (x ++ String c y) = Some (x, y).
Proof.
  induction x as [|d x IH]; intros H.
  - exact (cut_here (String c EmptyString) y).
  - rewrite includes_char_cons in H. apply orb_false_iff in H as [Hcd H].
    change (String d x ++ String c y) with (String d (x ++ String c y)).
    rewrite (cut_unfold _ (String d (x ++ String c y))). simpl startsWith.
    rewrite Hcd. simpl. now rewrite (IH H).
Qed.

Lemma cut_char_before (c : ascii) (s b a : string) :
  cut (String c EmptyString) s = Some (b, a) ->
  includes (String c EmptyString) b = false.
Proof.
  revert b. induction s as [|d s IH]; intros b; rewrite cut_unfold.
  - simpl. discriminate.
  - simpl startsWith. destruct (Ascii.eqb c d) eqn:Hcd; simpl.
    + intros [= <- <-]. reflexivity.
    + destruct (cut (String c EmptyString) s) as [[b' a']|]; [|discriminate].
      intros [= <- <-]. rewrite includes_char_cons, Hcd. simpl. now apply IH.
Qed.

(** A replacement text without a dollar sign stands for itself. *)
Lemma getSubstitution_plain (matched before after repl : string) :
  includes "$" repl = false ->
  getSubstitution matched before after repl = repl.
Proof.
  induction repl as [|c r IH]; intros H; [reflexivity|].
  rewrite includes_char_cons in H. apply orb_false_iff in H as [Hc H].
  cbn [getSubstitution].
  replace (Ascii.eqb c "$"%char) with false
    by (rewrite Ascii.eqb_sym; now rewrite Hc).
  now rewrite (IH H).
Qed.

Lemma cut_extend (p s b x a : string) :
  cut p s = Some (b, x ++ a) -> cut (p ++ x) s = Some (b, a).
Proof.
  revert b. induction s as [|c s IH]; intros b;
    rewrite (cut_unfold p), (cut_unfold (p ++ x)).
  - destruct (startsWith p EmptyString) eqn:E; [|discriminate].
    intros [= <- Hd]. destruct p; [|discriminate].
    destruct x; [|discriminate Hd]. simpl in Hd. now subst a.
  - destruct (startsWith p (String c s)) eqn:E.
    + intros [= <- Hd]. pose proof (startsWith_eq _ _ E) as Hs.
      rewrite Hd in Hs. rewrite Hs, <- append_assoc.
      now rewrite startsWith_app_same, append_length, drop_app_same'.
    + rewrite (startsWith_false_app _ _ _ E).
      destruct (cut p s) as [[b' a']|] eqn:Ec; [|discriminate].
      intros [= <- ->]. now rewrite (IH b' eq_refl).
Qed.

Lemma declaration_attribute (ns url : string) :
  declaration ns url = Repair.attribute ns url ++ ">".
Proof.
  unfold declaration, Repair.attribute. now rewrite !append_assoc.
Qed.

Lemma addNamespace_missing (kmlTag x ns url : string) :
  includes ">" x = false ->
  includes "$" (Repair.attribute ns url) = false ->
  addNamespace kmlTag (x ++ ">") (ns, url)
  = if includes ns kmlTag then x ++ ">"
    else (x ++ Repair.attribute ns url) ++ ">".
Proof.
  intros Hx Hattr. unfold addNamespace.
  destruct (includes ns kmlTag); [reflexivity|]. simpl negb. cbv iota.
  unfold replace. rewrite (cut_char_app ">"%char x EmptyString Hx).
  rewrite getSubstitution_plain.
  - now rewrite declaration_attribute, append_nil_r, append_assoc.
  - rewrite declaration_attribute, includes_char_app, Hattr. reflexivity.
Qed.

Lemma updatedTag_spec (kmlTag : string) (l : list (string * string)) :
  List.Forall
    (fun entry =>
       includes "$" (Repair.attribute (fst entry) (snd entry)) = false
       /\ includes ">" (Repair.attribute (fst entry) (snd entry)) = false) l ->
  forall x,
    includes ">" x = false ->
    fold_left (addNamespace kmlTag) l (x ++ ">")
    = x ++ String.concat EmptyString
             (List.map (fun entry => Repair.attribute (fst entry) (snd entry))
                (List.filter (fun entry => negb (includes (fst entry) kmlTag)) l))
        ++ ">".
Proof.
  induction 1 as [|[ns url] l [Hdollar Hgt] _ IH]; intros x Hx;
    cbn [fst snd] in *; cbn [fold_left List.filter List.map fst snd].
  - reflexivity.
  - rewrite (addNamespace_missing kmlTag x ns url Hx Hdollar).
    destruct (includes ns kmlTag); simpl negb; cbv iota.
    + now apply IH.
    + rewrite IH by (now rewrite includes_char_app, Hx, Hgt).
      cbn [List.map fst snd].
      destruct (List.map _ (List.filter _ l)) as [|d ds] eqn:E;
        cbn [String.concat].
      * change (EmptyString ++ ">") with ">". now rewrite append_assoc.
      * change (EmptyString ++ String.concat EmptyString (d :: ds))
          with (String.concat EmptyString (d :: ds)).
        now rewrite !append_assoc.
Qed.

Lemma KML_NAMESPACES_plain :
  List.Forall
    (fun entry =>
       includes "$" (Repair.attribute (fst entry) (snd entry)) = false
       /\ includes ">" (Repair.attribute (fst entry) (snd entry)) = false)
    KML_NAMESPACES.
Proof. repeat constructor. Qed.

Lemma concat_cons (a : string) (l : list string) :
  String.concat EmptyString (a :: l) = a ++ String.concat EmptyString l.
Proof.
  destruct l; cbn [String.concat]; [now rewrite append_nil_r | reflexivity].
Qed.

Lemma declarations_free (c : ascii) (f : string * string -> bool)
      (l : list (string * string)) :
  List.Forall
    (fun entry =>
       includes (String c EmptyString)
                (Repair.attribute (fst entry) (snd entry)) = false) l ->
  includes (String c EmptyString)
    (String.concat EmptyString
       (List.map (fun entry => Repair.attribute (fst entry) (snd entry))
          (List.filter f l))) = false.
Proof.
  induction 1 as [|e l He _ IH]; cbn [List.filter List.map]; [reflexivity|].
  destruct (f e); [|exact IH].
  cbn [List.map]. now rewrite concat_cons, includes_char_app, He, IH.
Qed.

Lemma missingDeclarations_dollar (kmlTag : string) :
  includes "$" (Repair.missingDeclarations kmlTag) = false.
Proof.
  apply declarations_free.
  exact (List.Forall_impl _ (fun e H => proj1 H) KML_NAMESPACES_plain).
Qed.

Lemma missingDeclarations_gt (kmlTag : string) :
  includes ">" (Repair.missingDeclarations kmlTag) = false.
Proof.
  apply declarations_free.
  exact (List.Forall_impl _ (fun e H => proj2 H) KML_NAMESPACES_plain).
Qed.

Lemma preprocessKml_cut (kmlString pre rest body post : string) :
  cut "<kml" kmlString = Some (pre, rest) ->
  cut ">" rest = Some (body, post) ->
  includes "$" body = false ->
  preprocessKml kmlString
  = pre ++ "<kml" ++ body
      ++ Repair.missingDeclarations ("<kml" ++ body ++ ">") ++ ">" ++ post.
Proof.
  intros Hroot Hclose Hdollar.
  pose proof (cut_sound _ _ _ _ Hclose) as Hrest.
  pose proof (cut_char_before _ _ _ _ Hclose) as Hgt.
  pose proof (cut_sound _ _ _ _ Hroot) as Hs.
  assert (Hin : includes "<kml" kmlString = true)
    by (unfold includes; now rewrite Hroot).
  unfold preprocessKml, matchKmlTag. rewrite Hin, Hroot, Hclose.
  change (negb true) with false. cbv iota zeta.
  set (kmlTag := "<kml" ++ body ++ ">").
  assert (Hupd : fold_left (addNamespace kmlTag) KML_NAMESPACES kmlTag
                 = ("<kml" ++ body) ++ Repair.missingDeclarations kmlTag ++ ">").
  { apply (updatedTag_spec kmlTag KML_NAMESPACES KML_NAMESPACES_plain
             ("<kml" ++ body)).
    now rewrite includes_char_app, Hgt. }
  rewrite Hupd. clear Hupd.
  set (m := Repair.missingDeclarations kmlTag).
  destruct (String.eqb (("<kml" ++ body) ++ m ++ ">") kmlTag) eqn:Heq;
    cbn [negb].
  - assert (Heq' : ("<kml" ++ body) ++ m ++ ">" = kmlTag)
      by (now apply String.eqb_eq).
    clear Heq. rename Heq' into Heq.
    transitivity (pre ++ kmlTag ++ post).
    + rewrite Hs, Hrest. unfold kmlTag. now rewrite !append_assoc.
    + rewrite <- Heq. now rewrite !append_assoc.
  - assert (Hcut : cut kmlTag kmlString = Some (pre, post)).
    { apply (cut_extend "<kml" kmlString pre (body ++ ">") post).
      now rewrite append_assoc, <- Hrest. }
    unfold replace. rewrite Hcut, getSubstitution_plain.
    + now rewrite !append_assoc.
    + unfold m.
      now rewrite !includes_char_app, Hdollar, missingDeclarations_dollar.
Qed.

(** X21: when the text has a root tag, from its first [<kml] to the
    first [>] after it, and no dollar sign between the two, namespace
    repair returns the text with the missing declarations put in front
    of that [>], and changes nothing else. *)
Theorem preprocessKml_injects (kmlString pre rest body post : string) :
  cut "<kml" kmlString = Some (pre, rest) ->
  cut ">" rest = Some (body, post) ->
  includes "$" body = false ->
  preprocessKml kmlString
  = pre ++ "<kml" ++ body
      ++ Repair.missingDeclarations ("<kml" ++ body ++ ">") ++ ">" ++ post.
Proof. exact (preprocessKml_cut kmlString pre rest body post). Qed.

(** *** Repairing twice *)

Lemma startsWith_snoc (c : ascii) (p x : string) :
  includes (String c EmptyString) p = false ->
  startsWith p (x ++ String c EmptyString) = true ->
  startsWith p x = true.
Proof.
  revert x. induction p as [|a p IH]; intros x Hp; [reflexivity|].
  rewrite includes_char_cons in Hp. apply orb_false_iff in Hp as [Hca Hp].
  destruct x as [|b x]; simpl.
  - rewrite Ascii.eqb_sym, Hca. discriminate.
  - intros H. apply andb_true_iff in H as [-> H]. now apply IH.
Qed.

Lemma includes_cons (p : string) (d : ascii) (x : string) :
  includes p (String d x) = (startsWith p (String d x) || includes p x)%bool.
Proof.
  unfold includes. rewrite (cut_unfold p (String d x)).
  destruct (startsWith p (String d x)); [reflexivity|].
  now destruct (cut p x) as [[b a]|].
Qed.

(** An occurrence of a text without [c] in [x ++ c] lies in [x]. *)
Lemma includes_snoc (c : ascii) (p x : string) :
  includes (String c EmptyString) p = false ->
  includes p (x ++ String c EmptyString) = true ->
  includes p x = true.
Proof.
  intros Hp. induction x as [|d x IH].
  - destruct p as [|a p]; [reflexivity|].
    rewrite includes_char_cons in Hp. apply orb_false_iff in Hp as [Hca _].
    change (EmptyString ++ String c EmptyString) with (String c EmptyString).
    rewrite includes_cons. simpl startsWith.
    rewrite Ascii.eqb_sym, Hca. discriminate.
  - change (String d x ++ String c EmptyString)
      with (String d (x ++ String c EmptyString)).
    rewrite !includes_cons. intros H.
    apply orb_true_iff in H as [H | H]; apply orb_true_iff.
    + left. apply (startsWith_snoc c); [exact Hp|exact H].
    + right. now apply IH.
Qed.

Lemma includes_attribute (ns url : string) :
  includes ns (Repair.attribute ns url) = true.
Proof.
  unfold Repair.attribute.
  apply includes_app_r, includes_startsWith, startsWith_app_same.
Qed.

Lemma declarations_include (kmlTag ns url : string)
      (l : list (string * string)) :
  In (ns, url) l ->
  includes ns kmlTag = false ->
  includes ns
    (String.concat EmptyString
       (List.map (fun entry => Repair.attribute (fst entry) (snd entry))
          (List.filter (fun entry => negb (includes (fst entry) kmlTag)) l)))
  = true.
Proof.
  intros Hin Hns. induction l as [|e l IH]; [destruct Hin|].
  cbn [List.filter].
  destruct Hin as [-> | Hin].
  - cbn [fst]. rewrite Hns. cbn [negb List.map fst snd].
    rewrite concat_cons. apply includes_app_l, includes_attribute.
  - destruct (negb (includes (fst e) kmlTag)); [|now apply IH].
    cbn [List.map]. rewrite concat_cons. now apply includes_app_r, IH.
Qed.

Lemma filter_none {A : Type} (f : A -> bool) (l : list A) :
  (forall x, In x l -> f x = false) -> List.filter f l = [].
Proof.
  induction l as [|a l IH]; intros H; [reflexivity|].
  cbn [List.filter]. rewrite (H a (or_introl eq_refl)).
  apply IH. intros x Hx. apply H. now right.
Qed.

(** Nothing is missing from a tag that got its missing declarations. *)
Lemma missingDeclarations_repaired (x : string) :
  Repair.missingDeclarations
    ((x ++ Repair.missingDeclarations (x ++ ">")) ++ ">") = EmptyString.
Proof.
  unfold Repair.missingDeclarations at 1.
  rewrite filter_none; [reflexivity|].
  intros [ns url] Hin. cbn [fst]. apply negb_false_iff.
  assert (Hgt : includes ">" ns = false).
  { revert Hin. clear. cbn [In KML_NAMESPACES].
    intros H. repeat (destruct H as [[= <- _] | H]; [reflexivity|]).
    destruct H. }
  destruct (includes ns (x ++ ">")) eqn:Hns.
  - apply includes_app_l, includes_app_l. now apply (includes_snoc ">"%char).
  - apply includes_app_l, includes_app_r.
    now apply (declarations_include (x ++ ">") ns url KML_NAMESPACES).
Qed.

(** X22: on a text with [<kml] whose root tag, when it has one, holds no
    dollar sign, repairing the namespaces twice is repairing them once. *)
Theorem preprocessKml_idempotent (kmlString : string) :
  includes "<kml" kmlString = true ->
  (forall kmlTag,
     matchKmlTag kmlString = Some kmlTag -> includes "$" kmlTag = false) ->
  preprocessKml (preprocessKml kmlString) = preprocessKml kmlString.
Proof.
  intros Hin Hplain.
  destruct (cut "<kml" kmlString) as [[pre rest]|] eqn:Hroot.
  2: { unfold includes in Hin. now rewrite Hroot in Hin. }
  destruct (cut ">" rest) as [[body post]|] eqn:Hclose.
  2: { assert (Hsame : preprocessKml kmlString = kmlString).
       { unfold preprocessKml, matchKmlTag.
         now rewrite Hin, Hroot, Hclose. }
       now rewrite !Hsame. }
  assert (Hdollar : includes "$" body = false).
  { specialize (Hplain ("<kml" ++ body ++ ">")).
    unfold matchKmlTag in Hplain. rewrite Hroot, Hclose in Hplain.
    specialize (Hplain eq_refl).
    rewrite !includes_char_app in Hplain.
    apply orb_false_iff in Hplain as [_ Hplain].
    now apply orb_false_iff in Hplain as [Hplain _]. }
  pose proof (cut_char_before _ _ _ _ Hclose) as Hgt.
  rewrite (preprocessKml_cut _ _ _ _ _ Hroot Hclose Hdollar).
  set (m := Repair.missingDeclarations ("<kml" ++ body ++ ">")).
  rewrite (preprocessKml_cut
             (pre ++ "<kml" ++ body ++ m ++ ">" ++ post)
             pre ((body ++ m) ++ ">" ++ post) (body ++ m) post).
  - change ("<kml" ++ (body ++ m) ++ ">")
      with ((("<kml" ++ body) ++ m) ++ ">").
    unfold m at 3.
    change ("<kml" ++ body ++ ">") with (("<kml" ++ body) ++ ">").
    rewrite missingDeclarations_repaired.
    change (EmptyString ++ ">" ++ post) with (">" ++ post).
    now rewrite !append_assoc.
  - rewrite <- (append_assoc body m (">" ++ post)).
    exact (cut_first _ _ _ _ _ Hroot).
  - apply (cut_char_app ">"%char (body ++ m) post).
    unfold m. now rewrite includes_char_app, Hgt, missingDeclarations_gt.
  - unfold m. now rewrite includes_char_app, Hdollar, missingDeclarations_dollar.
Qed.

(** X23: a text without [<kml] is wrapped in a root element that
    declares the default namespace only; a second pass adds the other
    four declarations, so that on such a text repairing twice is not
    repairing once. *)
Theorem preprocessKml_wrapped_twice (kmlString : string) :
  includes "<kml" kmlString = false ->
  preprocessKml (preprocessKml kmlString)
  = "<kml" ++ Repair.allDeclarations ++ ">" ++ kmlString ++ "</kml>"
  /\ preprocessKml (preprocessKml kmlString) <> preprocessKml kmlString.
Proof.
  intros Hin.
  assert (Hwrap : preprocessKml kmlString
                  = "<kml" ++ Repair.attribute "xmlns" "http://www.opengis.net/kml/2.2"
                      ++ ">" ++ kmlString ++ "</kml>").
  { unfold preprocessKml. now rewrite Hin. }
  assert (Htwice : preprocessKml (preprocessKml kmlString)
                   = "<kml" ++ Repair.allDeclarations ++ ">" ++ kmlString
                       ++ "</kml>").
  { rewrite Hwrap.
    rewrite (preprocessKml_cut _ EmptyString
               (Repair.attribute "xmlns" "http://www.opengis.net/kml/2.2"
                  ++ ">" ++ kmlString ++ "</kml>")
               (Repair.attribute "xmlns" "http://www.opengis.net/kml/2.2")
               (kmlString ++ "</kml>")); reflexivity. }
  split; [exact Htwice|].
  rewrite Htwice, Hwrap. intros H.
  apply (f_equal String.length) in H. rewrite !append_length in H.
  revert H. generalize (String.length kmlString). intros n H.
  vm_compute in H. lia.
Qed.

End Repair.

(** * The parser on the reference host *)

Import Reference Examples.

(** Three spaces give no triple. *)
Lemma parseCoordinates_total_witness :
  parseCoordinates (Some "   ") = [].
Proof.
  destruct (@parseCoordinates_total refNumber) as (_ & _ & Hblank & _).
  apply Hblank. reflexivity.
Defined.



(** The area of the polygon with one hole is the area of its outer ring of
    four points. *)
Example polygonWithHole_area :
  exists e ring0 hole,
    parseKml polygonWithHole
    = Returned {| kmlName := None; kmlDescription := None; elements := [e] |}
    /\ coordinates e = Rings [ring0; hole]
    /\ length ring0 = 4
    /\ metadata e ≫= area = Some (calculatePolygonArea ring0).
Proof.
  eexists. eexists. eexists. split; [vm_compute; reflexivity|].
  split; [reflexivity|]. split; reflexivity.
Qed.


(** The whole document: no entry for "m", one Point without a style. *)
Example danglingDocument_styles :
  parseStyles danglingDocument !! "m" = None
  /\ List.map (fun e => (type e, style e))
       (parsePlacemarks danglingDocument (parseStyles danglingDocument))
     = [(Point, None)].
Proof. vm_compute. split; reflexivity. Qed.

(** A text file is refused, and in the archive without [doc.kml] the track
    is the entry that is parsed. *)
Lemma parseKmz_lookup_witness :
  parseKmz (Some {| fileName := "notes.txt"; fileBytes := "PK" |})
  = Thrown "Not a KMZ file"
  /\ parseKmz (Some {| fileName := "Trip.KMZ"; fileBytes := "PK" |})
     = extractAndParse trackEntry.
Proof.
  destruct (@parseKmz_lookup refNumber refBrowser archiveReader)
    as (Hrefused & Hlookup).
  split.
  - apply Hrefused. reflexivity.
  - apply (Hlookup {| fileName := "Trip.KMZ"; fileBytes := "PK" |} archive).
    + reflexivity.
    + reflexivity.
    + unfold archive, keys. simpl.
      repeat (constructor; [simpl; intuition discriminate|]). constructor.
Defined.

(** C1, as stated, fails on a well-formed document without a placemark:
    the parse reports no error, no element is extracted, and [parseKml]
    returns the empty document with its name, which is not what the
    fallback parser returns. *)
Lemma empty_document_is_not_salvaged :
  let xmlDoc := parseFromString (preprocessKml emptyDocument) in
  docQuerySelector ["parsererror"] xmlDoc = None
  /\ parsePlacemarks xmlDoc (parseStyles xmlDoc) = []
  /\ parseKml emptyDocument
     = Returned {| kmlName := Some "Empty"; kmlDescription := None;
                   elements := [] |}
  /\ parseKml emptyDocument <> Returned (fallbackParse emptyDocument).
Proof. vm_compute. repeat split. discriminate. Qed.

(** The same on a document whose only placemark is inside a comment: the
    fallback parser would find it, [parseKml] returns no element. *)
Example commented_placemark_is_not_salvaged :
  parseKml commentedPlacemark
  = Returned {| kmlName := None; kmlDescription := None; elements := [] |}
  /\ length (elements (fallbackParse commentedPlacemark)) = 1.
Proof. vm_compute. split; reflexivity. Qed.

(** The unclosed document goes to the fallback parser; the empty document
    does not. *)
Lemma parseKml_fallback_on_parsererror_witness :
  parseKml unclosedDocument = Returned (fallbackParse unclosedDocument)
  /\ exists name description,
      parseKml emptyDocument
      = Returned {| kmlName := name; kmlDescription := description;
                    elements :=
                      parsePlacemarks
                        (parseFromString (preprocessKml emptyDocument))
                        (parseStyles
                           (parseFromString (preprocessKml emptyDocument))) |}.
Proof.
  split.
  - apply (parseKml_fallback_on_parsererror unclosedDocument); [reflexivity|].
    vm_compute. discriminate.
  - apply (parseKml_fallback_on_parsererror emptyDocument);
      vm_compute; reflexivity.
Defined.

(** What the fallback parser makes of the unclosed document. *)
Example unclosedDocument_salvaged :
  List.map (fun e => (type e, name e, coordinates e))
    (elements (fallbackParse unclosedDocument))
  = [(Point, Some "A", Path [Triple (Val 1) (Val 2) (Val 0)])].
Proof. vm_compute. reflexivity. Qed.

(** C2 fails on the code: the outer boundary of this polygon gives no
    coordinate, its inner boundary gives three, and the placemark is
    emitted as a Polygon whose ring 0 is the inner boundary. *)
Theorem polygon_without_outer_ring_is_emitted :
  parseCoordinates (Some " ") = []
  /\ exists data,
      parseKml holeOnlyPolygon = Returned data
      /\ List.map (fun e => (type e, coordinates e)) (elements data)
         = [(Polygon,
             Rings [[Triple (Val 1) (Val 2) (Val 0);
                     Triple (Val 3) (Val 4) (Val 0);
                     Triple (Val 5) (Val 6) (Val 0)]])].
Proof.
  split; [reflexivity|]. eexists. split; vm_compute; reflexivity.
Qed.

(** C8 fails on the code: the outer boundary of this polygon gives no
    coordinate, so the ring 0 of the element is its inner boundary, and the
    area that the element reports is the area of that hole, computed from
    its three points: about 60 square kilometres on the host that
    computes, where the area of the outer boundary is 0. *)
Theorem polygon_area_of_inner_boundary :
  let hole := [Triple (Val 1) (Val 2) (Val 0);
               Triple (Val 3) (Val 4) (Val 0);
               Triple (Val 5) (Val 6) (Val 0)] in
  parseCoordinates (Some " ") = []
  /\ parseCoordinates (Some "1,2 3,4 5,6") = hole
  /\ (exists e,
        parseKml holeOnlyPolygon
        = Returned {| kmlName := None; kmlDescription := None;
                      elements := [e] |}
        /\ type e = Polygon
        /\ coordinates e = Rings [hole]
        /\ metadata e
           = Some {| length_km := None;
                     area := Some (calculatePolygonArea hole) |})
  /\ @calculatePolygonArea Exact.exactNumber (@parseCoordinates Exact.exactNumber (Some " "))
     = Exact.fin 0
  /\ exists q,
      @calculatePolygonArea Exact.exactNumber
         (@parseCoordinates Exact.exactNumber (Some "1,2 3,4 5,6"))
      = Exact.XVal q
      /\ (60 < q)%Q /\ (q < 61)%Q.
Proof.
  cbv zeta. split; [reflexivity|]. split; [reflexivity|].
  split; [eexists; split; [vm_compute; reflexivity | repeat split]|].
  split; [reflexivity|].
  eexists. split; [vm_compute; reflexivity|]. split; reflexivity.
Qed.

(** C3 fails on the code: in a root tag that declares only [xmlns:gx], the
    name [xmlns] occurs inside [xmlns:gx], so the default namespace, which
    is missing, is not injected; the other three are. *)
Theorem default_namespace_is_not_injected :
  preprocessKml gxOnlyDocument
  = "<kml xmlns:gx=" ++ dquote ++ "http://www.google.com/kml/ext/2.2" ++ dquote
    ++ " xmlns:xsi=" ++ dquote ++ "http://www.w3.org/2001/XMLSchema-instance" ++ dquote
    ++ " xmlns:atom=" ++ dquote ++ "http://www.w3.org/2005/Atom" ++ dquote
    ++ " xmlns:kml=" ++ dquote ++ "http://www.opengis.net/kml/2.2" ++ dquote
    ++ "><Document/></kml>"
  /\ includes " xmlns=" gxOnlyDocument = false
  /\ includes " xmlns=" (preprocessKml gxOnlyDocument) = false.
Proof. vm_compute. repeat split. Qed.

(** An attribute of the root tag is not preserved when it holds [$&]: the
    updated tag is the replacement text of [String.prototype.replace],
    which puts the matched tag in its place. *)
Example dollar_attribute_is_rewritten :
  preprocessKml dollarDocument
  = "<kml id='<kml id='$&'>'"
    ++ " xmlns=" ++ dquote ++ "http://www.opengis.net/kml/2.2" ++ dquote
    ++ " xmlns:xsi=" ++ dquote ++ "http://www.w3.org/2001/XMLSchema-instance" ++ dquote
    ++ " xmlns:gx=" ++ dquote ++ "http://www.google.com/kml/ext/2.2" ++ dquote
    ++ " xmlns:atom=" ++ dquote ++ "http://www.w3.org/2005/Atom" ++ dquote
    ++ " xmlns:kml=" ++ dquote ++ "http://www.opengis.net/kml/2.2" ++ dquote
    ++ "><Document/></kml>".
Proof. vm_compute. reflexivity. Qed.

(** A root tag without any of the names gets the five declarations, in the
    order of [KML_NAMESPACES], and the rest of the text is kept. *)
Example five_namespaces_are_injected :
  preprocessKml emptyDocument
  = "<kml"
    ++ " xmlns=" ++ dquote ++ "http://www.opengis.net/kml/2.2" ++ dquote
    ++ " xmlns:xsi=" ++ dquote ++ "http://www.w3.org/2001/XMLSchema-instance" ++ dquote
    ++ " xmlns:gx=" ++ dquote ++ "http://www.google.com/kml/ext/2.2" ++ dquote
    ++ " xmlns:atom=" ++ dquote ++ "http://www.w3.org/2005/Atom" ++ dquote
    ++ " xmlns:kml=" ++ dquote ++ "http://www.opengis.net/kml/2.2" ++ dquote
    ++ "><Document><name>Empty</name></Document></kml>".
Proof. vm_compute. reflexivity. Qed.

(** * Further properties on the reference host *)

Import Samples.

Lemma tally_injective (i j : nat) : tally i = tally j -> i = j.
Proof.
  revert j. induction i as [|i IH]; intros [|j]; simpl; try discriminate.
  - reflexivity.
  - intros [= H]. f_equal. now apply IH.
Qed.

(** The two elements of the trip carry the first two identifiers, which are
    two. *)
Lemma parseKml_identifiers_witness :
  exists data,
    @parseKml refNumber tallyBrowser tripDocument = Returned data
    /\ List.map elementId (elements data) = [tally 0; tally 1]
    /\ List.NoDup (List.map elementId (elements data)).
Proof.
  eexists. split; [vm_compute; reflexivity|].
  split; [vm_compute; reflexivity|].
  apply (@parseKml_identifiers refNumber tallyBrowser tripDocument);
    [vm_compute; reflexivity|].
  exact tally_injective.
Defined.

(** A placemark whose MultiGeometry is empty adds nothing. *)
Lemma multiGeometry_branch_never_emits_witness :
  placemarkStep ∅ [] emptyMultiGeometry = [].
Proof.
  destruct (@multiGeometry_branch_never_emits refNumber refBrowser) as [Hskip _].
  apply (Hskip ∅ [] emptyMultiGeometry); reflexivity.
Defined.


(** The extended data of the trip. *)
Lemma extendedData_entries_witness :
  exists data,
    parseKml tripDocument = Returned data
    /\ List.map (fun e => extendedData e) (elements data)
       = [Some {[ "k" := "v" ]}; None]
    /\ List.Forall
         (fun e => forall m : gmap string string,
              extendedData e = Some m ->
              m <> ∅
              /\ forall k v, m !! k = Some v ->
                             k <> EmptyString /\ k <> "__proto__"
                             /\ v <> EmptyString)
         (elements data).
Proof.
  eexists. split; [vm_compute; reflexivity|].
  split; [vm_compute; reflexivity|].
  apply (extendedData_entries tripDocument). vm_compute. reflexivity.
Defined.

(** Tuples separated by a line break and spaces. *)
Lemma coordStrings_tokens_witness :
  let token := "3,4" in
  token <> EmptyString
  /\ existsb isWhiteSpace (list_ascii_of_string token) = false.
Proof.
  apply (coordStrings_tokens (String (ascii_of_nat 10) " 1,2   3,4 ") "3,4").
  vm_compute. right. left. reflexivity.
Defined.

(** The style under the id of the StyleMap is the style of the Style
    element. *)
Lemma parseStyles_values_witness :
  exists st,
    parseStyles styledDocument !! "m" = Some st
    /\ exists styleEl,
        In styleEl (docQuerySelectorAll ["Style"] styledDocument)
        /\ st = styleOf styleEl.
Proof.
  eexists. split; [vm_compute; reflexivity|].
  apply (parseStyles_values styledDocument "m"). vm_compute. reflexivity.
Defined.

(** Both ids of the styled document have an entry. *)
Lemma parseStyles_covers_witness :
  is_Some (parseStyles styledDocument !! "s")
  /\ is_Some (parseStyles styledDocument !! "m").
Proof.
  destruct (@parseStyles_covers refNumber) as [Hstyle Hmap].
  split.
  - apply (Hstyle styledDocument (At ["Document"; "kml"] redLine) "s").
    + vm_compute. left. reflexivity.
    + reflexivity.
  - apply (Hmap styledDocument (At ["Document"; "kml"] redLineMap)
                (At ["Document"; "kml"] redLine) "m" "s").
    + vm_compute. left. reflexivity.
    + reflexivity.
    + vm_compute. reflexivity.
    + vm_compute. left. reflexivity.
    + reflexivity.
Defined.

(** The empty document is not the empty text. *)
Lemma parseKml_throws_only_on_empty_witness :
  exists data, parseKml emptyDocument = Returned data.
Proof.
  apply (parseKml_throws_only_on_empty emptyDocument). discriminate.
Defined.

(** No file, and an entry of white space. *)
Lemma parseKmz_errors_witness :
  In "No file provided"
     [ "No file provided";
       "Not a KMZ file";
       "Invalid KMZ file: Not a valid ZIP archive";
       "No KML file found in the KMZ archive";
       "Failed to extract KML content from KMZ file";
       "Extracted KML file is empty" ]
  /\ extractAndParse blankEntry = Thrown "Extracted KML file is empty"
  /\ exists data, parseKml "  " = Returned data.
Proof.
  destruct (@parseKmz_errors refNumber refBrowser archiveReader)
    as [Hmessage Hblank].
  split; [|split].
  - apply (Hmessage None). reflexivity.
  - apply (Hblank blankEntry "  "); reflexivity.
  - eexists. vm_compute. reflexivity.
Defined.

(** The trip: one point, one line, no polygon, nothing else. *)
Lemma summary_counts_witness :
  exists data,
    parseKml tripDocument = Returned data
    /\ App.countOfOthers data = 0
    /\ App.countOfType Point data + App.countOfType LineString data
       + App.countOfType Polygon data
       = length (elements data).
Proof.
  eexists. split; [vm_compute; reflexivity|].
  apply (summary_counts tripDocument). vm_compute. reflexivity.
Defined.

(** A text file is read as text and handed to [parseKml]. *)
Lemma handleFileUpload_errors_witness :
  App.handleFileUpload freshPage (Some notes)
  = App.settle
      {| App.kmlData := None; App.isLoading := false; App.error := None;
         App.selectedElement := None;
         App.shownName := Some "notes.txt";
         App.shownSize := Some 5;
         App.shownType := Some App.kml |}
      (parseKml "hello").
Proof.
  destruct (@handleFileUpload_errors refNumber refBrowser archiveReader
              textReader freshPage notes) as (_ & _ & Htext).
  apply (Htext eq_refl "hello"). reflexivity.
Defined.

(** The root tag of the empty document gets the five declarations. *)
Lemma preprocessKml_injects_witness :
  preprocessKml emptyDocument
  = "<kml" ++ Repair.missingDeclarations "<kml>"
    ++ "><Document><name>Empty</name></Document></kml>".
Proof.
  apply (preprocessKml_injects emptyDocument EmptyString
           "><Document><name>Empty</name></Document></kml>" EmptyString
           "<Document><name>Empty</name></Document></kml>"); reflexivity.
Defined.

(** Repairing the document that declares [gx] only. *)
Lemma preprocessKml_idempotent_witness :
  preprocessKml (preprocessKml gxOnlyDocument) = preprocessKml gxOnlyDocument.
Proof.
  apply (preprocessKml_idempotent gxOnlyDocument); [reflexivity|].
  intros kmlTag H. vm_compute in H. injection H as <-. reflexivity.
Defined.

(** Repairing a bare placemark twice. *)
Lemma preprocessKml_wrapped_twice_witness :
  preprocessKml (preprocessKml "<Placemark/>")
  = "<kml" ++ Repair.allDeclarations ++ "><Placemark/></kml>"
  /\ preprocessKml (preprocessKml "<Placemark/>") <> preprocessKml "<Placemark/>".
Proof.
  apply (preprocessKml_wrapped_twice "<Placemark/>"). reflexivity.
Defined.

(** The document of the archive is the document of its track. *)
Lemma parseKmz_returns_parsed_entry_witness :
  exists data,
    parseKmz (Some trip) = Returned data
    /\ exists kmz files entry kmlFile kmlContent,
        Some trip = Some kmz
        /\ endsWith ".kmz" (toLowerCase (fileName kmz)) = true
        /\ loadAsync kmz = Some files
        /\ file files entry = Some kmlFile
        /\ asyncString kmlFile = Some kmlContent
        /\ trim kmlContent <> EmptyString
        /\ parseKml kmlContent = Returned data.
Proof.
  eexists. split; [vm_compute; reflexivity|].
  apply (parseKmz_returns_parsed_entry (Some trip)). vm_compute. reflexivity.
Defined.

(** A LineString of one point is an element of the document, and the map
    has no layer for it. *)
Example lonelyLine_is_not_drawn :
  exists data e,
    parseKml lonelyLine = Returned data
    /\ elements data = [e]
    /\ type e = LineString
    /\ App.layerGuard e = false.
Proof.
  eexists. eexists. split; [vm_compute; reflexivity|].
  split; [reflexivity|]. split; reflexivity.
Qed.

(** The Point that the fallback parser recovers from the unclosed document
    is an element of the document, and the map has no layer for it. *)
Example salvaged_point_is_not_drawn :
  exists data e,
    parseKml unclosedDocument = Returned data
    /\ elements data = [e]
    /\ type e = Point
    /\ App.layerGuard e = false.
Proof.
  eexists. eexists. split; [vm_compute; reflexivity|].
  split; [reflexivity|]. split; reflexivity.
Qed.

(** A ring of two points, and the polygon with one hole: its area is the
    area of its outer boundary of four points. *)
Lemma polygon_area_from_outer_boundary_witness :
  calculatePolygonArea [zeroTriple; zeroTriple] = num 0
  /\ exists data,
      parseKml polygonWithHole = Returned data
      /\ List.Forall
           (fun e =>
              forall a,
                metadata e ≫= area = Some a ->
                type e = Polygon
                /\ exists ring0 rest,
                    coordinates e = Rings (ring0 :: rest)
                    /\ a = calculatePolygonArea ring0)
           (elements data).
Proof.
  destruct (@polygon_area_from_outer_boundary refNumber refBrowser)
    as (Hdegenerate & _ & Hparsed).
  split.
  - apply Hdegenerate. simpl. lia.
  - eexists. split.
    + vm_compute. reflexivity.
    + apply (Hparsed polygonWithHole). vm_compute. reflexivity.
Defined.

(** An empty text file on a page that shows the trip: the page keeps the
    trip and shows the error of [parseKml] under the name of the new
    file. *)
Example empty_file_keeps_the_document :
  forall trip : KmlData number,
    let shown :=
      {| App.kmlData := Some trip; App.isLoading := false; App.error := None;
         App.selectedElement := None; App.shownName := Some "trip.kml";
         App.shownSize := Some 300; App.shownType := Some App.kml |} in
    let after :=
      App.handleFileUpload shown
        (Some {| fileName := "empty.kml"; fileBytes := EmptyString |}) in
    App.kmlData after = Some trip
    /\ App.shownName after = Some "empty.kml"
    /\ App.error after = Some "Invalid KML content: Empty or not a string".
Proof. intros trip. repeat split. Qed.

(** * The distance on the host that computes *)

(** From Paris to Berlin and back, from Paris to Paris, and from a point
    whose latitude was read from the text "Infinity" to itself. *)
Lemma calculateDistance_symmetric_zero_when_finite_witness :
  @calculateDistance Exact.exactNumber
     (Exact.fin 48.85) (Exact.fin 2.35) (Exact.fin 52.52) (Exact.fin 13.4)
  = @calculateDistance Exact.exactNumber
      (Exact.fin 52.52) (Exact.fin 13.4) (Exact.fin 48.85) (Exact.fin 2.35)
  /\ @calculateDistance Exact.exactNumber
       (Exact.fin 48.85) (Exact.fin 2.35) (Exact.fin 48.85) (Exact.fin 2.35)
     = Exact.fin 0
  /\ @calculateDistance Exact.exactNumber
       (@parseFloat Exact.exactNumber "Infinity") (Exact.fin 0)
       (@parseFloat Exact.exactNumber "Infinity") (Exact.fin 0)
     <> Exact.fin 0.
Proof.
  destruct (@calculateDistance_symmetric_zero_when_finite Exact.exactNumber
              exact_Ieee754 exact_MathLibrary exact_NaNPropagation)
    as (Hsymmetric & Hzero & HNaN).
  split; [|split].
  - apply Hsymmetric.
  - apply Hzero; reflexivity.
  - apply HNaN. left. reflexivity.
Defined.

(** C7, as stated, fails at a point whose latitude is an infinity, which
    [parseFloat] reads from the text "Infinity": the difference of the two
    latitudes is NaN, and so is the distance from the point to itself. *)
Lemma distance_to_itself_is_NaN_at_infinity :
  let infinity := @parseFloat Exact.exactNumber "Infinity" in
  infinity = Exact.XInfinity false
  /\ @sub Exact.exactNumber infinity infinity = Exact.XNaN
  /\ @calculateDistance Exact.exactNumber infinity (Exact.fin 0)
                                           infinity (Exact.fin 0)
     = Exact.XNaN
  /\ @calculateDistance Exact.exactNumber infinity (Exact.fin 0)
                                           infinity (Exact.fin 0)
     <> Exact.fin 0.
Proof. vm_compute. repeat split. discriminate. Qed.

(** The host that computes is near the mark: from Paris to Berlin it finds
    877.67 kilometres, as a browser does. *)
Example distance_from_Paris_to_Berlin :
  exists q,
    @calculateDistance Exact.exactNumber
       (Exact.fin 48.85) (Exact.fin 2.35) (Exact.fin 52.52) (Exact.fin 13.4)
    = Exact.XVal q
    /\ (877.67 < q)%Q /\ (q < 877.68)%Q.
Proof.
  eexists. split; [vm_compute; reflexivity|]. split; vm_compute; reflexivity.
Qed.
